(** * Greek courier tracker: the tracking route (src/app/api/track/route.ts)

    A shallow embedding of the route module: the carrier registry and
    detector, the status normalizer, the two carrier fetchers, the
    dispatcher [trackShipment] and the two HTTP handlers [POST] and [GET];
    and of the list of numbers that the page (src/app/page.tsx) keeps and
    sends to the route.

    JavaScript strings are sequences of UTF-16 code units, upper-cased and
    lower-cased by the case mappings of Unicode; values coming back from
    the carriers are untyped JSON; the network is the only effect.  Each
    of these is modelled as the code sees it. *)

From Stdlib Require Import String Ascii QArith_base.
From Stdlib Require Import List Bool Arith NArith ZArith Lia.
Import ListNotations.
Local Close Scope Q_scope.
Local Open Scope N_scope.

(* ================================================================== *)
(** * JavaScript strings *)
(* ================================================================== *)

(** A string is its list of UTF-16 code units ([length] counts those). *)
Definition jsstring := list N.

Definition str_eqb (a b : jsstring) : bool :=
  if list_eq_dec N.eq_dec a b then true else false.

(** String literals of this file are written as in the source, in UTF-8;
    [lit] decodes the bytes of a literal into code units (one unit up to
    U+FFFF, a surrogate pair above). *)
Fixpoint bytes (s : string) : list N :=
  match s with
  | EmptyString => []
  | String a s' => N_of_ascii a :: bytes s'
  end.

Fixpoint utf16 (bs : list N) : jsstring :=
  match bs with
  | [] => []
  | b :: r =>
    if b <? 128 then b :: utf16 r
    else match r with
    | [] => []
    | b1 :: r1 =>
      if b <? 224 then ((b - 192) * 64 + (b1 - 128)) :: utf16 r1
      else match r1 with
      | [] => []
      | b2 :: r2 =>
        if b <? 240
        then ((b - 224) * 4096 + (b1 - 128) * 64 + (b2 - 128)) :: utf16 r2
        else match r2 with
        | [] => []
        | b3 :: r3 =>
          let cp := (b - 240) * 262144 + (b1 - 128) * 4096
                    + (b2 - 128) * 64 + (b3 - 128) in
          (55296 + (cp - 65536) / 1024)
            :: (56320 + (cp - 65536) mod 1024) :: utf16 r3
        end
      end
    end
  end.

Definition lit (s : string) : jsstring := utf16 (bytes s).

(** ** [String.prototype.startsWith], [includes], [slice], [split] *)

Fixpoint startsWith (s p : jsstring) : bool :=
  match p, s with
  | [], _ => true
  | _ :: _, [] => false
  | c :: p', d :: s' => (c =? d) && startsWith s' p'
  end.

(** [s.includes(sub)]: [sub] occurs in [s] as a run of consecutive units. *)
Fixpoint includes (s sub : jsstring) : bool :=
  startsWith s sub ||
  match s with
  | [] => false
  | _ :: s' => includes s' sub
  end.

(** [s.slice(0, n)] *)
Definition slice0 (n : nat) (s : jsstring) : jsstring := firstn n s.

(** [s.split(sep)] for a one-unit separator: the first piece and the
    pieces after it (the array is never empty). *)
Fixpoint split_pieces (sep : N) (s : jsstring) : jsstring * list jsstring :=
  match s with
  | [] => ([], [])
  | c :: s' =>
    let (w, ws) := split_pieces sep s' in
    if c =? sep then ([], w :: ws) else (c :: w, ws)
  end.

Definition split (sep : N) (s : jsstring) : list jsstring :=
  let (w, ws) := split_pieces sep s in w :: ws.

(** ** [String.prototype.trim] *)

(** White space and line terminators of ECMAScript. *)
Definition is_ws (u : N) : bool :=
  ((9 <=? u) && (u <=? 13)) || (u =? 32) || (u =? 160) || (u =? 5760)
  || ((8192 <=? u) && (u <=? 8202)) || (u =? 8232) || (u =? 8233)
  || (u =? 8239) || (u =? 8287) || (u =? 12288) || (u =? 65279).

Fixpoint trimStart (s : jsstring) : jsstring :=
  match s with
  | [] => []
  | c :: s' => if is_ws c then trimStart s' else s
  end.

Definition trimEnd (s : jsstring) : jsstring := rev (trimStart (rev s)).

Definition trim (s : jsstring) : jsstring := trimEnd (trimStart s).

(** ** Code points

    [toUpperCase] and [toLowerCase] read the string as code points: a
    high surrogate followed by a low surrogate is one code point, every
    other unit is a code point by itself (StringToCodePoints and
    CodePointsToString of ECMAScript).  A number that is no 16-bit unit
    never comes out of [lit] or of the code; it is read as the code
    point of that number. *)

Definition is_high (u : N) : bool := (0xD800 <=? u) && (u <=? 0xDBFF).
Definition is_low (u : N) : bool := (0xDC00 <=? u) && (u <=? 0xDFFF).

Definition code_point (h l : N) : N :=
  0x10000 + (h - 0xD800) * 0x400 + (l - 0xDC00).

Fixpoint code_points (s : jsstring) : list N :=
  match s with
  | [] => []
  | h :: s' =>
    match s' with
    | l :: s'' =>
      if is_high h && is_low l then code_point h l :: code_points s''
      else h :: code_points s'
    | [] => [h]
    end
  end.

Definition units_of (c : N) : jsstring :=
  if (0x10000 <=? c) && (c <=? 0x10FFFF)
  then [0xD800 + (c - 0x10000) / 0x400; 0xDC00 + (c - 0x10000) mod 0x400]
  else [c].

Definition of_code_points (cs : list N) : jsstring := flat_map units_of cs.

(** ** The case tables

    The language-neutral case mappings of the Unicode Character Database,
    version 14.0: the simple mappings of UnicodeData.txt and the
    unconditional full mappings of SpecialCasing.txt, for all planes.

    A run [(first, last, step, image)] maps [first], [first + step], ...
    up to [last] to [image], [image + step], ...; the runs are sorted by
    their first code point, and so are the other tables. *)

Definition run : Type := N * N * N * N.

Fixpoint run_lookup (runs : list run) (c : N) : option N :=
  match runs with
  | [] => None
  | (first, last, step, image) :: rest =>
    if c <? first then None
    else if (c <=? last) && ((c - first) mod step =? 0)
    then Some (image + (c - first))
    else run_lookup rest c
  end.

Fixpoint full_lookup (table : list (N * list N)) (c : N) : option (list N) :=
  match table with
  | [] => None
  | (k, image) :: rest =>
    if c <? k then None
    else if c =? k then Some image
    else full_lookup rest c
  end.

Fixpoint in_ranges (ranges : list (N * N)) (c : N) : bool :=
  match ranges with
  | [] => false
  | (first, last) :: rest =>
    if c <? first then false else (c <=? last) || in_ranges rest c
  end.

(** Code points with a one-to-one upper case. *)
Definition upper_runs : list run :=
  [
    (0x0061, 0x007A, 1, 0x0041); (0x00B5, 0x00B5, 1, 0x039C);
    (0x00E0, 0x00F6, 1, 0x00C0); (0x00F8, 0x00FE, 1, 0x00D8);
    (0x00FF, 0x00FF, 1, 0x0178); (0x0101, 0x012F, 2, 0x0100);
    (0x0131, 0x0131, 1, 0x0049); (0x0133, 0x0137, 2, 0x0132);
    (0x013A, 0x0148, 2, 0x0139); (0x014B, 0x0177, 2, 0x014A);
    (0x017A, 0x017E, 2, 0x0179); (0x017F, 0x017F, 1, 0x0053);
    (0x0180, 0x0180, 1, 0x0243); (0x0183, 0x0185, 2, 0x0182);
    (0x0188, 0x0188, 1, 0x0187); (0x018C, 0x018C, 1, 0x018B);
    (0x0192, 0x0192, 1, 0x0191); (0x0195, 0x0195, 1, 0x01F6);
    (0x0199, 0x0199, 1, 0x0198); (0x019A, 0x019A, 1, 0x023D);
    (0x019E, 0x019E, 1, 0x0220); (0x01A1, 0x01A5, 2, 0x01A0);
    (0x01A8, 0x01A8, 1, 0x01A7); (0x01AD, 0x01AD, 1, 0x01AC);
    (0x01B0, 0x01B0, 1, 0x01AF); (0x01B4, 0x01B6, 2, 0x01B3);
    (0x01B9, 0x01B9, 1, 0x01B8); (0x01BD, 0x01BD, 1, 0x01BC);
    (0x01BF, 0x01BF, 1, 0x01F7); (0x01C5, 0x01C5, 1, 0x01C4);
    (0x01C6, 0x01C6, 1, 0x01C4); (0x01C8, 0x01C8, 1, 0x01C7);
    (0x01C9, 0x01C9, 1, 0x01C7); (0x01CB, 0x01CB, 1, 0x01CA);
    (0x01CC, 0x01CC, 1, 0x01CA); (0x01CE, 0x01DC, 2, 0x01CD);
    (0x01DD, 0x01DD, 1, 0x018E); (0x01DF, 0x01EF, 2, 0x01DE);
    (0x01F2, 0x01F2, 1, 0x01F1); (0x01F3, 0x01F3, 1, 0x01F1);
    (0x01F5, 0x01F5, 1, 0x01F4); (0x01F9, 0x021F, 2, 0x01F8);
    (0x0223, 0x0233, 2, 0x0222); (0x023C, 0x023C, 1, 0x023B);
    (0x023F, 0x0240, 1, 0x2C7E); (0x0242, 0x0242, 1, 0x0241);
    (0x0247, 0x024F, 2, 0x0246); (0x0250, 0x0250, 1, 0x2C6F);
    (0x0251, 0x0251, 1, 0x2C6D); (0x0252, 0x0252, 1, 0x2C70);
    (0x0253, 0x0253, 1, 0x0181); (0x0254, 0x0254, 1, 0x0186);
    (0x0256, 0x0257, 1, 0x0189); (0x0259, 0x0259, 1, 0x018F);
    (0x025B, 0x025B, 1, 0x0190); (0x025C, 0x025C, 1, 0xA7AB);
    (0x0260, 0x0260, 1, 0x0193); (0x0261, 0x0261, 1, 0xA7AC);
    (0x0263, 0x0263, 1, 0x0194); (0x0265, 0x0265, 1, 0xA78D);
    (0x0266, 0x0266, 1, 0xA7AA); (0x0268, 0x0268, 1, 0x0197);
    (0x0269, 0x0269, 1, 0x0196); (0x026A, 0x026A, 1, 0xA7AE);
    (0x026B, 0x026B, 1, 0x2C62); (0x026C, 0x026C, 1, 0xA7AD);
    (0x026F, 0x026F, 1, 0x019C); (0x0271, 0x0271, 1, 0x2C6E);
    (0x0272, 0x0272, 1, 0x019D); (0x0275, 0x0275, 1, 0x019F);
    (0x027D, 0x027D, 1, 0x2C64); (0x0280, 0x0280, 1, 0x01A6);
    (0x0282, 0x0282, 1, 0xA7C5); (0x0283, 0x0283, 1, 0x01A9);
    (0x0287, 0x0287, 1, 0xA7B1); (0x0288, 0x0288, 1, 0x01AE);
    (0x0289, 0x0289, 1, 0x0244); (0x028A, 0x028B, 1, 0x01B1);
    (0x028C, 0x028C, 1, 0x0245); (0x0292, 0x0292, 1, 0x01B7);
    (0x029D, 0x029D, 1, 0xA7B2); (0x029E, 0x029E, 1, 0xA7B0);
    (0x0345, 0x0345, 1, 0x0399); (0x0371, 0x0373, 2, 0x0370);
    (0x0377, 0x0377, 1, 0x0376); (0x037B, 0x037D, 1, 0x03FD);
    (0x03AC, 0x03AC, 1, 0x0386); (0x03AD, 0x03AF, 1, 0x0388);
    (0x03B1, 0x03C1, 1, 0x0391); (0x03C2, 0x03C2, 1, 0x03A3);
    (0x03C3, 0x03CB, 1, 0x03A3); (0x03CC, 0x03CC, 1, 0x038C);
    (0x03CD, 0x03CE, 1, 0x038E); (0x03D0, 0x03D0, 1, 0x0392);
    (0x03D1, 0x03D1, 1, 0x0398); (0x03D5, 0x03D5, 1, 0x03A6);
    (0x03D6, 0x03D6, 1, 0x03A0); (0x03D7, 0x03D7, 1, 0x03CF);
    (0x03D9, 0x03EF, 2, 0x03D8); (0x03F0, 0x03F0, 1, 0x039A);
    (0x03F1, 0x03F1, 1, 0x03A1); (0x03F2, 0x03F2, 1, 0x03F9);
    (0x03F3, 0x03F3, 1, 0x037F); (0x03F5, 0x03F5, 1, 0x0395);
    (0x03F8, 0x03F8, 1, 0x03F7); (0x03FB, 0x03FB, 1, 0x03FA);
    (0x0430, 0x044F, 1, 0x0410); (0x0450, 0x045F, 1, 0x0400);
    (0x0461, 0x0481, 2, 0x0460); (0x048B, 0x04BF, 2, 0x048A);
    (0x04C2, 0x04CE, 2, 0x04C1); (0x04CF, 0x04CF, 1, 0x04C0);
    (0x04D1, 0x052F, 2, 0x04D0); (0x0561, 0x0586, 1, 0x0531);
    (0x10D0, 0x10FA, 1, 0x1C90); (0x10FD, 0x10FF, 1, 0x1CBD);
    (0x13F8, 0x13FD, 1, 0x13F0); (0x1C80, 0x1C80, 1, 0x0412);
    (0x1C81, 0x1C81, 1, 0x0414); (0x1C82, 0x1C82, 1, 0x041E);
    (0x1C83, 0x1C84, 1, 0x0421); (0x1C85, 0x1C85, 1, 0x0422);
    (0x1C86, 0x1C86, 1, 0x042A); (0x1C87, 0x1C87, 1, 0x0462);
    (0x1C88, 0x1C88, 1, 0xA64A); (0x1D79, 0x1D79, 1, 0xA77D);
    (0x1D7D, 0x1D7D, 1, 0x2C63); (0x1D8E, 0x1D8E, 1, 0xA7C6);
    (0x1E01, 0x1E95, 2, 0x1E00); (0x1E9B, 0x1E9B, 1, 0x1E60);
    (0x1EA1, 0x1EFF, 2, 0x1EA0); (0x1F00, 0x1F07, 1, 0x1F08);
    (0x1F10, 0x1F15, 1, 0x1F18); (0x1F20, 0x1F27, 1, 0x1F28);
    (0x1F30, 0x1F37, 1, 0x1F38); (0x1F40, 0x1F45, 1, 0x1F48);
    (0x1F51, 0x1F57, 2, 0x1F59); (0x1F60, 0x1F67, 1, 0x1F68);
    (0x1F70, 0x1F71, 1, 0x1FBA); (0x1F72, 0x1F75, 1, 0x1FC8);
    (0x1F76, 0x1F77, 1, 0x1FDA); (0x1F78, 0x1F79, 1, 0x1FF8);
    (0x1F7A, 0x1F7B, 1, 0x1FEA); (0x1F7C, 0x1F7D, 1, 0x1FFA);
    (0x1FB0, 0x1FB1, 1, 0x1FB8); (0x1FBE, 0x1FBE, 1, 0x0399);
    (0x1FD0, 0x1FD1, 1, 0x1FD8); (0x1FE0, 0x1FE1, 1, 0x1FE8);
    (0x1FE5, 0x1FE5, 1, 0x1FEC); (0x214E, 0x214E, 1, 0x2132);
    (0x2170, 0x217F, 1, 0x2160); (0x2184, 0x2184, 1, 0x2183);
    (0x24D0, 0x24E9, 1, 0x24B6); (0x2C30, 0x2C5F, 1, 0x2C00);
    (0x2C61, 0x2C61, 1, 0x2C60); (0x2C65, 0x2C65, 1, 0x023A);
    (0x2C66, 0x2C66, 1, 0x023E); (0x2C68, 0x2C6C, 2, 0x2C67);
    (0x2C73, 0x2C73, 1, 0x2C72); (0x2C76, 0x2C76, 1, 0x2C75);
    (0x2C81, 0x2CE3, 2, 0x2C80); (0x2CEC, 0x2CEE, 2, 0x2CEB);
    (0x2CF3, 0x2CF3, 1, 0x2CF2); (0x2D00, 0x2D25, 1, 0x10A0);
    (0x2D27, 0x2D27, 1, 0x10C7); (0x2D2D, 0x2D2D, 1, 0x10CD);
    (0xA641, 0xA66D, 2, 0xA640); (0xA681, 0xA69B, 2, 0xA680);
    (0xA723, 0xA72F, 2, 0xA722); (0xA733, 0xA76F, 2, 0xA732);
    (0xA77A, 0xA77C, 2, 0xA779); (0xA77F, 0xA787, 2, 0xA77E);
    (0xA78C, 0xA78C, 1, 0xA78B); (0xA791, 0xA793, 2, 0xA790);
    (0xA794, 0xA794, 1, 0xA7C4); (0xA797, 0xA7A9, 2, 0xA796);
    (0xA7B5, 0xA7C3, 2, 0xA7B4); (0xA7C8, 0xA7CA, 2, 0xA7C7);
    (0xA7D1, 0xA7D1, 1, 0xA7D0); (0xA7D7, 0xA7D9, 2, 0xA7D6);
    (0xA7F6, 0xA7F6, 1, 0xA7F5); (0xAB53, 0xAB53, 1, 0xA7B3);
    (0xAB70, 0xABBF, 1, 0x13A0); (0xFF41, 0xFF5A, 1, 0xFF21);
    (0x10428, 0x1044F, 1, 0x10400); (0x104D8, 0x104FB, 1, 0x104B0);
    (0x10597, 0x105BB, 2, 0x10570); (0x10598, 0x105A0, 2, 0x10571);
    (0x105A4, 0x105B0, 2, 0x1057D); (0x105B4, 0x105B8, 2, 0x1058D);
    (0x105BC, 0x105BC, 1, 0x10595); (0x10CC0, 0x10CF2, 1, 0x10C80);
    (0x118C0, 0x118DF, 1, 0x118A0); (0x16E60, 0x16E7F, 1, 0x16E40);
    (0x1E922, 0x1E943, 1, 0x1E900)
  ].

(** Code points whose upper case is more than one code point. *)
Definition upper_full : list (N * list N) :=
  [
    (0x00DF, [0x0053; 0x0053]); (0x0149, [0x02BC; 0x004E]);
    (0x01F0, [0x004A; 0x030C]); (0x0390, [0x0399; 0x0308; 0x0301]);
    (0x03B0, [0x03A5; 0x0308; 0x0301]); (0x0587, [0x0535; 0x0552]);
    (0x1E96, [0x0048; 0x0331]); (0x1E97, [0x0054; 0x0308]);
    (0x1E98, [0x0057; 0x030A]); (0x1E99, [0x0059; 0x030A]);
    (0x1E9A, [0x0041; 0x02BE]); (0x1F50, [0x03A5; 0x0313]);
    (0x1F52, [0x03A5; 0x0313; 0x0300]); (0x1F54, [0x03A5; 0x0313; 0x0301]);
    (0x1F56, [0x03A5; 0x0313; 0x0342]); (0x1F80, [0x1F08; 0x0399]);
    (0x1F81, [0x1F09; 0x0399]); (0x1F82, [0x1F0A; 0x0399]);
    (0x1F83, [0x1F0B; 0x0399]); (0x1F84, [0x1F0C; 0x0399]);
    (0x1F85, [0x1F0D; 0x0399]); (0x1F86, [0x1F0E; 0x0399]);
    (0x1F87, [0x1F0F; 0x0399]); (0x1F88, [0x1F08; 0x0399]);
    (0x1F89, [0x1F09; 0x0399]); (0x1F8A, [0x1F0A; 0x0399]);
    (0x1F8B, [0x1F0B; 0x0399]); (0x1F8C, [0x1F0C; 0x0399]);
    (0x1F8D, [0x1F0D; 0x0399]); (0x1F8E, [0x1F0E; 0x0399]);
    (0x1F8F, [0x1F0F; 0x0399]); (0x1F90, [0x1F28; 0x0399]);
    (0x1F91, [0x1F29; 0x0399]); (0x1F92, [0x1F2A; 0x0399]);
    (0x1F93, [0x1F2B; 0x0399]); (0x1F94, [0x1F2C; 0x0399]);
    (0x1F95, [0x1F2D; 0x0399]); (0x1F96, [0x1F2E; 0x0399]);
    (0x1F97, [0x1F2F; 0x0399]); (0x1F98, [0x1F28; 0x0399]);
    (0x1F99, [0x1F29; 0x0399]); (0x1F9A, [0x1F2A; 0x0399]);
    (0x1F9B, [0x1F2B; 0x0399]); (0x1F9C, [0x1F2C; 0x0399]);
    (0x1F9D, [0x1F2D; 0x0399]); (0x1F9E, [0x1F2E; 0x0399]);
    (0x1F9F, [0x1F2F; 0x0399]); (0x1FA0, [0x1F68; 0x0399]);
    (0x1FA1, [0x1F69; 0x0399]); (0x1FA2, [0x1F6A; 0x0399]);
    (0x1FA3, [0x1F6B; 0x0399]); (0x1FA4, [0x1F6C; 0x0399]);
    (0x1FA5, [0x1F6D; 0x0399]); (0x1FA6, [0x1F6E; 0x0399]);
    (0x1FA7, [0x1F6F; 0x0399]); (0x1FA8, [0x1F68; 0x0399]);
    (0x1FA9, [0x1F69; 0x0399]); (0x1FAA, [0x1F6A; 0x0399]);
    (0x1FAB, [0x1F6B; 0x0399]); (0x1FAC, [0x1F6C; 0x0399]);
    (0x1FAD, [0x1F6D; 0x0399]); (0x1FAE, [0x1F6E; 0x0399]);
    (0x1FAF, [0x1F6F; 0x0399]); (0x1FB2, [0x1FBA; 0x0399]);
    (0x1FB3, [0x0391; 0x0399]); (0x1FB4, [0x0386; 0x0399]);
    (0x1FB6, [0x0391; 0x0342]); (0x1FB7, [0x0391; 0x0342; 0x0399]);
    (0x1FBC, [0x0391; 0x0399]); (0x1FC2, [0x1FCA; 0x0399]);
    (0x1FC3, [0x0397; 0x0399]); (0x1FC4, [0x0389; 0x0399]);
    (0x1FC6, [0x0397; 0x0342]); (0x1FC7, [0x0397; 0x0342; 0x0399]);
    (0x1FCC, [0x0397; 0x0399]); (0x1FD2, [0x0399; 0x0308; 0x0300]);
    (0x1FD3, [0x0399; 0x0308; 0x0301]); (0x1FD6, [0x0399; 0x0342]);
    (0x1FD7, [0x0399; 0x0308; 0x0342]); (0x1FE2, [0x03A5; 0x0308; 0x0300]);
    (0x1FE3, [0x03A5; 0x0308; 0x0301]); (0x1FE4, [0x03A1; 0x0313]);
    (0x1FE6, [0x03A5; 0x0342]); (0x1FE7, [0x03A5; 0x0308; 0x0342]);
    (0x1FF2, [0x1FFA; 0x0399]); (0x1FF3, [0x03A9; 0x0399]);
    (0x1FF4, [0x038F; 0x0399]); (0x1FF6, [0x03A9; 0x0342]);
    (0x1FF7, [0x03A9; 0x0342; 0x0399]); (0x1FFC, [0x03A9; 0x0399]);
    (0xFB00, [0x0046; 0x0046]); (0xFB01, [0x0046; 0x0049]);
    (0xFB02, [0x0046; 0x004C]); (0xFB03, [0x0046; 0x0046; 0x0049]);
    (0xFB04, [0x0046; 0x0046; 0x004C]); (0xFB05, [0x0053; 0x0054]);
    (0xFB06, [0x0053; 0x0054]); (0xFB13, [0x0544; 0x0546]);
    (0xFB14, [0x0544; 0x0535]); (0xFB15, [0x0544; 0x053B]);
    (0xFB16, [0x054E; 0x0546]); (0xFB17, [0x0544; 0x053D])
  ].

(** Code points with a one-to-one lower case. *)
Definition lower_runs : list run :=
  [
    (0x0041, 0x005A, 1, 0x0061); (0x00C0, 0x00D6, 1, 0x00E0);
    (0x00D8, 0x00DE, 1, 0x00F8); (0x0100, 0x012E, 2, 0x0101);
    (0x0132, 0x0136, 2, 0x0133); (0x0139, 0x0147, 2, 0x013A);
    (0x014A, 0x0176, 2, 0x014B); (0x0178, 0x0178, 1, 0x00FF);
    (0x0179, 0x017D, 2, 0x017A); (0x0181, 0x0181, 1, 0x0253);
    (0x0182, 0x0184, 2, 0x0183); (0x0186, 0x0186, 1, 0x0254);
    (0x0187, 0x0187, 1, 0x0188); (0x0189, 0x018A, 1, 0x0256);
    (0x018B, 0x018B, 1, 0x018C); (0x018E, 0x018E, 1, 0x01DD);
    (0x018F, 0x018F, 1, 0x0259); (0x0190, 0x0190, 1, 0x025B);
    (0x0191, 0x0191, 1, 0x0192); (0x0193, 0x0193, 1, 0x0260);
    (0x0194, 0x0194, 1, 0x0263); (0x0196, 0x0196, 1, 0x0269);
    (0x0197, 0x0197, 1, 0x0268); (0x0198, 0x0198, 1, 0x0199);
    (0x019C, 0x019C, 1, 0x026F); (0x019D, 0x019D, 1, 0x0272);
    (0x019F, 0x019F, 1, 0x0275); (0x01A0, 0x01A4, 2, 0x01A1);
    (0x01A6, 0x01A6, 1, 0x0280); (0x01A7, 0x01A7, 1, 0x01A8);
    (0x01A9, 0x01A9, 1, 0x0283); (0x01AC, 0x01AC, 1, 0x01AD);
    (0x01AE, 0x01AE, 1, 0x0288); (0x01AF, 0x01AF, 1, 0x01B0);
    (0x01B1, 0x01B2, 1, 0x028A); (0x01B3, 0x01B5, 2, 0x01B4);
    (0x01B7, 0x01B7, 1, 0x0292); (0x01B8, 0x01B8, 1, 0x01B9);
    (0x01BC, 0x01BC, 1, 0x01BD); (0x01C4, 0x01C4, 1, 0x01C6);
    (0x01C5, 0x01C5, 1, 0x01C6); (0x01C7, 0x01C7, 1, 0x01C9);
    (0x01C8, 0x01C8, 1, 0x01C9); (0x01CA, 0x01CA, 1, 0x01CC);
    (0x01CB, 0x01DB, 2, 0x01CC); (0x01DE, 0x01EE, 2, 0x01DF);
    (0x01F1, 0x01F1, 1, 0x01F3); (0x01F2, 0x01F4, 2, 0x01F3);
    (0x01F6, 0x01F6, 1, 0x0195); (0x01F7, 0x01F7, 1, 0x01BF);
    (0x01F8, 0x021E, 2, 0x01F9); (0x0220, 0x0220, 1, 0x019E);
    (0x0222, 0x0232, 2, 0x0223); (0x023A, 0x023A, 1, 0x2C65);
    (0x023B, 0x023B, 1, 0x023C); (0x023D, 0x023D, 1, 0x019A);
    (0x023E, 0x023E, 1, 0x2C66); (0x0241, 0x0241, 1, 0x0242);
    (0x0243, 0x0243, 1, 0x0180); (0x0244, 0x0244, 1, 0x0289);
    (0x0245, 0x0245, 1, 0x028C); (0x0246, 0x024E, 2, 0x0247);
    (0x0370, 0x0372, 2, 0x0371); (0x0376, 0x0376, 1, 0x0377);
    (0x037F, 0x037F, 1, 0x03F3); (0x0386, 0x0386, 1, 0x03AC);
    (0x0388, 0x038A, 1, 0x03AD); (0x038C, 0x038C, 1, 0x03CC);
    (0x038E, 0x038F, 1, 0x03CD); (0x0391, 0x03A1, 1, 0x03B1);
    (0x03A3, 0x03AB, 1, 0x03C3); (0x03CF, 0x03CF, 1, 0x03D7);
    (0x03D8, 0x03EE, 2, 0x03D9); (0x03F4, 0x03F4, 1, 0x03B8);
    (0x03F7, 0x03F7, 1, 0x03F8); (0x03F9, 0x03F9, 1, 0x03F2);
    (0x03FA, 0x03FA, 1, 0x03FB); (0x03FD, 0x03FF, 1, 0x037B);
    (0x0400, 0x040F, 1, 0x0450); (0x0410, 0x042F, 1, 0x0430);
    (0x0460, 0x0480, 2, 0x0461); (0x048A, 0x04BE, 2, 0x048B);
    (0x04C0, 0x04C0, 1, 0x04CF); (0x04C1, 0x04CD, 2, 0x04C2);
    (0x04D0, 0x052E, 2, 0x04D1); (0x0531, 0x0556, 1, 0x0561);
    (0x10A0, 0x10C5, 1, 0x2D00); (0x10C7, 0x10C7, 1, 0x2D27);
    (0x10CD, 0x10CD, 1, 0x2D2D); (0x13A0, 0x13EF, 1, 0xAB70);
    (0x13F0, 0x13F5, 1, 0x13F8); (0x1C90, 0x1CBA, 1, 0x10D0);
    (0x1CBD, 0x1CBF, 1, 0x10FD); (0x1E00, 0x1E94, 2, 0x1E01);
    (0x1E9E, 0x1E9E, 1, 0x00DF); (0x1EA0, 0x1EFE, 2, 0x1EA1);
    (0x1F08, 0x1F0F, 1, 0x1F00); (0x1F18, 0x1F1D, 1, 0x1F10);
    (0x1F28, 0x1F2F, 1, 0x1F20); (0x1F38, 0x1F3F, 1, 0x1F30);
    (0x1F48, 0x1F4D, 1, 0x1F40); (0x1F59, 0x1F5F, 2, 0x1F51);
    (0x1F68, 0x1F6F, 1, 0x1F60); (0x1F88, 0x1F8F, 1, 0x1F80);
    (0x1F98, 0x1F9F, 1, 0x1F90); (0x1FA8, 0x1FAF, 1, 0x1FA0);
    (0x1FB8, 0x1FB9, 1, 0x1FB0); (0x1FBA, 0x1FBB, 1, 0x1F70);
    (0x1FBC, 0x1FBC, 1, 0x1FB3); (0x1FC8, 0x1FCB, 1, 0x1F72);
    (0x1FCC, 0x1FCC, 1, 0x1FC3); (0x1FD8, 0x1FD9, 1, 0x1FD0);
    (0x1FDA, 0x1FDB, 1, 0x1F76); (0x1FE8, 0x1FE9, 1, 0x1FE0);
    (0x1FEA, 0x1FEB, 1, 0x1F7A); (0x1FEC, 0x1FEC, 1, 0x1FE5);
    (0x1FF8, 0x1FF9, 1, 0x1F78); (0x1FFA, 0x1FFB, 1, 0x1F7C);
    (0x1FFC, 0x1FFC, 1, 0x1FF3); (0x2126, 0x2126, 1, 0x03C9);
    (0x212A, 0x212A, 1, 0x006B); (0x212B, 0x212B, 1, 0x00E5);
    (0x2132, 0x2132, 1, 0x214E); (0x2160, 0x216F, 1, 0x2170);
    (0x2183, 0x2183, 1, 0x2184); (0x24B6, 0x24CF, 1, 0x24D0);
    (0x2C00, 0x2C2F, 1, 0x2C30); (0x2C60, 0x2C60, 1, 0x2C61);
    (0x2C62, 0x2C62, 1, 0x026B); (0x2C63, 0x2C63, 1, 0x1D7D);
    (0x2C64, 0x2C64, 1, 0x027D); (0x2C67, 0x2C6B, 2, 0x2C68);
    (0x2C6D, 0x2C6D, 1, 0x0251); (0x2C6E, 0x2C6E, 1, 0x0271);
    (0x2C6F, 0x2C6F, 1, 0x0250); (0x2C70, 0x2C70, 1, 0x0252);
    (0x2C72, 0x2C72, 1, 0x2C73); (0x2C75, 0x2C75, 1, 0x2C76);
    (0x2C7E, 0x2C7F, 1, 0x023F); (0x2C80, 0x2CE2, 2, 0x2C81);
    (0x2CEB, 0x2CED, 2, 0x2CEC); (0x2CF2, 0x2CF2, 1, 0x2CF3);
    (0xA640, 0xA66C, 2, 0xA641); (0xA680, 0xA69A, 2, 0xA681);
    (0xA722, 0xA72E, 2, 0xA723); (0xA732, 0xA76E, 2, 0xA733);
    (0xA779, 0xA77B, 2, 0xA77A); (0xA77D, 0xA77D, 1, 0x1D79);
    (0xA77E, 0xA786, 2, 0xA77F); (0xA78B, 0xA78B, 1, 0xA78C);
    (0xA78D, 0xA78D, 1, 0x0265); (0xA790, 0xA792, 2, 0xA791);
    (0xA796, 0xA7A8, 2, 0xA797); (0xA7AA, 0xA7AA, 1, 0x0266);
    (0xA7AB, 0xA7AB, 1, 0x025C); (0xA7AC, 0xA7AC, 1, 0x0261);
    (0xA7AD, 0xA7AD, 1, 0x026C); (0xA7AE, 0xA7AE, 1, 0x026A);
    (0xA7B0, 0xA7B0, 1, 0x029E); (0xA7B1, 0xA7B1, 1, 0x0287);
    (0xA7B2, 0xA7B2, 1, 0x029D); (0xA7B3, 0xA7B3, 1, 0xAB53);
    (0xA7B4, 0xA7C2, 2, 0xA7B5); (0xA7C4, 0xA7C4, 1, 0xA794);
    (0xA7C5, 0xA7C5, 1, 0x0282); (0xA7C6, 0xA7C6, 1, 0x1D8E);
    (0xA7C7, 0xA7C9, 2, 0xA7C8); (0xA7D0, 0xA7D0, 1, 0xA7D1);
    (0xA7D6, 0xA7D8, 2, 0xA7D7); (0xA7F5, 0xA7F5, 1, 0xA7F6);
    (0xFF21, 0xFF3A, 1, 0xFF41); (0x10400, 0x10427, 1, 0x10428);
    (0x104B0, 0x104D3, 1, 0x104D8); (0x10570, 0x10594, 2, 0x10597);
    (0x10571, 0x10579, 2, 0x10598); (0x1057D, 0x10589, 2, 0x105A4);
    (0x1058D, 0x10591, 2, 0x105B4); (0x10595, 0x10595, 1, 0x105BC);
    (0x10C80, 0x10CB2, 1, 0x10CC0); (0x118A0, 0x118BF, 1, 0x118C0);
    (0x16E40, 0x16E5F, 1, 0x16E60); (0x1E900, 0x1E921, 1, 0x1E922)
  ].

(** The one code point whose lower case is more than one code point. *)
Definition lower_full : list (N * list N) :=
  [
    (0x0130, [0x0069; 0x0307])
  ].

(** The property Cased. *)
Definition cased_ranges : list (N * N) :=
  [
    (0x0041, 0x005A); (0x0061, 0x007A); (0x00AA, 0x00AA); (0x00B5, 0x00B5);
    (0x00BA, 0x00BA); (0x00C0, 0x00D6); (0x00D8, 0x00F6); (0x00F8, 0x01BA);
    (0x01BC, 0x01BF); (0x01C4, 0x0293); (0x0295, 0x02B8); (0x02C0, 0x02C1);
    (0x02E0, 0x02E4); (0x0345, 0x0345); (0x0370, 0x0373); (0x0376, 0x0377);
    (0x037A, 0x037D); (0x037F, 0x037F); (0x0386, 0x0386); (0x0388, 0x038A);
    (0x038C, 0x038C); (0x038E, 0x03A1); (0x03A3, 0x03F5); (0x03F7, 0x0481);
    (0x048A, 0x052F); (0x0531, 0x0556); (0x0560, 0x0588); (0x10A0, 0x10C5);
    (0x10C7, 0x10C7); (0x10CD, 0x10CD); (0x10D0, 0x10FA); (0x10FD, 0x10FF);
    (0x13A0, 0x13F5); (0x13F8, 0x13FD); (0x1C80, 0x1C88); (0x1C90, 0x1CBA);
    (0x1CBD, 0x1CBF); (0x1D00, 0x1DBF); (0x1E00, 0x1F15); (0x1F18, 0x1F1D);
    (0x1F20, 0x1F45); (0x1F48, 0x1F4D); (0x1F50, 0x1F57); (0x1F59, 0x1F59);
    (0x1F5B, 0x1F5B); (0x1F5D, 0x1F5D); (0x1F5F, 0x1F7D); (0x1F80, 0x1FB4);
    (0x1FB6, 0x1FBC); (0x1FBE, 0x1FBE); (0x1FC2, 0x1FC4); (0x1FC6, 0x1FCC);
    (0x1FD0, 0x1FD3); (0x1FD6, 0x1FDB); (0x1FE0, 0x1FEC); (0x1FF2, 0x1FF4);
    (0x1FF6, 0x1FFC); (0x2071, 0x2071); (0x207F, 0x207F); (0x2090, 0x209C);
    (0x2102, 0x2102); (0x2107, 0x2107); (0x210A, 0x2113); (0x2115, 0x2115);
    (0x2119, 0x211D); (0x2124, 0x2124); (0x2126, 0x2126); (0x2128, 0x2128);
    (0x212A, 0x212D); (0x212F, 0x2134); (0x2139, 0x2139); (0x213C, 0x213F);
    (0x2145, 0x2149); (0x214E, 0x214E); (0x2160, 0x217F); (0x2183, 0x2184);
    (0x24B6, 0x24E9); (0x2C00, 0x2CE4); (0x2CEB, 0x2CEE); (0x2CF2, 0x2CF3);
    (0x2D00, 0x2D25); (0x2D27, 0x2D27); (0x2D2D, 0x2D2D); (0xA640, 0xA66D);
    (0xA680, 0xA69D); (0xA722, 0xA787); (0xA78B, 0xA78E); (0xA790, 0xA7CA);
    (0xA7D0, 0xA7D1); (0xA7D3, 0xA7D3); (0xA7D5, 0xA7D9); (0xA7F5, 0xA7F6);
    (0xA7F8, 0xA7FA); (0xAB30, 0xAB5A); (0xAB5C, 0xAB68); (0xAB70, 0xABBF);
    (0xFB00, 0xFB06); (0xFB13, 0xFB17); (0xFF21, 0xFF3A); (0xFF41, 0xFF5A);
    (0x10400, 0x1044F); (0x104B0, 0x104D3); (0x104D8, 0x104FB);
    (0x10570, 0x1057A); (0x1057C, 0x1058A); (0x1058C, 0x10592);
    (0x10594, 0x10595); (0x10597, 0x105A1); (0x105A3, 0x105B1);
    (0x105B3, 0x105B9); (0x105BB, 0x105BC); (0x10780, 0x10780);
    (0x10783, 0x10785); (0x10787, 0x107B0); (0x107B2, 0x107BA);
    (0x10C80, 0x10CB2); (0x10CC0, 0x10CF2); (0x118A0, 0x118DF);
    (0x16E40, 0x16E7F); (0x1D400, 0x1D454); (0x1D456, 0x1D49C);
    (0x1D49E, 0x1D49F); (0x1D4A2, 0x1D4A2); (0x1D4A5, 0x1D4A6);
    (0x1D4A9, 0x1D4AC); (0x1D4AE, 0x1D4B9); (0x1D4BB, 0x1D4BB);
    (0x1D4BD, 0x1D4C3); (0x1D4C5, 0x1D505); (0x1D507, 0x1D50A);
    (0x1D50D, 0x1D514); (0x1D516, 0x1D51C); (0x1D51E, 0x1D539);
    (0x1D53B, 0x1D53E); (0x1D540, 0x1D544); (0x1D546, 0x1D546);
    (0x1D54A, 0x1D550); (0x1D552, 0x1D6A5); (0x1D6A8, 0x1D6C0);
    (0x1D6C2, 0x1D6DA); (0x1D6DC, 0x1D6FA); (0x1D6FC, 0x1D714);
    (0x1D716, 0x1D734); (0x1D736, 0x1D74E); (0x1D750, 0x1D76E);
    (0x1D770, 0x1D788); (0x1D78A, 0x1D7A8); (0x1D7AA, 0x1D7C2);
    (0x1D7C4, 0x1D7CB); (0x1DF00, 0x1DF09); (0x1DF0B, 0x1DF1E);
    (0x1E900, 0x1E943); (0x1F130, 0x1F149); (0x1F150, 0x1F169);
    (0x1F170, 0x1F189)
  ].

(** The property Case_Ignorable. *)
Definition case_ignorable_ranges : list (N * N) :=
  [
    (0x0027, 0x0027); (0x002E, 0x002E); (0x003A, 0x003A); (0x005E, 0x005E);
    (0x0060, 0x0060); (0x00A8, 0x00A8); (0x00AD, 0x00AD); (0x00AF, 0x00AF);
    (0x00B4, 0x00B4); (0x00B7, 0x00B8); (0x02B0, 0x036F); (0x0374, 0x0375);
    (0x037A, 0x037A); (0x0384, 0x0385); (0x0387, 0x0387); (0x0483, 0x0489);
    (0x0559, 0x0559); (0x055F, 0x055F); (0x0591, 0x05BD); (0x05BF, 0x05BF);
    (0x05C1, 0x05C2); (0x05C4, 0x05C5); (0x05C7, 0x05C7); (0x05F4, 0x05F4);
    (0x0600, 0x0605); (0x0610, 0x061A); (0x061C, 0x061C); (0x0640, 0x0640);
    (0x064B, 0x065F); (0x0670, 0x0670); (0x06D6, 0x06DD); (0x06DF, 0x06E8);
    (0x06EA, 0x06ED); (0x070F, 0x070F); (0x0711, 0x0711); (0x0730, 0x074A);
    (0x07A6, 0x07B0); (0x07EB, 0x07F5); (0x07FA, 0x07FA); (0x07FD, 0x07FD);
    (0x0816, 0x082D); (0x0859, 0x085B); (0x0888, 0x0888); (0x0890, 0x0891);
    (0x0898, 0x089F); (0x08C9, 0x0902); (0x093A, 0x093A); (0x093C, 0x093C);
    (0x0941, 0x0948); (0x094D, 0x094D); (0x0951, 0x0957); (0x0962, 0x0963);
    (0x0971, 0x0971); (0x0981, 0x0981); (0x09BC, 0x09BC); (0x09C1, 0x09C4);
    (0x09CD, 0x09CD); (0x09E2, 0x09E3); (0x09FE, 0x09FE); (0x0A01, 0x0A02);
    (0x0A3C, 0x0A3C); (0x0A41, 0x0A42); (0x0A47, 0x0A48); (0x0A4B, 0x0A4D);
    (0x0A51, 0x0A51); (0x0A70, 0x0A71); (0x0A75, 0x0A75); (0x0A81, 0x0A82);
    (0x0ABC, 0x0ABC); (0x0AC1, 0x0AC5); (0x0AC7, 0x0AC8); (0x0ACD, 0x0ACD);
    (0x0AE2, 0x0AE3); (0x0AFA, 0x0AFF); (0x0B01, 0x0B01); (0x0B3C, 0x0B3C);
    (0x0B3F, 0x0B3F); (0x0B41, 0x0B44); (0x0B4D, 0x0B4D); (0x0B55, 0x0B56);
    (0x0B62, 0x0B63); (0x0B82, 0x0B82); (0x0BC0, 0x0BC0); (0x0BCD, 0x0BCD);
    (0x0C00, 0x0C00); (0x0C04, 0x0C04); (0x0C3C, 0x0C3C); (0x0C3E, 0x0C40);
    (0x0C46, 0x0C48); (0x0C4A, 0x0C4D); (0x0C55, 0x0C56); (0x0C62, 0x0C63);
    (0x0C81, 0x0C81); (0x0CBC, 0x0CBC); (0x0CBF, 0x0CBF); (0x0CC6, 0x0CC6);
    (0x0CCC, 0x0CCD); (0x0CE2, 0x0CE3); (0x0D00, 0x0D01); (0x0D3B, 0x0D3C);
    (0x0D41, 0x0D44); (0x0D4D, 0x0D4D); (0x0D62, 0x0D63); (0x0D81, 0x0D81);
    (0x0DCA, 0x0DCA); (0x0DD2, 0x0DD4); (0x0DD6, 0x0DD6); (0x0E31, 0x0E31);
    (0x0E34, 0x0E3A); (0x0E46, 0x0E4E); (0x0EB1, 0x0EB1); (0x0EB4, 0x0EBC);
    (0x0EC6, 0x0EC6); (0x0EC8, 0x0ECD); (0x0F18, 0x0F19); (0x0F35, 0x0F35);
    (0x0F37, 0x0F37); (0x0F39, 0x0F39); (0x0F71, 0x0F7E); (0x0F80, 0x0F84);
    (0x0F86, 0x0F87); (0x0F8D, 0x0F97); (0x0F99, 0x0FBC); (0x0FC6, 0x0FC6);
    (0x102D, 0x1030); (0x1032, 0x1037); (0x1039, 0x103A); (0x103D, 0x103E);
    (0x1058, 0x1059); (0x105E, 0x1060); (0x1071, 0x1074); (0x1082, 0x1082);
    (0x1085, 0x1086); (0x108D, 0x108D); (0x109D, 0x109D); (0x10FC, 0x10FC);
    (0x135D, 0x135F); (0x1712, 0x1714); (0x1732, 0x1733); (0x1752, 0x1753);
    (0x1772, 0x1773); (0x17B4, 0x17B5); (0x17B7, 0x17BD); (0x17C6, 0x17C6);
    (0x17C9, 0x17D3); (0x17D7, 0x17D7); (0x17DD, 0x17DD); (0x180B, 0x180F);
    (0x1843, 0x1843); (0x1885, 0x1886); (0x18A9, 0x18A9); (0x1920, 0x1922);
    (0x1927, 0x1928); (0x1932, 0x1932); (0x1939, 0x193B); (0x1A17, 0x1A18);
    (0x1A1B, 0x1A1B); (0x1A56, 0x1A56); (0x1A58, 0x1A5E); (0x1A60, 0x1A60);
    (0x1A62, 0x1A62); (0x1A65, 0x1A6C); (0x1A73, 0x1A7C); (0x1A7F, 0x1A7F);
    (0x1AA7, 0x1AA7); (0x1AB0, 0x1ACE); (0x1B00, 0x1B03); (0x1B34, 0x1B34);
    (0x1B36, 0x1B3A); (0x1B3C, 0x1B3C); (0x1B42, 0x1B42); (0x1B6B, 0x1B73);
    (0x1B80, 0x1B81); (0x1BA2, 0x1BA5); (0x1BA8, 0x1BA9); (0x1BAB, 0x1BAD);
    (0x1BE6, 0x1BE6); (0x1BE8, 0x1BE9); (0x1BED, 0x1BED); (0x1BEF, 0x1BF1);
    (0x1C2C, 0x1C33); (0x1C36, 0x1C37); (0x1C78, 0x1C7D); (0x1CD0, 0x1CD2);
    (0x1CD4, 0x1CE0); (0x1CE2, 0x1CE8); (0x1CED, 0x1CED); (0x1CF4, 0x1CF4);
    (0x1CF8, 0x1CF9); (0x1D2C, 0x1D6A); (0x1D78, 0x1D78); (0x1D9B, 0x1DFF);
    (0x1FBD, 0x1FBD); (0x1FBF, 0x1FC1); (0x1FCD, 0x1FCF); (0x1FDD, 0x1FDF);
    (0x1FED, 0x1FEF); (0x1FFD, 0x1FFE); (0x200B, 0x200F); (0x2018, 0x2019);
    (0x2024, 0x2024); (0x2027, 0x2027); (0x202A, 0x202E); (0x2060, 0x2064);
    (0x2066, 0x206F); (0x2071, 0x2071); (0x207F, 0x207F); (0x2090, 0x209C);
    (0x20D0, 0x20F0); (0x2C7C, 0x2C7D); (0x2CEF, 0x2CF1); (0x2D6F, 0x2D6F);
    (0x2D7F, 0x2D7F); (0x2DE0, 0x2DFF); (0x2E2F, 0x2E2F); (0x3005, 0x3005);
    (0x302A, 0x302D); (0x3031, 0x3035); (0x303B, 0x303B); (0x3099, 0x309E);
    (0x30FC, 0x30FE); (0xA015, 0xA015); (0xA4F8, 0xA4FD); (0xA60C, 0xA60C);
    (0xA66F, 0xA672); (0xA674, 0xA67D); (0xA67F, 0xA67F); (0xA69C, 0xA69F);
    (0xA6F0, 0xA6F1); (0xA700, 0xA721); (0xA770, 0xA770); (0xA788, 0xA78A);
    (0xA7F2, 0xA7F4); (0xA7F8, 0xA7F9); (0xA802, 0xA802); (0xA806, 0xA806);
    (0xA80B, 0xA80B); (0xA825, 0xA826); (0xA82C, 0xA82C); (0xA8C4, 0xA8C5);
    (0xA8E0, 0xA8F1); (0xA8FF, 0xA8FF); (0xA926, 0xA92D); (0xA947, 0xA951);
    (0xA980, 0xA982); (0xA9B3, 0xA9B3); (0xA9B6, 0xA9B9); (0xA9BC, 0xA9BD);
    (0xA9CF, 0xA9CF); (0xA9E5, 0xA9E6); (0xAA29, 0xAA2E); (0xAA31, 0xAA32);
    (0xAA35, 0xAA36); (0xAA43, 0xAA43); (0xAA4C, 0xAA4C); (0xAA70, 0xAA70);
    (0xAA7C, 0xAA7C); (0xAAB0, 0xAAB0); (0xAAB2, 0xAAB4); (0xAAB7, 0xAAB8);
    (0xAABE, 0xAABF); (0xAAC1, 0xAAC1); (0xAADD, 0xAADD); (0xAAEC, 0xAAED);
    (0xAAF3, 0xAAF4); (0xAAF6, 0xAAF6); (0xAB5B, 0xAB5F); (0xAB69, 0xAB6B);
    (0xABE5, 0xABE5); (0xABE8, 0xABE8); (0xABED, 0xABED); (0xFB1E, 0xFB1E);
    (0xFBB2, 0xFBC2); (0xFE00, 0xFE0F); (0xFE13, 0xFE13); (0xFE20, 0xFE2F);
    (0xFE52, 0xFE52); (0xFE55, 0xFE55); (0xFEFF, 0xFEFF); (0xFF07, 0xFF07);
    (0xFF0E, 0xFF0E); (0xFF1A, 0xFF1A); (0xFF3E, 0xFF3E); (0xFF40, 0xFF40);
    (0xFF70, 0xFF70); (0xFF9E, 0xFF9F); (0xFFE3, 0xFFE3); (0xFFF9, 0xFFFB);
    (0x101FD, 0x101FD); (0x102E0, 0x102E0); (0x10376, 0x1037A);
    (0x10780, 0x10785); (0x10787, 0x107B0); (0x107B2, 0x107BA);
    (0x10A01, 0x10A03); (0x10A05, 0x10A06); (0x10A0C, 0x10A0F);
    (0x10A38, 0x10A3A); (0x10A3F, 0x10A3F); (0x10AE5, 0x10AE6);
    (0x10D24, 0x10D27); (0x10EAB, 0x10EAC); (0x10F46, 0x10F50);
    (0x10F82, 0x10F85); (0x11001, 0x11001); (0x11038, 0x11046);
    (0x11070, 0x11070); (0x11073, 0x11074); (0x1107F, 0x11081);
    (0x110B3, 0x110B6); (0x110B9, 0x110BA); (0x110BD, 0x110BD);
    (0x110C2, 0x110C2); (0x110CD, 0x110CD); (0x11100, 0x11102);
    (0x11127, 0x1112B); (0x1112D, 0x11134); (0x11173, 0x11173);
    (0x11180, 0x11181); (0x111B6, 0x111BE); (0x111C9, 0x111CC);
    (0x111CF, 0x111CF); (0x1122F, 0x11231); (0x11234, 0x11234);
    (0x11236, 0x11237); (0x1123E, 0x1123E); (0x112DF, 0x112DF);
    (0x112E3, 0x112EA); (0x11300, 0x11301); (0x1133B, 0x1133C);
    (0x11340, 0x11340); (0x11366, 0x1136C); (0x11370, 0x11374);
    (0x11438, 0x1143F); (0x11442, 0x11444); (0x11446, 0x11446);
    (0x1145E, 0x1145E); (0x114B3, 0x114B8); (0x114BA, 0x114BA);
    (0x114BF, 0x114C0); (0x114C2, 0x114C3); (0x115B2, 0x115B5);
    (0x115BC, 0x115BD); (0x115BF, 0x115C0); (0x115DC, 0x115DD);
    (0x11633, 0x1163A); (0x1163D, 0x1163D); (0x1163F, 0x11640);
    (0x116AB, 0x116AB); (0x116AD, 0x116AD); (0x116B0, 0x116B5);
    (0x116B7, 0x116B7); (0x1171D, 0x1171F); (0x11722, 0x11725);
    (0x11727, 0x1172B); (0x1182F, 0x11837); (0x11839, 0x1183A);
    (0x1193B, 0x1193C); (0x1193E, 0x1193E); (0x11943, 0x11943);
    (0x119D4, 0x119D7); (0x119DA, 0x119DB); (0x119E0, 0x119E0);
    (0x11A01, 0x11A0A); (0x11A33, 0x11A38); (0x11A3B, 0x11A3E);
    (0x11A47, 0x11A47); (0x11A51, 0x11A56); (0x11A59, 0x11A5B);
    (0x11A8A, 0x11A96); (0x11A98, 0x11A99); (0x11C30, 0x11C36);
    (0x11C38, 0x11C3D); (0x11C3F, 0x11C3F); (0x11C92, 0x11CA7);
    (0x11CAA, 0x11CB0); (0x11CB2, 0x11CB3); (0x11CB5, 0x11CB6);
    (0x11D31, 0x11D36); (0x11D3A, 0x11D3A); (0x11D3C, 0x11D3D);
    (0x11D3F, 0x11D45); (0x11D47, 0x11D47); (0x11D90, 0x11D91);
    (0x11D95, 0x11D95); (0x11D97, 0x11D97); (0x11EF3, 0x11EF4);
    (0x13430, 0x13438); (0x16AF0, 0x16AF4); (0x16B30, 0x16B36);
    (0x16B40, 0x16B43); (0x16F4F, 0x16F4F); (0x16F8F, 0x16F9F);
    (0x16FE0, 0x16FE1); (0x16FE3, 0x16FE4); (0x1AFF0, 0x1AFF3);
    (0x1AFF5, 0x1AFFB); (0x1AFFD, 0x1AFFE); (0x1BC9D, 0x1BC9E);
    (0x1BCA0, 0x1BCA3); (0x1CF00, 0x1CF2D); (0x1CF30, 0x1CF46);
    (0x1D167, 0x1D169); (0x1D173, 0x1D182); (0x1D185, 0x1D18B);
    (0x1D1AA, 0x1D1AD); (0x1D242, 0x1D244); (0x1DA00, 0x1DA36);
    (0x1DA3B, 0x1DA6C); (0x1DA75, 0x1DA75); (0x1DA84, 0x1DA84);
    (0x1DA9B, 0x1DA9F); (0x1DAA1, 0x1DAAF); (0x1E000, 0x1E006);
    (0x1E008, 0x1E018); (0x1E01B, 0x1E021); (0x1E023, 0x1E024);
    (0x1E026, 0x1E02A); (0x1E130, 0x1E13D); (0x1E2AE, 0x1E2AE);
    (0x1E2EC, 0x1E2EF); (0x1E8D0, 0x1E8D6); (0x1E944, 0x1E94B);
    (0x1F3FB, 0x1F3FF); (0xE0001, 0xE0001); (0xE0020, 0xE007F);
    (0xE0100, 0xE01EF)
  ].

Definition case_of (full : list (N * list N)) (runs : list run) (c : N)
  : list N :=
  match full_lookup full c with
  | Some image => image
  | None =>
    match run_lookup runs c with
    | Some image => [image]
    | None => [c]
    end
  end.

Definition upper_point (c : N) : list N := case_of upper_full upper_runs c.
Definition lower_point (c : N) : list N := case_of lower_full lower_runs c.

Definition cased (c : N) : bool := in_ranges cased_ranges c.
Definition case_ignorable (c : N) : bool := in_ranges case_ignorable_ranges c.

(** ** [toUpperCase] and [toLowerCase] *)

Definition toUpperCase (s : jsstring) : jsstring :=
  of_code_points (flat_map upper_point (code_points s)).

(** The one context rule of the language-neutral lower-casing: a capital
    sigma that ends a word becomes the final sigma.  The sigma ends a
    word when, case-ignorable code points skipped, a cased letter comes
    before it and none comes after it. *)
Fixpoint before_cased (cs : list N) : bool :=
  match cs with
  | [] => false
  | c :: cs' => if case_ignorable c then before_cased cs' else cased c
  end.

(** [after] records whether the code points already read end in a cased
    letter followed by case-ignorable code points only. *)
Fixpoint lower_from (after : bool) (cs : list N) : list N :=
  match cs with
  | [] => []
  | c :: cs' =>
    (if (c =? 0x03A3) && after && negb (before_cased cs') then [0x03C2]
     else lower_point c)
      ++ lower_from (if case_ignorable c then after else cased c) cs'
  end.

Definition toLowerCase (s : jsstring) : jsstring :=
  of_code_points (lower_from false (code_points s)).

(* ================================================================== *)
(** * The carrier registry and the detector *)
(* ================================================================== *)

(** The patterns of the registry are anchored sequences of counted
    character classes: [/^SP\d{8,10}$/] is [S][P][\d{8,10}]. *)
Inductive cls : Type :=
| Ch (c : N)      (* a literal unit *)
| Digit           (* \d, which is [0-9] in JavaScript *)
| AZ.             (* [A-Z] *)

Record atom : Type := Atom { a_cls : cls; a_min : nat; a_max : nat }.

Definition regex := list atom.

Definition in_cls (k : cls) (u : N) : bool :=
  match k with
  | Ch c => u =? c
  | Digit => (48 <=? u) && (u <=? 57)
  | AZ => (65 <=? u) && (u <=? 90)
  end.

(** [pattern.test(s)] for [/^...$/] without flags: the whole of [s] is
    cut into one run per atom, of a length within the atom's bounds. *)
Fixpoint test (r : regex) (s : jsstring) : bool :=
  match r with
  | [] => match s with [] => true | _ :: _ => false end
  | a :: r' =>
    existsb
      (fun n => (n <=? length s)%nat
                && forallb (in_cls (a_cls a)) (firstn n s)
                && test r' (skipn n s))
      (seq (a_min a) (S (a_max a) - a_min a))
  end.

Definition chr (a : ascii) : atom := Atom (Ch (N_of_ascii a)) 1 1.
Definition digits (lo hi : nat) : atom := Atom Digit lo hi.
Definition letters (n : nat) : atom := Atom AZ n n.

Record Courier : Type := mkCourier {
  name : jsstring;
  apiUrl : jsstring;
  patterns : list regex;
  color : jsstring
}.

Definition elta : Courier :=
  mkCourier (lit "ELTA Courier") (lit "https://www.elta-courier.gr/track.php")
    [ [chr "S"; chr "E"; digits 9 9; chr "G"; chr "R"];
      [chr "E"; chr "L"; digits 9 9; chr "G"; chr "R"];
      [letters 2; digits 9 9; chr "G"; chr "R"] ]
    (lit "#1e40af").

Definition acs : Courier :=
  mkCourier (lit "ACS Courier")
    (lit "https://api.acscourier.net/api/parcels/search")
    [ [digits 10 10] ]
    (lit "#dc2626").

Definition speedex : Courier :=
  mkCourier (lit "SpeedEx")
    (lit "http://www.speedex.gr/speedex/NewTrackAndTrace.aspx")
    [ [chr "S"; chr "P"; digits 8 10];
      [digits 12 12];
      [digits 9 9; letters 2] ]
    (lit "#f59e0b").

Definition box_now : Courier :=
  mkCourier (lit "Box Now")
    (lit "https://api-production.boxnow.gr/api/v1/parcels:track")
    [ [chr "B"; chr "N"; digits 8 10] ]
    (lit "#10b981").

Definition courier_center : Courier :=
  mkCourier (lit "Courier Center") (lit "https://courier.gr/track/result")
    [ [chr "C"; chr "C"; digits 8 10] ]
    (lit "#8b5cf6").

Definition geniki : Courier :=
  mkCourier (lit "Geniki Taxydromiki") (lit "https://www.taxydromiki.com/track")
    [ [letters 2; digits 9 11];
      [digits 10 12] ]
    (lit "#ec4899").

(** [Object.entries(COURIERS)]: the keys are not integer-like, so the
    entries come in the order of the object literal. *)
Definition COURIERS : list (jsstring * Courier) :=
  [ (lit "elta", elta);
    (lit "acs", acs);
    (lit "speedex", speedex);
    (lit "box_now", box_now);
    (lit "courier_center", courier_center);
    (lit "geniki", geniki) ].

(** The inner loop of [detectCourier]: the patterns of one carrier. *)
Fixpoint detect_patterns (code : jsstring) (ps : list regex) (tn : jsstring)
  : option jsstring :=
  match ps with
  | [] => None
  | pattern :: ps' =>
    if test pattern tn then Some code else detect_patterns code ps' tn
  end.

(** The outer loop: the carriers, in order. *)
Fixpoint detect_entries (entries : list (jsstring * Courier)) (tn : jsstring)
  : option jsstring :=
  match entries with
  | [] => None
  | (code, courier) :: rest =>
    match detect_patterns code (patterns courier) tn with
    | Some c => Some c
    | None => detect_entries rest tn
    end
  end.

Definition detectCourier (trackingNumber : jsstring) : option jsstring :=
  let tn := toUpperCase (trim trackingNumber) in
  detect_entries COURIERS tn.

(* ================================================================== *)
(** * The status normalizer *)
(* ================================================================== *)

Definition STATUS_TRANSLATIONS : list (jsstring * jsstring) :=
  [ (lit "Αποστολή παραδόθηκε", lit "Delivered");
    (lit "Αποστολή παραδόθηκε σε", lit "Delivered to");
    (lit "Αποστολή βρίσκεται σε στάδιο μεταφοράς", lit "In Transit");
    (lit "Δημιουργία ΣΥ.ΔΕ.ΤΑ.", lit "Shipment Created");
    (lit "Η ΑΠΟΣΤΟΛΗ ΠΑΡΑΔΟΘΗΚΕ", lit "Delivered");
    (lit "delivered", lit "Delivered");
    (lit "in-depot", lit "In Depot");
    (lit "final-destination", lit "At Destination") ].

(** The test of one table entry against the lower-cased status. *)
Definition entry_matches (statusLower greek : jsstring) : bool :=
  str_eqb (toLowerCase greek) statusLower
  || includes statusLower (toLowerCase greek).

Fixpoint translate_entries (entries : list (jsstring * jsstring))
    (status statusLower : jsstring) : jsstring :=
  match entries with
  | [] => status
  | (greek, english) :: rest =>
    if entry_matches statusLower greek then english
    else translate_entries rest status statusLower
  end.

Definition translateStatus (status : jsstring) : jsstring :=
  let statusLower := toLowerCase status in
  translate_entries STATUS_TRANSLATIONS status statusLower.

Inductive StatusCategory : Type :=
| delivered | in_transit | created | unknown | error.

Definition getStatusCategory (status : jsstring) : StatusCategory :=
  let statusLower := toLowerCase status in
  if includes statusLower (lit "delivered")
     || includes statusLower (lit "παραδόθηκ") then delivered
  else if includes statusLower (lit "transit")
     || includes statusLower (lit "μεταφοράς") then in_transit
  else if includes statusLower (lit "created")
     || includes statusLower (lit "δημιουργία") then created
  else unknown.

(* ================================================================== *)
(** * JSON values as the code handles them *)
(* ================================================================== *)

(** A number parsed from JSON: a finite value or an overflow. *)
Inductive jsnum : Type :=
| Finite (q : Q)
| Infinite (negative : bool).

#[warnings="-register-all"]
Inductive json : Type :=
| JNull
| JBool (b : bool)
| JNum (n : jsnum)
| JStr (s : jsstring)
| JArr (items : list json)
| JObj (fields : list (jsstring * json)).

(** A JavaScript value of this module: [None] is [undefined]. *)
Definition jsval := option json.

Definition num_of_nat (n : nat) : jsnum := Finite (inject_Z (Z.of_nat n)).

Definition num_is_zero (n : jsnum) : bool :=
  match n with
  | Finite q => Qeq_bool q (inject_Z 0)
  | Infinite _ => false
  end.

Definition num_is_one (n : jsnum) : bool :=
  match n with
  | Finite q => Qeq_bool q (inject_Z 1)
  | Infinite _ => false
  end.

Definition num_is_positive (n : jsnum) : bool :=
  match n with
  | Finite q => negb (Qle_bool q (inject_Z 0))
  | Infinite negative => negb negative
  end.

(** ToBoolean *)
Definition truthy (v : json) : bool :=
  match v with
  | JNull => false
  | JBool b => b
  | JNum n => negb (num_is_zero n)
  | JStr s => match s with [] => false | _ :: _ => true end
  | JArr _ | JObj _ => true
  end.

(** [v || d] where [d] is a definite value. *)
Definition or_else (v : jsval) (d : json) : json :=
  match v with
  | Some x => if truthy x then x else d
  | None => d
  end.

(** [v === 1] *)
Definition is_one (v : jsval) : bool :=
  match v with
  | Some (JNum n) => num_is_one n
  | _ => false
  end.

(** [v === 'text'] *)
Definition is_string (v : json) (text : jsstring) : bool :=
  match v with
  | JStr s => str_eqb s text
  | _ => false
  end.

(** Own properties of an object, each key once, as parsed. *)
Fixpoint lookup (k : jsstring) (fields : list (jsstring * json)) : jsval :=
  match fields with
  | [] => None
  | (k', v) :: rest => if str_eqb k' k then Some v else lookup k rest
  end.

(** A canonical array index: ["0"], or digits without a leading zero. *)
Definition is_digit (u : N) : bool := (48 <=? u) && (u <=? 57).

Definition array_index (k : jsstring) : option N :=
  match k with
  | [] => None
  | c :: rest =>
    if forallb is_digit k && (negb (c =? 48) || match rest with [] => true | _ => false end)
    then Some (fold_left (fun acc u => acc * 10 + (u - 48)) k 0)
    else None
  end.

Fixpoint nth_N {A : Type} (l : list A) (i : N) : option A :=
  match l with
  | [] => None
  | x :: rest => if i =? 0 then Some x else nth_N rest (i - 1)
  end.

(** [v[k]] / [v.k] on a value that is neither [null] nor [undefined].
    Properties inherited from the built-in prototypes are functions or
    prototype objects; the code only ever tests such a result against
    [1] or calls it as a method (see [call_*] below), so they are read
    as [undefined] here. *)
Definition get (v : json) (k : jsstring) : jsval :=
  match v with
  | JObj fields => lookup k fields
  | JArr items =>
    if str_eqb k (lit "length") then Some (JNum (num_of_nat (length items)))
    else match array_index k with
         | Some i => nth_N items i
         | None => None
         end
  | JStr s =>
    if str_eqb k (lit "length") then Some (JNum (num_of_nat (length s)))
    else match array_index k with
         | Some i => option_map (fun u => JStr [u]) (nth_N s i)
         | None => None
         end
  | JNull | JBool _ | JNum _ => None
  end.

(** [v?.k] *)
Definition opt_get (v : jsval) (k : jsstring) : jsval :=
  match v with
  | None | Some JNull => None
  | Some x => get x k
  end.

(* ================================================================== *)
(** * Effects: exceptions and the network *)
(* ================================================================== *)

(** What a [catch (error)] clause of this module can tell about the value
    it caught: an [Error] with its message, or anything else. *)
Inductive thrown : Type :=
| ErrorObject (message : jsstring)
| NotAnError.

(** The built-ins of the runtime that are not modelled further. *)
Record Runtime : Type := {
  (** [JSON.parse]: a value, or a [SyntaxError] with its message *)
  JSON_parse : jsstring -> jsstring + json;
  (** [JSON.stringify] *)
  JSON_stringify : json -> jsstring;
  (** the message of the [TypeError] raised at an ill-typed expression *)
  type_error_message : jsstring -> jsstring;
  (** [v > 0] for a string, an array or an object, which goes through
      ToPrimitive and ToNumber *)
  coerced_gt_zero : json -> thrown + bool
}.

Record Request : Type := {
  url : jsstring;
  method : jsstring;
  headers : list (jsstring * jsstring);
  body : jsstring
}.

(** What [await response.text()] and [await response.json()] give. *)
Record Response : Type := {
  text : thrown + jsstring;
  json_ : thrown + json
}.

(** An asynchronous computation: it returns, throws, or asks the network
    and goes on with the answer (a rejection or a response). *)
Inductive Prog (A : Type) : Type :=
| Ret (a : A)
| Throw (e : thrown)
| Fetch (rq : Request) (k : thrown + Response -> Prog A).

Arguments Ret {A} a.
Arguments Throw {A} e.
Arguments Fetch {A} rq k.

Fixpoint bind {A B : Type} (m : Prog A) (f : A -> Prog B) : Prog B :=
  match m with
  | Ret a => f a
  | Throw e => Throw e
  | Fetch rq k => Fetch rq (fun o => bind (k o) f)
  end.

(** [try { m } catch (error) { h error }] *)
Fixpoint try_catch {A : Type} (m : Prog A) (h : thrown -> Prog A) : Prog A :=
  match m with
  | Ret a => Ret a
  | Throw e => h e
  | Fetch rq k => Fetch rq (fun o => try_catch (k o) h)
  end.

Notation "x <- m ;; f" := (bind m (fun x => f))
  (at level 61, m at next level, right associativity).

Definition await {A : Type} (o : thrown + A) : Prog A :=
  match o with
  | inl e => Throw e
  | inr a => Ret a
  end.

(** [await fetch(url, init)] *)
Definition fetch (rq : Request) : Prog Response :=
  Fetch rq (fun o => await o).

(** Running a computation against a network with a state of its own. *)
Fixpoint interp {W A : Type} (net : Request -> W -> (thrown + Response) * W)
    (p : Prog A) (w : W) : (thrown + A) * W :=
  match p with
  | Ret a => (inr a, w)
  | Throw e => (inl e, w)
  | Fetch rq k => let (o, w') := net rq w in interp net (k o) w'
  end.

(** The requests a run sends, in order. *)
Fixpoint requests {W A : Type} (net : Request -> W -> (thrown + Response) * W)
    (p : Prog A) (w : W) : list Request :=
  match p with
  | Ret _ | Throw _ => []
  | Fetch rq k => let (o, w') := net rq w in rq :: requests net (k o) w'
  end.

(** The computation that is left once the network has answered the
    first request. *)
Definition answer {A : Type} (p : Prog A) (o : thrown + Response) : Prog A :=
  match p with
  | Fetch _ k => k o
  | _ => p
  end.

(* ================================================================== *)
(** * Tracking results *)
(* ================================================================== *)

(** [events] is whatever the fetcher put there (ELTA passes the carrier's
    JSON through); [latestEvent] and [errorMessage] are optional. *)
Record TrackingResult : Type := {
  success : bool;
  trackingNumber : jsstring;
  courier : jsstring;
  courierName : jsstring;
  courierColor : jsstring;
  status : jsstring;
  statusCategory : StatusCategory;
  events : json;
  latestEvent : jsval;
  errorMessage : option jsstring
}.

Inductive Payload : Type :=
| ResultsBody (results : list TrackingResult)   (* { results } *)
| ResultBody (result : TrackingResult)          (* result *)
| ErrorBody (error : jsstring).                 (* { error } *)

(** [NextResponse.json(payload, { status })] *)
Record HttpResponse : Type := Json { payload : Payload; http_status : nat }.

Section Route.

Variable rt : Runtime.

Definition TypeError (expression : string) : thrown :=
  ErrorObject (type_error_message rt (lit expression)).

(** [v.k], which throws on [null] and [undefined]. *)
Definition member (expression : string) (v : jsval) (k : jsstring)
  : Prog jsval :=
  match v with
  | None | Some JNull => Throw (TypeError expression)
  | Some x => Ret (get x k)
  end.

(** [v > 0] *)
Definition gt_zero (v : jsval) : Prog bool :=
  match v with
  | None | Some JNull => Ret false
  | Some (JBool b) => Ret b
  | Some (JNum n) => Ret (num_is_positive n)
  | Some x => await (coerced_gt_zero rt x)
  end.

(** [translateStatus(v)]: the first thing it does is [status.toLowerCase()],
    which is not a function unless [v] is a string. *)
Definition call_translateStatus (v : json) : Prog jsstring :=
  match v with
  | JStr s => Ret (translateStatus s)
  | _ => Throw (TypeError "status.toLowerCase")
  end.

(** [error instanceof Error ? error.message : 'Unknown error'] *)
Definition message_of (err : thrown) : jsstring :=
  match err with
  | ErrorObject message => message
  | NotAnError => lit "Unknown error"
  end.

(** ** ELTA *)

Definition trackELTA (trackingNumber : jsstring) : Prog TrackingResult :=
  let courier := elta in
  try_catch
    (response <- fetch {|
        url := apiUrl courier;
        method := lit "POST";
        headers :=
          [ (lit "User-Agent",
             lit "Mozilla/5.0 (Windows NT 10.0; Win64; x64) AppleWebKit/537.36");
            (lit "Accept", lit "application/json");
            (lit "Origin", lit "https://www.elta-courier.gr");
            (lit "Referer",
             lit "https://www.elta-courier.gr/search?br=" ++ trackingNumber);
            (lit "Content-Type", lit "application/x-www-form-urlencoded") ];
        body := lit "number=" ++ trackingNumber ++ lit "&s=0" |} ;;
     txt <- await (text response) ;;
     (* Remove BOM if present *)
     let cleanText := if startsWith txt [65279] then skipn 1 txt else txt in
     data <- await (match JSON_parse rt cleanText with
                    | inl message => inl (ErrorObject message)
                    | inr v => inr v
                    end) ;;
     let notFound :=
       {| success := true;
          trackingNumber := trackingNumber;
          courier := lit "elta";
          courierName := name courier;
          courierColor := color courier;
          status := lit "Not Found";
          statusCategory := unknown;
          events := JArr [];
          latestEvent := None;
          errorMessage := None |} in
     data_status <- member "data.status" (Some data) (lit "status") ;;
     if is_one data_status then
       let trackingData := opt_get (get data (lit "result")) trackingNumber in
       if is_one (opt_get trackingData (lit "status")) then
         result <- member "trackingData.result" trackingData (lit "result") ;;
         let events := or_else result (JArr []) in
         let latestEvent := get events (lit "0") in
         translatedStatus <-
           call_translateStatus
             (or_else (opt_get latestEvent (lit "status")) (JStr [])) ;;
         Ret {| success := true;
                trackingNumber := trackingNumber;
                courier := lit "elta";
                courierName := name courier;
                courierColor := color courier;
                status := translatedStatus;
                statusCategory := getStatusCategory translatedStatus;
                events := events;
                latestEvent := latestEvent;
                errorMessage := None |}
       else Ret notFound
     else Ret notFound)
    (fun err =>
       Ret {| success := false;
              trackingNumber := trackingNumber;
              courier := lit "elta";
              courierName := name courier;
              courierColor := color courier;
              status := lit "Error";
              statusCategory := error;
              events := JArr [];
              latestEvent := None;
              errorMessage := Some (message_of err) |}).

(** ** Box Now *)

(** [e.createTime?.split('T')] *)
Definition call_split (v : jsval) : Prog (option (list jsstring)) :=
  match v with
  | None | Some JNull => Ret None
  | Some (JStr s) => Ret (Some (split 84 s))
  | Some _ => Throw (TypeError "e.createTime.split")
  end.

(** The callback of [.map]: one carrier event to one common event.
    [e.createTime?.split('T')] is written twice in the source, with the
    same outcome both times. *)
Definition boxnow_event (e : json) : Prog json :=
  createTime <- member "e.createTime" (Some e) (lit "createTime") ;;
  pieces <- call_split createTime ;;
  Ret (JObj
    [ (lit "date", JStr match pieces with
                        | Some (d :: _) => d
                        | _ => []
                        end);
      (lit "time", JStr match pieces with
                        | Some (_ :: t :: _) => slice0 8 t
                        | _ => []
                        end);
      (lit "place", or_else (get e (lit "locationDisplayName")) (JStr []));
      (lit "status", or_else (get e (lit "type")) (JStr [])) ]).

Fixpoint map_events (items : list json) : Prog (list json) :=
  match items with
  | [] => Ret []
  | e :: rest =>
    x <- boxnow_event e ;;
    xs <- map_events rest ;;
    Ret (x :: xs)
  end.

(** [v.map(callback)]: only an array has a [map] to call. *)
Definition call_map (v : json) : Prog (list json) :=
  match v with
  | JArr items => map_events items
  | _ => Throw (TypeError "(parcel.events || []).map")
  end.

Definition trackBoxNow (trackingNumber : jsstring) : Prog TrackingResult :=
  let courier := box_now in
  try_catch
    (response <- fetch {|
        url := apiUrl courier;
        method := lit "POST";
        headers :=
          [ (lit "Content-Type", lit "application/json");
            (lit "Accept", lit "application/json");
            (lit "Origin", lit "https://boxnow.gr") ];
        body := JSON_stringify rt
                  (JObj [(lit "parcelId", JStr trackingNumber)]) |} ;;
     data <- await (json_ response) ;;
     data_data <- member "data.data" (Some data) (lit "data") ;;
     let parcels := or_else data_data (JArr []) in
     nonempty <- gt_zero (get parcels (lit "length")) ;;
     if nonempty then
       let parcel := get parcels (lit "0") in
       parcel_events <- member "parcel.events" parcel (lit "events") ;;
       events <- call_map (or_else parcel_events (JArr [])) ;;
       parcel_state <- member "parcel.state" parcel (lit "state") ;;
       let state := or_else parcel_state (JStr []) in
       translatedStatus <- call_translateStatus state ;;
       Ret {| success := true;
              trackingNumber := trackingNumber;
              courier := lit "box_now";
              courierName := name courier;
              courierColor := color courier;
              status := translatedStatus;
              statusCategory :=
                if is_string state (lit "delivered") then delivered
                else in_transit;
              events := JArr events;
              latestEvent := nth_error events 0;
              errorMessage := None |}
     else
       Ret {| success := true;
              trackingNumber := trackingNumber;
              courier := lit "box_now";
              courierName := name courier;
              courierColor := color courier;
              status := lit "Not Found";
              statusCategory := unknown;
              events := JArr [];
              latestEvent := None;
              errorMessage := None |})
    (fun err =>
       Ret {| success := false;
              trackingNumber := trackingNumber;
              courier := lit "box_now";
              courierName := name courier;
              courierColor := color courier;
              status := lit "Error";
              statusCategory := error;
              events := JArr [];
              latestEvent := None;
              errorMessage := Some (message_of err) |}).

(** ** The dispatcher *)

(** [COURIERS[courierCode]] *)
Fixpoint find_courier (code : jsstring) (entries : list (jsstring * Courier))
  : option Courier :=
  match entries with
  | [] => None
  | (c, courier) :: rest =>
    if str_eqb c code then Some courier else find_courier code rest
  end.

(** [COURIERS[courierCode]?.field || fallback] *)
Definition courier_field (field : Courier -> jsstring) (code fallback : jsstring)
  : jsstring :=
  match find_courier code COURIERS with
  | Some c => match field c with [] => fallback | _ :: _ => field c end
  | None => fallback
  end.

Definition trackShipment (trackingNumber : jsstring) : Prog TrackingResult :=
  match detectCourier trackingNumber with
  | None =>
    Ret {| success := false;
           trackingNumber := trackingNumber;
           courier := lit "unknown";
           courierName := lit "Unknown Courier";
           courierColor := lit "#6b7280";
           status := lit "Error";
           statusCategory := error;
           events := JArr [];
           latestEvent := None;
           errorMessage :=
             Some (lit "Could not detect courier from tracking number format") |}
  | Some courierCode =>
    if str_eqb courierCode (lit "elta") then trackELTA trackingNumber
    else if str_eqb courierCode (lit "box_now") then trackBoxNow trackingNumber
    else
      Ret {| success := false;
             trackingNumber := trackingNumber;
             courier := courierCode;
             courierName := courier_field name courierCode courierCode;
             courierColor := courier_field color courierCode (lit "#6b7280");
             status := lit "Not Implemented";
             statusCategory := error;
             events := JArr [];
             latestEvent := None;
             errorMessage :=
               Some (lit "Tracking for " ++ courierCode
                     ++ lit " is not yet implemented") |}
  end.

(** ** POST: the batch *)

(** The body of the [for] loop for an element that is a string. *)
Definition trackOne (trackingNumber : jsstring) : Prog TrackingResult :=
  let normalizedNumber := toUpperCase (trim trackingNumber) in
  if (length normalizedNumber <? 8)%nat then
    Ret {| success := false;
           trackingNumber := normalizedNumber;
           courier := lit "unknown";
           courierName := lit "Unknown";
           courierColor := lit "#6b7280";
           status := lit "Error";
           statusCategory := error;
           events := JArr [];
           latestEvent := None;
           errorMessage := Some (lit "Invalid tracking number format") |}
  else trackShipment normalizedNumber.

(** The [for] loop of [POST], the orchestrator; [results] is the array the
    loop pushes to.  [trackingNumber.trim] is not a function unless the
    element is a string. *)
Fixpoint trackAll (trackingNumbers : list json) (results : list TrackingResult)
  : Prog (list TrackingResult) :=
  match trackingNumbers with
  | [] => Ret results
  | trackingNumber :: rest =>
    match trackingNumber with
    | JStr s =>
      result <- trackOne s ;;
      trackAll rest (results ++ [result])
    | _ => Throw (TypeError "trackingNumber.trim")
    end
  end.

(** [!v], [Array.isArray(v)] and the elements of [v] *)
Definition not_ (v : jsval) : bool :=
  match v with Some x => negb (truthy x) | None => true end.

Definition isArray (v : jsval) : bool :=
  match v with Some (JArr _) => true | _ => false end.

Definition array_items (v : jsval) : list json :=
  match v with Some (JArr items) => items | _ => [] end.

(** [request_json] is what [await request.json()] gives.  The
    [console.error] of the handler is not part of the response. *)
Definition POST (request_json : thrown + json) : Prog HttpResponse :=
  try_catch
    (body <- await request_json ;;
     trackingNumbers <-
       member "body.trackingNumbers" (Some body) (lit "trackingNumbers") ;;
     if not_ trackingNumbers || negb (isArray trackingNumbers)
        || (length (array_items trackingNumbers) =? 0)%nat
     then
       Ret (Json (ErrorBody (lit "Please provide at least one tracking number"))
                 400)
     else
       results <- trackAll (array_items trackingNumbers) [] ;;
       Ret (Json (ResultsBody results) 200))
    (fun err =>
       Ret (Json (ErrorBody (lit "Failed to process tracking request")) 500)).

(** ** GET: one number, [searchParams.get('number')] *)
Definition GET (number : option jsstring) : Prog HttpResponse :=
  match number with
  | None | Some [] =>
    Ret (Json (ErrorBody (lit "Please provide a tracking number")) 400)
  | Some trackingNumber =>
    result <- trackShipment (toUpperCase trackingNumber) ;;
    Ret (Json (ResultBody result) 200)
  end.

End Route.

(* ================================================================== *)
(** * The page (src/app/page.tsx): the list of numbers to track *)
(* ================================================================== *)

(** [s.split(/[...]/)] for a class of one-unit separators: the first
    piece and the pieces after it. *)
Fixpoint split_on_pieces (is_sep : N -> bool) (s : jsstring)
  : jsstring * list jsstring :=
  match s with
  | [] => ([], [])
  | c :: s' =>
    let (w, ws) := split_on_pieces is_sep s' in
    if is_sep c then ([], w :: ws) else (c :: w, ws)
  end.

Definition split_on (is_sep : N -> bool) (s : jsstring) : list jsstring :=
  let (w, ws) := split_on_pieces is_sep s in w :: ws.

(** [/[,\n]/] *)
Definition comma_or_newline (u : N) : bool := (u =? 44) || (u =? 10).

(** The state of [Home] that the list of numbers depends on. *)
Record PageState : Type := {
  trackingNumbers : list jsstring;
  inputValue : jsstring;
  results : list TrackingResult
}.

(** [useState([])], [useState('')], [useState([])] *)
Definition initial : PageState :=
  {| trackingNumbers := []; inputValue := []; results := [] |}.

(** [addTrackingNumber]: the callback is rebuilt whenever [inputValue] or
    [trackingNumbers] change, so it reads the current ones. *)
Definition addTrackingNumber (st : PageState) : PageState :=
  let numbers :=
    filter (fun n => (8 <=? length n)%nat
                     && negb (existsb (str_eqb n) (trackingNumbers st)))
           (map (fun n => toUpperCase (trim n))
                (split_on comma_or_newline (inputValue st))) in
  if (0 <? length numbers)%nat then
    {| trackingNumbers := trackingNumbers st ++ numbers;
       inputValue := [];
       results := results st |}
  else st.

Definition removeTrackingNumber (number : jsstring) (st : PageState)
  : PageState :=
  {| trackingNumbers :=
       filter (fun n => negb (str_eqb n number)) (trackingNumbers st);
     inputValue := inputValue st;
     results :=
       filter (fun r => negb (str_eqb (trackingNumber r) number))
              (results st) |}.

(** The states the page can be in: typing in the input, adding,
    removing, and receiving results. *)
Inductive reachable : PageState -> Prop :=
| reach_initial : reachable initial
| reach_input (st : PageState) (value : jsstring) :
    reachable st ->
    reachable {| trackingNumbers := trackingNumbers st;
                 inputValue := value;
                 results := results st |}
| reach_add (st : PageState) :
    reachable st -> reachable (addTrackingNumber st)
| reach_remove (st : PageState) (number : jsstring) :
    reachable st -> reachable (removeTrackingNumber number st)
| reach_results (st : PageState) (rs : list TrackingResult) :
    reachable st ->
    reachable {| trackingNumbers := trackingNumbers st;
                 inputValue := inputValue st;
                 results := rs |}.

(* ================================================================== *)
(** * Predicates and data of the statements *)
(* ================================================================== *)

(** ** Strings and patterns *)

Definition is_surrogate (c : N) : bool := is_high c || is_low c.

(** A code point that upper-casing leaves alone. *)
Definition stable (c : N) : bool := str_eqb (upper_point c) [c].

(** What upper-casing does to one code point: a surrogate stays; another
    code point gets a non-empty image of stable code points that are not
    surrogates; white space stays and nothing else becomes white space. *)
Definition upper_point_ok (c : N) : bool :=
  let image := upper_point c in
  if is_surrogate c then str_eqb image [c]
  else negb (str_eqb image [])
       && forallb (fun t => negb (is_surrogate t) && stable t) image
       && (if is_ws c then str_eqb image [c]
           else forallb (fun t => negb (is_ws t)) image).

(** The [n] code points from [c] on. *)
Fixpoint points_from (n : nat) (c : N) : list N :=
  match n with
  | O => []
  | S n' => c :: points_from n' (N.succ c)
  end.

(** The code points between the ends of the runs of a table. *)
Definition run_points (runs : list run) : list N :=
  flat_map (fun r : run =>
              let '(first, last, _, _) := r in
              points_from (S (N.to_nat (last - first))) first) runs.

Definition within (runs : list run) (c : N) : bool :=
  existsb (fun r : run =>
             let '(first, last, _, _) := r in (first <=? c) && (c <=? last))
          runs.

(** No high surrogate is followed by a low one. *)
Fixpoint unpaired (cs : list N) : bool :=
  match cs with
  | [] => true
  | c :: cs' => negb (is_high c && is_low (hd 0 cs')) && unpaired cs'
  end.

(** The units the registry's patterns accept: digits and capitals. *)
Definition word_unit (u : N) : bool :=
  ((48 <=? u) && (u <=? 57)) || ((65 <=? u) && (u <=? 90)).

Definition min_length (r : regex) : nat := list_sum (map a_min r).
Definition max_length (r : regex) : nat := list_sum (map a_max r).

(** Two classes without a common unit. *)
Definition cls_disjoint (k1 k2 : cls) : bool :=
  match k1, k2 with
  | Ch c, k | k, Ch c => negb (in_cls k c)
  | Digit, AZ | AZ, Digit => true
  | Digit, Digit | AZ, AZ => false
  end.

(** Two patterns that no string can match both: by their lengths, or by
    their first unit. *)
Definition apart (r1 r2 : regex) : bool :=
  (max_length r1 <? min_length r2)%nat
  || (max_length r2 <? min_length r1)%nat
  || match r1, r2 with
     | a1 :: _, a2 :: _ =>
       (1 <=? a_min a1)%nat && (1 <=? a_min a2)%nat
       && cls_disjoint (a_cls a1) (a_cls a2)
     | _, _ => false
     end.

(** Some pattern of the carrier matches. *)
Definition matches (c : Courier) (tn : jsstring) : bool :=
  existsb (fun pattern => test pattern tn) (patterns c).

(** The rules of the registry in the order the two loops visit them. *)
Definition rules_of (entries : list (jsstring * Courier))
  : list (jsstring * regex) :=
  flat_map (fun e => map (pair (fst e)) (patterns (snd e))) entries.

Definition cls_word (k : cls) : bool :=
  match k with
  | Ch c => word_unit c
  | Digit | AZ => true
  end.

(** Two carriers that no string can belong to both. *)
Definition couriers_apart (c1 c2 : Courier) : bool :=
  forallb (fun r1 => forallb (apart r1) (patterns c2)) (patterns c1).

(** ** Computations *)

(** [Settled P Q p]: [p] asks nothing of the network any more; it
    returns a value in [P] or throws a value in [Q]. *)
Definition Settled {A : Type} (P : A -> Prop) (Q : thrown -> Prop)
    (p : Prog A) : Prop :=
  (exists a, p = Ret a /\ P a) \/ (exists e, p = Throw e /\ Q e).

(** [Outcomes P Q p]: whatever the network answers, [p] returns a value
    in [P] or throws a value in [Q]. *)
Inductive Outcomes {A : Type} (P : A -> Prop) (Q : thrown -> Prop)
  : Prog A -> Prop :=
| O_Ret (a : A) : P a -> Outcomes P Q (Ret a)
| O_Throw (e : thrown) : Q e -> Outcomes P Q (Throw e)
| O_Fetch (rq : Request) (k : thrown + Response -> Prog A) :
    (forall o, Outcomes P Q (k o)) -> Outcomes P Q (Fetch rq k).

Definition anything {A : Type} (_ : A) : Prop := True.
Definition nothing {A : Type} (_ : A) : Prop := False.

(** ** Results *)

(** The invariant of a result: [latestEvent] is [events[0]], in
    particular it is there when [events] is a non-empty array; the
    category is one of the five. *)
Definition well_formed (r : TrackingResult) : Prop :=
  latestEvent r = get (events r) (lit "0")
  /\ (forall e rest, events r = JArr (e :: rest) -> latestEvent r = Some e)
  /\ In (statusCategory r) [delivered; in_transit; created; unknown; error].

(** The result that stands for a failure [e]. *)
Definition is_failure (r : TrackingResult) (e : thrown) : Prop :=
  success r = false /\ statusCategory r = error /\ events r = JArr []
  /\ latestEvent r = None
  /\ errorMessage r = Some (message_of e).

(** What a fetcher may return for a number: a success, or the result of
    a failure. *)
Definition fetched (tn : jsstring) (r : TrackingResult) : Prop :=
  trackingNumber r = tn /\ well_formed r
  /\ ((success r = true /\ errorMessage r = None) \/ exists e, is_failure r e).

(** A result for the number [tn] that satisfies the invariant. *)
Definition result_for (tn : jsstring) (r : TrackingResult) : Prop :=
  trackingNumber r = tn /\ well_formed r.

(** What a handler answers carries results that satisfy the invariant. *)
Definition payload_ok (response : HttpResponse) : Prop :=
  match payload response with
  | ResultsBody results => Forall well_formed results
  | ResultBody result => well_formed result
  | ErrorBody _ => True
  end.

(** The call to the network or the parsing of the response throws [e]:
    [fetch] rejects, [response.text()] rejects, or [JSON.parse] throws
    its [SyntaxError]. *)
Definition elta_throws (rt : Runtime) (o : thrown + Response) (e : thrown)
  : Prop :=
  o = inl e
  \/ (exists response, o = inr response /\ text response = inl e)
  \/ (exists response txt message,
        o = inr response /\ text response = inr txt
        /\ JSON_parse rt (if startsWith txt [65279] then skipn 1 txt else txt)
           = inl message
        /\ e = ErrorObject message).

(** [fetch] rejects or [response.json()] rejects. *)
Definition boxnow_throws (o : thrown + Response) (e : thrown) : Prop :=
  o = inl e
  \/ (exists response, o = inr response /\ json_ response = inl e).

(** The carrier answered and has no record of the number. *)
Definition confirmed_absence (r : TrackingResult) : Prop :=
  success r = true /\ status r = lit "Not Found"
  /\ statusCategory r = unknown /\ events r = JArr []
  /\ latestEvent r = None /\ errorMessage r = None.

(** ** A runtime and a few answers of the network to run the module on *)

(** [JSON.parse] of this runtime knows one text, [{}]. *)
Definition demo_runtime : Runtime := {|
  JSON_parse := fun s =>
    if str_eqb s (lit "{}") then inr (JObj [])
    else inl (lit "Unexpected token");
  JSON_stringify := fun _ => lit "{}";
  type_error_message := fun expression => expression ++ lit " is not valid";
  coerced_gt_zero := fun _ => inr false
|}.

(** A network on which every request fails. *)
Definition unreachable (rq : Request) (w : unit)
  : (thrown + Response) * unit :=
  (inl (ErrorObject (lit "fetch failed")), w).

(** An answer of Box Now with one parcel, in the depot. *)
Definition in_depot : Response := {|
  text := inl NotAnError;
  json_ := inr (JObj [(lit "data",
                       JArr [JObj [(lit "state", JStr (lit "in-depot"))]])])
|}.

(** ** Further predicates *)

(** [sub] occurs in [s]: some units, then [sub], then the rest. *)
Definition occurs_in (sub s : jsstring) : Prop :=
  exists before after, s = before ++ sub ++ after.

(** No phrase of the entries, lower-cased, occurs in the lower-cased
    status. *)
Definition none_occurs (entries : list (jsstring * jsstring))
    (statusLower : jsstring) : Prop :=
  forall greek english,
    In (greek, english) entries ->
    ~ occurs_in (toLowerCase greek) statusLower.

(** An atom that takes at least one unit and no digit. *)
Definition needs_non_digit (a : atom) : bool :=
  (1 <=? a_min a)%nat && cls_disjoint (a_cls a) Digit.

(** What [test] answers on a string of [n] digits, for the two kinds of
    pattern the registry has: one run of digits, or a pattern with an
    atom that needs something else. *)
Definition on_digits (r : regex) (n : nat) : option bool :=
  match r with
  | [Atom Digit lo hi] => Some ((lo <=? n)%nat && (n <=? hi)%nat)
  | _ => if existsb needs_non_digit r then Some false else None
  end.

(** The number belongs to a carrier that has a fetcher. *)
Definition has_fetcher (trackingNumber : jsstring) : bool :=
  match detectCourier trackingNumber with
  | Some code => str_eqb code (lit "elta") || str_eqb code (lit "box_now")
  | None => false
  end.

(** A result is a success without an error message, or a failure with
    one, in the category ["error"] and without events; and it names a
    courier. *)
Definition coherent (r : TrackingResult) : Prop :=
  ((success r = true /\ errorMessage r = None /\ statusCategory r <> error)
   \/ (success r = false /\ statusCategory r = error
       /\ events r = JArr [] /\ latestEvent r = None
       /\ exists m, errorMessage r = Some m))
  /\ courier r <> [] /\ courierName r <> [] /\ courierColor r <> [].

(** The results in an answer of a handler are coherent. *)
Definition payload_coherent (response : HttpResponse) : Prop :=
  match payload response with
  | ResultsBody results => Forall coherent results
  | ResultBody result => coherent result
  | ErrorBody _ => True
  end.

(** A runtime whose [JSON.parse] gives [data] for every text. *)
Definition runtime_parsing (data : json) : Runtime := {|
  JSON_parse := fun _ => inr data;
  JSON_stringify := fun _ => lit "{}";
  type_error_message := fun expression => expression ++ lit " is not valid";
  coerced_gt_zero := fun _ => inr false
|}.

(** An event of Box Now that the callback of [.map] can read: it is not
    [null], and its [createTime] is missing, [null] or a string. *)
Definition event_ok (e : json) : bool :=
  match e with
  | JNull => false
  | _ => match get e (lit "createTime") with
         | None | Some JNull | Some (JStr _) => true
         | Some _ => false
         end
  end.

(** The four fields of a common event. *)
Definition is_event (x : json) (date time : jsstring) (place status_ : json)
  : Prop :=
  x = JObj [ (lit "date", JStr date); (lit "time", JStr time);
             (lit "place", place); (lit "status", status_) ].

(** The request carries the number [tn]: as the form field of ELTA or
    as the [parcelId] of Box Now. *)
Definition carries (rt : Runtime) (tn : jsstring) (rq : Request) : Prop :=
  body rq = lit "number=" ++ tn ++ lit "&s=0"
  \/ body rq = JSON_stringify rt (JObj [(lit "parcelId", JStr tn)]).

(** A number as the page keeps it: trimmed, upper-cased, of at least
    eight units. *)
Definition submittable (n : jsstring) : Prop :=
  (8 <= length n)%nat /\ toUpperCase (trim n) = n.

(** ** Answers of the carriers to run the fetchers on *)

(** The entry ELTA gives for a number: found, with a history. *)
Definition elta_entry (history : json) : json :=
  JObj [ (lit "status", JNum (Finite (inject_Z 1)));
         (lit "result", history) ].

(** An answer of ELTA with that entry for SE101046219GR. *)
Definition elta_answer (history : json) : json :=
  JObj [ (lit "status", JNum (Finite (inject_Z 1)));
         (lit "result", JObj [(lit "SE101046219GR", elta_entry history)]) ].

Definition elta_delivered : json :=
  JObj [ (lit "date", JStr (lit "02-01-2024"));
         (lit "time", JStr (lit "10:20"));
         (lit "place", JStr (lit "ΑΘΗΝΑ"));
         (lit "status", JStr (lit "Αποστολή παραδόθηκε")) ].

(** An event of ELTA with nothing but a status. *)
Definition elta_event (status_ : json) : json :=
  JObj [ (lit "status", status_) ].

(** An event of Box Now with nothing but a time of creation. *)
Definition boxnow_created (createTime : json) : json :=
  JObj [ (lit "createTime", createTime) ].

Definition empty_response : Response :=
  {| text := inr []; json_ := inl NotAnError |}.

(** An event and a parcel of Box Now. *)
Definition boxnow_delivered : json :=
  JObj [ (lit "createTime", JStr (lit "2024-01-02T10:20:30.123Z"));
         (lit "locationDisplayName", JStr (lit "Athens"));
         (lit "type", JStr (lit "delivered")) ].

Definition boxnow_parcel (events_ : list json) : json :=
  JObj [ (lit "state", JStr (lit "delivered"));
         (lit "events", JArr events_) ].

Definition boxnow_response (events_ : list json) : Response :=
  {| text := inl NotAnError;
     json_ := inr (JObj [(lit "data", JArr [boxnow_parcel events_])]) |}.

(* ================================================================== *)
(** * The module on the examples of its documentation *)
(* ================================================================== *)

Example lit_greek :
  lit "Σε Ώρα" = [931; 949; 32; 911; 961; 945].
Proof. reflexivity. Qed.

Example toLowerCase_greek :
  toLowerCase (lit "Η ΑΠΟΣΤΟΛΗ ΠΑΡΑΔΟΘΗΚΕ") = lit "η αποστολη παραδοθηκε"
  /\ toLowerCase (lit "Δημιουργία ΣΥ.ΔΕ.ΤΑ.") = lit "δημιουργία συ.δε.τα."
  /\ toLowerCase (lit "ΟΔΟΣ ΑΘΗΝΑΣ.") = lit "οδος αθηνας."
  /\ toUpperCase (lit "se101046219gr ß") = lit "SE101046219GR SS"
  /\ trim (lit "  bn12345678 ") = lit "bn12345678"
  /\ split 84 (lit "2024-01-02T10:20:30Z") = [lit "2024-01-02"; lit "10:20:30Z"]
  /\ includes (lit "delivered to") (lit "delivered") = true.
Proof. repeat split; reflexivity. Qed.

(** Case mappings outside the alphabets of the registry and of the phrase
    table: ligatures and the long s, the dotless and the dotted i, a
    letter of the supplementary planes next to a lone surrogate, and the
    final sigma before and after an apostrophe. *)
Example case_examples :
  toUpperCase (lit "ﬃ12345") = lit "FFI12345"
  /\ toUpperCase (lit "ſtraße ı") = lit "STRASSE I"
  /\ toUpperCase [0xD801; 0xDC28; 0xD801] = [0xD801; 0xDC00; 0xD801]
  /\ toLowerCase (lit "İ ϴ") = [0x69; 0x307; 0x20; 0x3B8]
  /\ toLowerCase (lit "ΟΔΟΣ’ Σ’Α ΣΑΣ") = lit "οδος’ σ’α σας"
  /\ toLowerCase (lit "ĀΣ ЖΣ 1Σ") = lit "āς жς 1σ".
Proof. repeat split; vm_compute; reflexivity. Qed.

(** A number that grows to eight units when it is upper-cased passes the
    length check of [POST] and is nobody's. *)
Example ligature_number :
  exists r,
    trackOne demo_runtime (lit "ﬃ12345") = Ret r
    /\ trackingNumber r = lit "FFI12345"
    /\ errorMessage r
       = Some (lit "Could not detect courier from tracking number format").
Proof.
  let t := eval vm_compute in (trackOne demo_runtime (lit "ﬃ12345"))
  in match t with Ret ?r => exists r end.
  repeat split; vm_compute; reflexivity.
Qed.

Example detect_examples :
  detectCourier (lit "SE101046219GR") = Some (lit "elta")
  /\ detectCourier (lit "BN12345678") = Some (lit "box_now")
  /\ detectCourier (lit " bn12345678 ") = Some (lit "box_now")
  /\ detectCourier (lit "1234567890") = Some (lit "acs")
  /\ detectCourier (lit "12345678901") = Some (lit "geniki")
  /\ detectCourier (lit "123456789012") = Some (lit "speedex")
  /\ detectCourier (lit "AB") = None.
Proof. repeat split; vm_compute; reflexivity. Qed.

Example dispatcher_examples :
  (exists r,
      trackShipment demo_runtime (lit "12345678901") = Ret r
      /\ courier r = lit "geniki" /\ success r = false
      /\ status r = lit "Not Implemented" /\ statusCategory r = error
      /\ errorMessage r
         = Some (lit "Tracking for geniki is not yet implemented"))
  /\ (exists r,
        fst (interp unreachable
               (POST demo_runtime
                  (inr (JObj [(lit "trackingNumbers", JArr [JStr (lit "AB")])])))
               tt)
        = inr (Json (ResultsBody [r]) 200)
        /\ success r = false
        /\ errorMessage r = Some (lit "Invalid tracking number format"))
  /\ fst (interp unreachable
            (POST demo_runtime (inr (JObj [(lit "trackingNumbers", JArr [])])))
            tt)
     = inr (Json (ErrorBody (lit "Please provide at least one tracking number"))
                 400)
  /\ fst (interp unreachable
            (POST demo_runtime
               (inr (JObj [(lit "trackingNumbers",
                            JArr [JStr (lit "SE101046219GR");
                                  JNum (Finite (inject_Z 7))])])))
            tt)
     = inr (Json (ErrorBody (lit "Failed to process tracking request")) 500).
Proof.
  split; [|split; [|split]].
  - let t := eval vm_compute in
        (trackShipment demo_runtime (lit "12345678901"))
    in match t with Ret ?r => exists r end.
    repeat split; vm_compute; reflexivity.
  - match goal with
    | |- exists r, ?run = _ /\ _ =>
      let t := eval vm_compute in run in
      match t with inr (Json (ResultsBody [?r]) _) => exists r end
    end.
    repeat split; vm_compute; reflexivity.
  - vm_compute. reflexivity.
  - vm_compute. reflexivity.
Qed.

Example normalizer_examples :
  translateStatus (lit "Αποστολή παραδόθηκε") = lit "Delivered"
  /\ translateStatus (lit "Αποστολή παραδόθηκε σε ΘΥΡΙΔΑ") = lit "Delivered"
  /\ translateStatus (lit "Delivered to") = lit "Delivered"
  /\ translateStatus (lit "in-depot") = lit "In Depot"
  /\ translateStatus (lit "on hold") = lit "on hold"
  /\ getStatusCategory (lit "Delivered") = delivered
  /\ getStatusCategory (lit "In Depot") = unknown
  /\ getStatusCategory (lit "Shipment Created") = created.
Proof. repeat split; vm_compute; reflexivity. Qed.

(* ================================================================== *)
(** * Facts about strings *)
(* ================================================================== *)

Lemma str_eqb_eq (a b : jsstring) : str_eqb a b = true <-> a = b.
Proof.
  unfold str_eqb. destruct (list_eq_dec N.eq_dec a b); split; congruence.
Qed.

Lemma str_eqb_refl (a : jsstring) : str_eqb a a = true.
Proof. apply str_eqb_eq. reflexivity. Qed.

Lemma startsWith_app (s a b : jsstring) :
  startsWith s (a ++ b) = true -> startsWith s a = true.
Proof.
  revert s. induction a as [|c a IH]; intros s H; [destruct s; reflexivity|].
  destruct s as [|d s]; simpl in *; [discriminate|].
  apply andb_true_iff in H as [Hc Hs].
  rewrite Hc. simpl. apply IH. exact Hs.
Qed.

(** A string that contains [a ++ b] contains [a]. *)
Lemma includes_app (s a b : jsstring) :
  includes s (a ++ b) = true -> includes s a = true.
Proof.
  induction s as [|d s IH]; cbn [includes]; intros H.
  - apply orb_true_iff in H as [H|H]; [|discriminate].
    apply startsWith_app in H. rewrite H. reflexivity.
  - apply orb_true_iff in H as [H|H].
    + apply startsWith_app in H. rewrite H. reflexivity.
    + rewrite (IH H). apply orb_true_r.
Qed.

Lemma includes_self (s : jsstring) : includes s s = true.
Proof.
  assert (H : forall t : jsstring, startsWith t t = true).
  { induction t as [|c t IH]; simpl; [reflexivity|].
    rewrite N.eqb_refl. exact IH. }
  destruct s; simpl; [reflexivity|].
  rewrite N.eqb_refl, H. reflexivity.
Qed.

(** ** Trimming keeps a piece of the string *)

Lemma trimStart_suffix (s : jsstring) : exists a, s = a ++ trimStart s.
Proof.
  induction s as [|c s [a IH]]; simpl.
  - exists []. reflexivity.
  - destruct (is_ws c).
    + exists (c :: a). simpl. f_equal. exact IH.
    + exists []. reflexivity.
Qed.

Lemma trim_infix (s : jsstring) : exists a b, s = a ++ trim s ++ b.
Proof.
  unfold trim, trimEnd.
  destruct (trimStart_suffix s) as [a Ha].
  destruct (trimStart_suffix (rev (trimStart s))) as [b Hb].
  exists a, (rev b).
  rewrite <- rev_app_distr, <- Hb, rev_involutive. exact Ha.
Qed.

Lemma trim_length (s : jsstring) : (length (trim s) <= length s)%nat.
Proof.
  destruct (trim_infix s) as (a & b & H).
  rewrite H at 2. rewrite !length_app. lia.
Qed.

Lemma trim_Forall (P : N -> Prop) (s : jsstring) :
  Forall P s -> Forall P (trim s).
Proof.
  intros H. destruct (trim_infix s) as (a & b & E).
  rewrite E in H. apply Forall_app in H as [_ H].
  apply Forall_app in H as [H _]. exact H.
Qed.

Lemma trimStart_no_ws (s : jsstring) :
  forallb (fun u => negb (is_ws u)) s = true -> trimStart s = s.
Proof.
  destruct s as [|c s]; simpl; [reflexivity|].
  intros H. apply andb_true_iff in H as [H _].
  destruct (is_ws c); [discriminate|reflexivity].
Qed.

(** A string without white space is its own trimming. *)
Lemma trim_no_ws (s : jsstring) :
  forallb (fun u => negb (is_ws u)) s = true -> trim s = s.
Proof.
  intros H. unfold trim, trimEnd.
  rewrite (trimStart_no_ws s H), trimStart_no_ws, rev_involutive;
    [reflexivity|].
  rewrite forallb_forall in *. intros x Hx. apply H, in_rev, Hx.
Qed.

(** ** Trimming twice *)

Lemma trimStart_fixed (s : jsstring) :
  match s with [] => True | c :: _ => is_ws c = false end ->
  trimStart s = s.
Proof. destruct s as [|c s]; simpl; [reflexivity|]. intros ->. reflexivity. Qed.

Lemma trimStart_head (s : jsstring) :
  match trimStart s with [] => True | c :: _ => is_ws c = false end.
Proof.
  induction s as [|c s IH]; simpl; [exact I|].
  destruct (is_ws c) eqn:E; [exact IH|exact E].
Qed.

Lemma trimStart_idem (s : jsstring) : trimStart (trimStart s) = trimStart s.
Proof. apply trimStart_fixed, trimStart_head. Qed.

(** Trimming what is trimmed changes nothing. *)
Lemma trim_idem (s : jsstring) : trim (trim s) = trim s.
Proof.
  unfold trim, trimEnd.
  set (a := trimStart s).
  set (b := rev (trimStart (rev a))).
  assert (Hb : trimStart b = b).
  { apply trimStart_fixed.
    destruct (trimStart_suffix (rev a)) as [w Hw].
    assert (Ea : a = b ++ rev w).
    { unfold b. rewrite <- rev_app_distr, <- Hw, rev_involutive.
      reflexivity. }
    pose proof (trimStart_head s) as Ha. fold a in Ha.
    destruct b as [|c b']; [exact I|].
    rewrite Ea in Ha. exact Ha. }
  rewrite Hb. unfold b. rewrite rev_involutive, trimStart_idem. reflexivity.
Qed.

(* ================================================================== *)
(** * Code points and surrogates *)
(* ================================================================== *)

(** Settling the comparisons of a goal that the hypotheses decide. *)
Ltac decide_cmp :=
  repeat match goal with
  | |- context [?a <=? ?b] =>
    first [ replace (a <=? b) with true by (symmetry; apply N.leb_le; lia)
          | replace (a <=? b) with false by (symmetry; apply N.leb_gt; lia) ]
  | |- context [?a <? ?b] =>
    first [ replace (a <? b) with true by (symmetry; apply N.ltb_lt; lia)
          | replace (a <? b) with false by (symmetry; apply N.ltb_ge; lia) ]
  | |- context [?a =? ?b] =>
    first [ replace (a =? b) with true by (symmetry; apply N.eqb_eq; lia)
          | replace (a =? b) with false by (symmetry; apply N.eqb_neq; lia) ]
  end.

Lemma is_high_spec (u : N) : is_high u = true <-> 55296 <= u <= 56319.
Proof.
  unfold is_high. rewrite andb_true_iff, !N.leb_le. reflexivity.
Qed.

Lemma is_low_spec (u : N) : is_low u = true <-> 56320 <= u <= 57343.
Proof.
  unfold is_low. rewrite andb_true_iff, !N.leb_le. reflexivity.
Qed.

Lemma is_surrogate_spec (u : N) :
  is_surrogate u = true <-> 55296 <= u <= 57343.
Proof.
  unfold is_surrogate. rewrite orb_true_iff, is_high_spec, is_low_spec. lia.
Qed.

Lemma not_surrogate_high (u : N) : is_surrogate u = false -> is_high u = false.
Proof.
  unfold is_surrogate. intros H. apply orb_false_iff in H as [H _]. exact H.
Qed.

Lemma not_surrogate_low (u : N) : is_surrogate u = false -> is_low u = false.
Proof.
  unfold is_surrogate. intros H. apply orb_false_iff in H as [_ H]. exact H.
Qed.

Lemma high_not_low (u : N) : is_high u = true -> is_low u = false.
Proof.
  intros H. apply is_high_spec in H. unfold is_low. decide_cmp. reflexivity.
Qed.

(** White space is in the basic plane and is no surrogate. *)
Lemma is_ws_plain (u : N) :
  is_ws u = true -> u < 65536 /\ is_surrogate u = false.
Proof.
  intros H. destruct (N.ltb_spec u 55296) as [L|L].
  - split; [lia|]. unfold is_surrogate, is_high, is_low. decide_cmp.
    reflexivity.
  - destruct (N.eqb_spec u 65279) as [->|E]; [split; reflexivity|].
    exfalso. revert H. unfold is_ws. decide_cmp. discriminate.
Qed.

Lemma surrogate_not_ws (u : N) : is_surrogate u = true -> is_ws u = false.
Proof.
  intros H. destruct (is_ws u) eqn:W; [|reflexivity].
  apply is_ws_plain in W as [_ W]. congruence.
Qed.

Lemma units_of_unit (c : N) :
  c < 65536 \/ 1114111 < c -> units_of c = [c].
Proof. intros [H|H]; unfold units_of; decide_cmp; reflexivity. Qed.

Lemma units_of_pair (c : N) :
  65536 <= c <= 1114111 ->
  exists h l, units_of c = [h; l] /\ is_high h = true /\ is_low l = true
              /\ code_point h l = c.
Proof.
  intros H. unfold units_of. decide_cmp. cbn [andb].
  pose proof (N.Div0.div_mod (c - 65536) 1024) as D.
  pose proof (N.mod_upper_bound (c - 65536) 1024 ltac:(lia)) as M.
  assert (Q : (c - 65536) / 1024 < 1024).
  { apply N.Div0.div_lt_upper_bound. lia. }
  eexists. eexists. split; [reflexivity|].
  set (q := (c - 65536) / 1024) in *.
  set (r := (c - 65536) mod 1024) in *. clearbody q r.
  split; [|split].
  - apply is_high_spec. lia.
  - apply is_low_spec. lia.
  - unfold code_point. lia.
Qed.

Lemma code_point_astral (h l : N) :
  is_high h = true -> is_low l = true ->
  65536 <= code_point h l <= 1114111.
Proof.
  intros H L. apply is_high_spec in H. apply is_low_spec in L.
  unfold code_point. lia.
Qed.

Lemma units_of_code_point (h l : N) :
  is_high h = true -> is_low l = true -> units_of (code_point h l) = [h; l].
Proof.
  intros H L. pose proof (code_point_astral h l H L) as R.
  apply is_high_spec in H. apply is_low_spec in L.
  unfold units_of. decide_cmp. cbn [andb]. unfold code_point.
  replace (65536 + (h - 55296) * 1024 + (l - 56320) - 65536)
    with ((l - 56320) + (h - 55296) * 1024) by lia.
  rewrite N.div_add, N.Div0.mod_add by lia.
  rewrite N.div_small, N.mod_small by lia.
  f_equal; [|f_equal]; lia.
Qed.

(** ** The code points of a string *)

Lemma code_points_pair (h l : N) (s : jsstring) :
  is_high h && is_low l = true ->
  code_points (h :: l :: s) = code_point h l :: code_points s.
Proof. intros H. cbn [code_points]. rewrite H. reflexivity. Qed.

Lemma code_points_single (u : N) (s : jsstring) :
  is_high u && is_low (hd 0 s) = false ->
  code_points (u :: s) = u :: code_points s.
Proof.
  destruct s as [|l s]; [reflexivity|]. cbn [hd code_points].
  intros H. rewrite H. reflexivity.
Qed.

(** Induction along the code points of a string. *)
Lemma pairs_ind (P : jsstring -> Prop) :
  P [] ->
  (forall h l s, is_high h && is_low l = true -> P s -> P (h :: l :: s)) ->
  (forall u s, is_high u && is_low (hd 0 s) = false -> P s -> P (u :: s)) ->
  forall s, P s.
Proof.
  intros H0 H2 H1 s.
  assert (G : P s /\ forall u, P (u :: s)).
  { induction s as [|a s [IH1 IH2]].
    - split; [exact H0|]. intros u. apply H1; [|exact H0].
      cbn [hd]. apply andb_false_r.
    - split; [apply IH2|]. intros u.
      destruct (is_high u && is_low a) eqn:E.
      + apply H2; assumption.
      + apply H1; [exact E|apply IH2]. }
  exact (proj1 G).
Qed.

Lemma code_points_hd_low (s : jsstring) :
  is_low (hd 0 (code_points s)) = true -> is_low (hd 0 s) = true.
Proof.
  destruct s as [|h [|l s]]; cbn [code_points hd]; try (intros H; exact H).
  destruct (is_high h && is_low l) eqn:E; cbn [hd]; [|intros H; exact H].
  apply andb_true_iff in E as [Eh El].
  pose proof (code_point_astral h l Eh El) as R.
  intros H. apply is_low_spec in H. lia.
Qed.

Lemma code_points_unpaired (s : jsstring) : unpaired (code_points s) = true.
Proof.
  induction s as [|h l s E IH|u s E IH] using pairs_ind; [reflexivity| |].
  - rewrite (code_points_pair _ _ _ E). cbn [unpaired].
    apply andb_true_iff in E as [Eh El].
    pose proof (code_point_astral h l Eh El) as R.
    unfold is_high at 1. decide_cmp. exact IH.
  - rewrite (code_points_single _ _ E). cbn [unpaired]. rewrite IH.
    destruct (is_high u) eqn:Hu; [|reflexivity]. cbn [andb] in *.
    destruct (is_low (hd 0 (code_points s))) eqn:L; [|reflexivity].
    apply code_points_hd_low in L. congruence.
Qed.

Lemma of_code_points_hd_low (cs : list N) :
  is_low (hd 0 (of_code_points cs)) = is_low (hd 0 cs).
Proof.
  destruct cs as [|c cs]; [reflexivity|]. cbn [of_code_points flat_map hd].
  destruct (N.leb_spec 65536 c) as [A|A];
    [destruct (N.leb_spec c 1114111) as [B|B]|].
  - destruct (units_of_pair c (conj A B)) as (h & l & -> & H & _ & _).
    cbn [app hd]. rewrite (high_not_low h H).
    symmetry. unfold is_low. decide_cmp. reflexivity.
  - rewrite units_of_unit by lia. reflexivity.
  - rewrite units_of_unit by lia. reflexivity.
Qed.

(** Reading back the units of code points gives the code points. *)
Lemma code_points_of_code_points (cs : list N) :
  unpaired cs = true -> code_points (of_code_points cs) = cs.
Proof.
  induction cs as [|c cs IH]; [reflexivity|]. cbn [unpaired].
  intros H. apply andb_true_iff in H as [H1 H2].
  apply negb_true_iff in H1. specialize (IH H2).
  change (of_code_points (c :: cs)) with (units_of c ++ of_code_points cs).
  destruct (N.leb_spec 65536 c) as [A|A];
    [destruct (N.leb_spec c 1114111) as [B|B]|].
  - destruct (units_of_pair c (conj A B)) as (h & l & -> & H & L & E).
    cbn [app]. rewrite code_points_pair by (rewrite H, L; reflexivity).
    rewrite E, IH. reflexivity.
  - rewrite units_of_unit by lia. cbn [app].
    rewrite code_points_single, IH; [reflexivity|].
    rewrite of_code_points_hd_low. exact H1.
  - rewrite units_of_unit by lia. cbn [app].
    rewrite code_points_single, IH; [reflexivity|].
    rewrite of_code_points_hd_low. exact H1.
Qed.

Lemma code_points_snoc (s : jsstring) (c : N) :
  is_low c = false -> code_points (s ++ [c]) = code_points s ++ [c].
Proof.
  intros L.
  induction s as [|h l s E IH|u s E IH] using pairs_ind; [reflexivity| |].
  - cbn [app]. rewrite !(code_points_pair _ _ _ E), IH. reflexivity.
  - cbn [app]. rewrite (code_points_single _ _ E), code_points_single, IH;
      [reflexivity|].
    destruct s as [|a s]; cbn [app hd] in *; [|exact E].
    rewrite L. apply andb_false_r.
Qed.

(* ================================================================== *)
(** * The upper-case table *)
(* ================================================================== *)

Lemma points_from_In (n : nat) (first c : N) :
  first <= c < first + N.of_nat n -> In c (points_from n first).
Proof.
  revert first. induction n as [|n IH]; intros first H; [lia|].
  cbn [points_from]. destruct (N.eq_dec first c) as [E|E]; [left; exact E|].
  right. apply IH. lia.
Qed.

Lemma within_run_points (runs : list run) (c : N) :
  within runs c = true -> In c (run_points runs).
Proof.
  unfold within, run_points. intros H.
  apply existsb_exists in H as ([[[first last] step] image] & I & H).
  apply andb_true_iff in H as [H1 H2].
  apply N.leb_le in H1. apply N.leb_le in H2.
  apply in_flat_map. eexists. split; [exact I|].
  apply points_from_In. lia.
Qed.

Lemma run_lookup_outside (runs : list run) (c : N) :
  within runs c = false -> run_lookup runs c = None.
Proof.
  induction runs as [|[[[first last] step] image] rest IH];
    [reflexivity|].
  unfold within. cbn [existsb run_lookup]. intros H.
  apply orb_false_iff in H as [H1 H2].
  destruct (c <? first) eqn:A; [reflexivity|].
  apply N.ltb_ge in A. apply N.leb_le in A. rewrite A in H1.
  cbn [andb] in H1. rewrite H1. cbn [andb]. apply IH, H2.
Qed.

Lemma full_lookup_none (table : list (N * list N)) (c : N) :
  existsb (N.eqb c) (map fst table) = false -> full_lookup table c = None.
Proof.
  induction table as [|[k image] rest IH]; [reflexivity|].
  cbn [map fst existsb full_lookup]. intros H.
  apply orb_false_iff in H as [H1 H2]. rewrite H1.
  destruct (c <? k); [reflexivity|apply IH, H2].
Qed.

(** A code point that the tables do not mention is its own upper case. *)
Lemma upper_point_outside (c : N) :
  within upper_runs c = false ->
  existsb (N.eqb c) (map fst upper_full) = false ->
  upper_point c = [c].
Proof.
  intros H1 H2. unfold upper_point, case_of.
  rewrite (full_lookup_none _ _ H2), (run_lookup_outside _ _ H1).
  reflexivity.
Qed.

Lemma upper_table_ok :
  forallb upper_point_ok (run_points upper_runs ++ map fst upper_full) = true.
Proof. vm_compute. reflexivity. Qed.

Lemma upper_point_is_ok (c : N) : upper_point_ok c = true.
Proof.
  destruct (within upper_runs c) eqn:H1.
  { pose proof upper_table_ok as T. rewrite forallb_forall in T.
    apply T, in_or_app. left. apply within_run_points, H1. }
  destruct (existsb (N.eqb c) (map fst upper_full)) eqn:H2.
  { pose proof upper_table_ok as T. rewrite forallb_forall in T.
    apply T, in_or_app. right.
    apply existsb_exists in H2 as (k & I & E).
    apply N.eqb_eq in E. subst k. exact I. }
  pose proof (upper_point_outside c H1 H2) as E.
  unfold upper_point_ok, stable. rewrite E.
  cbn [forallb]. rewrite E, !str_eqb_refl.
  destruct (is_surrogate c); [reflexivity|].
  destruct (is_ws c); reflexivity.
Qed.

(** ** What the table does to one code point *)

Lemma upper_point_surrogate (c : N) :
  is_surrogate c = true -> upper_point c = [c].
Proof.
  intros S. pose proof (upper_point_is_ok c) as H.
  unfold upper_point_ok in H. rewrite S in H. apply str_eqb_eq, H.
Qed.

Lemma upper_point_scalar (c : N) :
  is_surrogate c = false ->
  upper_point c <> []
  /\ (forall t, In t (upper_point c) ->
                is_surrogate t = false /\ upper_point t = [t]).
Proof.
  intros S. pose proof (upper_point_is_ok c) as H.
  unfold upper_point_ok in H. rewrite S in H.
  apply andb_true_iff in H as [H _]. apply andb_true_iff in H as [H1 H2].
  split.
  - intros E. rewrite E in H1. discriminate.
  - intros t I. rewrite forallb_forall in H2. specialize (H2 t I).
    apply andb_true_iff in H2 as [A B]. apply negb_true_iff in A.
    split; [exact A|]. apply str_eqb_eq, B.
Qed.

Lemma upper_point_ws (c : N) : is_ws c = true -> upper_point c = [c].
Proof.
  intros W. pose proof (upper_point_is_ok c) as H.
  unfold upper_point_ok in H.
  rewrite (proj2 (is_ws_plain c W)), W in H.
  apply andb_true_iff in H as [_ H]. apply str_eqb_eq, H.
Qed.

Lemma upper_point_no_ws (c t : N) :
  is_ws c = false -> In t (upper_point c) -> is_ws t = false.
Proof.
  intros W I. pose proof (upper_point_is_ok c) as H.
  unfold upper_point_ok in H. destruct (is_surrogate c) eqn:S.
  - apply str_eqb_eq in H. rewrite H in I. destruct I as [<-|[]]. exact W.
  - rewrite W in H. apply andb_true_iff in H as [_ H].
    rewrite forallb_forall in H. apply negb_true_iff, H, I.
Qed.

(** Every code point of an upper case is its own upper case. *)
Lemma upper_point_fixed (c t : N) :
  In t (upper_point c) -> upper_point t = [t].
Proof.
  intros I. destruct (is_surrogate c) eqn:S.
  - rewrite (upper_point_surrogate c S) in I. destruct I as [<-|[]].
    apply upper_point_surrogate, S.
  - apply (proj2 (upper_point_scalar c S) t I).
Qed.

Lemma flat_map_fixed (f : N -> list N) (l : list N) :
  (forall t, In t l -> f t = [t]) -> flat_map f l = l.
Proof.
  induction l as [|t l IH]; intros H; [reflexivity|]. cbn [flat_map].
  rewrite (H t (or_introl eq_refl)), IH; [reflexivity|].
  intros x Hx. apply H. right. exact Hx.
Qed.

Lemma flat_map_upper_point_idem (cs : list N) :
  flat_map upper_point (flat_map upper_point cs) = flat_map upper_point cs.
Proof.
  induction cs as [|c cs IH]; [reflexivity|]. cbn [flat_map].
  rewrite flat_map_app, IH. f_equal.
  apply flat_map_fixed. intros t. apply upper_point_fixed.
Qed.

(** ** Upper-casing keeps the surrogates apart *)

Lemma flat_map_upper_point_hd_low (cs : list N) :
  is_low (hd 0 (flat_map upper_point cs)) = true -> is_low (hd 0 cs) = true.
Proof.
  destruct cs as [|c cs]; [intros H; exact H|]. cbn [flat_map hd].
  destruct (is_surrogate c) eqn:S.
  - rewrite (upper_point_surrogate c S). intros H. exact H.
  - destruct (upper_point_scalar c S) as [N1 N2].
    destruct (upper_point c) as [|t ts]; [congruence|]. cbn [app hd].
    destruct (N2 t (or_introl eq_refl)) as [St _].
    rewrite (not_surrogate_low t St). discriminate.
Qed.

Lemma unpaired_app (l r : list N) :
  forallb (fun t => negb (is_high t)) l = true ->
  unpaired r = true -> unpaired (l ++ r) = true.
Proof.
  intros H R. induction l as [|t l IH]; [exact R|].
  cbn [forallb] in H. apply andb_true_iff in H as [H1 H2].
  apply negb_true_iff in H1. cbn [app unpaired]. rewrite H1, (IH H2).
  reflexivity.
Qed.

Lemma flat_map_upper_point_unpaired (cs : list N) :
  unpaired cs = true -> unpaired (flat_map upper_point cs) = true.
Proof.
  induction cs as [|c cs IH]; [reflexivity|]. cbn [unpaired flat_map].
  intros H. apply andb_true_iff in H as [H1 H2]. specialize (IH H2).
  destruct (is_surrogate c) eqn:S.
  - rewrite (upper_point_surrogate c S). cbn [app unpaired]. rewrite IH.
    destruct (is_high c) eqn:Hc; [|reflexivity]. cbn [andb negb] in *.
    destruct (is_low (hd 0 (flat_map upper_point cs))) eqn:L; [|reflexivity].
    apply flat_map_upper_point_hd_low in L. rewrite L in H1. discriminate.
  - apply unpaired_app; [|exact IH]. apply forallb_forall. intros t I.
    destruct (proj2 (upper_point_scalar c S) t I) as [St _].
    rewrite (not_surrogate_high t St). reflexivity.
Qed.

(** Upper-casing twice is upper-casing once. *)
Lemma toUpperCase_idem (s : jsstring) :
  toUpperCase (toUpperCase s) = toUpperCase s.
Proof.
  unfold toUpperCase.
  rewrite code_points_of_code_points
    by apply flat_map_upper_point_unpaired, code_points_unpaired.
  rewrite flat_map_upper_point_idem. reflexivity.
Qed.

(** ** Upper-casing unit by unit *)

Lemma toUpperCase_pair (h l : N) (s : jsstring) :
  is_high h && is_low l = true ->
  toUpperCase (h :: l :: s)
  = of_code_points (upper_point (code_point h l)) ++ toUpperCase s.
Proof.
  intros E. unfold toUpperCase, of_code_points.
  rewrite (code_points_pair _ _ _ E). cbn [flat_map].
  apply flat_map_app.
Qed.

Lemma toUpperCase_single (u : N) (s : jsstring) :
  is_high u && is_low (hd 0 s) = false ->
  toUpperCase (u :: s) = of_code_points (upper_point u) ++ toUpperCase s.
Proof.
  intros E. unfold toUpperCase, of_code_points.
  rewrite (code_points_single _ _ E). cbn [flat_map].
  apply flat_map_app.
Qed.

Lemma toUpperCase_snoc (s : jsstring) (c : N) :
  is_low c = false ->
  toUpperCase (s ++ [c]) = toUpperCase s ++ of_code_points (upper_point c).
Proof.
  intros L. unfold toUpperCase, of_code_points.
  rewrite (code_points_snoc _ _ L), !flat_map_app. cbn [flat_map].
  rewrite !app_nil_r. reflexivity.
Qed.

Lemma units_of_no_ws (t : N) :
  is_ws t = false ->
  units_of t <> [] /\ forallb (fun u => negb (is_ws u)) (units_of t) = true.
Proof.
  intros W.
  destruct (N.leb_spec 65536 t) as [A|A];
    [destruct (N.leb_spec t 1114111) as [B|B]|].
  - destruct (units_of_pair t (conj A B)) as (h & l & -> & H & L & _).
    split; [discriminate|]. cbn [forallb].
    rewrite !surrogate_not_ws; [reflexivity| |]; unfold is_surrogate.
    + rewrite L. apply orb_true_r.
    + rewrite H. reflexivity.
  - rewrite units_of_unit by lia. split; [discriminate|].
    cbn [forallb]. rewrite W. reflexivity.
  - rewrite units_of_unit by lia. split; [discriminate|].
    cbn [forallb]. rewrite W. reflexivity.
Qed.

(** The upper case of white space is that white space. *)
Lemma upper_units_ws (c : N) :
  is_ws c = true -> of_code_points (upper_point c) = [c].
Proof.
  intros W. rewrite (upper_point_ws c W). cbn [of_code_points flat_map].
  rewrite units_of_unit, app_nil_r; [reflexivity|].
  left. apply is_ws_plain, W.
Qed.

(** The upper case of anything else is not empty and holds no white
    space. *)
Lemma upper_units_no_ws (c : N) :
  is_ws c = false ->
  of_code_points (upper_point c) <> []
  /\ forallb (fun u => negb (is_ws u)) (of_code_points (upper_point c)) = true.
Proof.
  intros W.
  assert (N1 : upper_point c <> []).
  { destruct (is_surrogate c) eqn:S.
    - rewrite (upper_point_surrogate c S). discriminate.
    - apply upper_point_scalar, S. }
  pose proof (upper_point_no_ws c) as N2.
  destruct (upper_point c) as [|t ts]; [congruence|]. split.
  - cbn [of_code_points flat_map].
    destruct (units_of_no_ws t (N2 t W (or_introl eq_refl))) as [E _].
    destruct (units_of t); [congruence|discriminate].
  - unfold of_code_points. apply forallb_forall. intros u I.
    apply in_flat_map in I as (x & Ix & Iu).
    destruct (units_of_no_ws x (N2 x W Ix)) as [_ F].
    rewrite forallb_forall in F. apply F, Iu.
Qed.

Lemma code_point_not_ws (h l : N) :
  is_high h && is_low l = true -> is_ws (code_point h l) = false.
Proof.
  intros E. apply andb_true_iff in E as [H L].
  pose proof (code_point_astral h l H L) as R.
  destruct (is_ws (code_point h l)) eqn:W; [|reflexivity].
  apply is_ws_plain in W as [W _]. lia.
Qed.

(** ** Trimming and upper-casing *)

Lemma trimStart_toUpperCase (s : jsstring) :
  trimStart (toUpperCase s) = toUpperCase (trimStart s).
Proof.
  induction s as [|c s IH]; [reflexivity|]. cbn [trimStart].
  destruct (is_ws c) eqn:W.
  - rewrite toUpperCase_single, (upper_units_ws c W).
    + cbn [app trimStart]. rewrite W. exact IH.
    + rewrite (not_surrogate_high c (proj2 (is_ws_plain c W))). reflexivity.
  - apply trimStart_fixed.
    assert (G : forall b t : jsstring,
               b <> [] -> forallb (fun u => negb (is_ws u)) b = true ->
               match b ++ t with [] => True | u :: _ => is_ws u = false end).
    { intros [|u b] t N F; [congruence|]. cbn [app].
      cbn [forallb] in F. apply andb_true_iff in F as [F _].
      apply negb_true_iff, F. }
    destruct (is_high c && is_low (hd 0 s)) eqn:E.
    + destruct s as [|l s]; [rewrite andb_false_r in E; discriminate|].
      cbn [hd] in E. rewrite (toUpperCase_pair _ _ _ E).
      apply G; apply upper_units_no_ws, code_point_not_ws, E.
    + rewrite (toUpperCase_single _ _ E).
      apply G; apply upper_units_no_ws, W.
Qed.

Lemma last_app_r {A : Type} (l r : list A) (d : A) :
  r <> [] -> last (l ++ r) d = last r d.
Proof.
  intros N. induction l as [|a l IH]; [reflexivity|].
  cbn [app]. destruct (l ++ r) eqn:E.
  - apply app_eq_nil in E as [_ E]. congruence.
  - rewrite <- IH. reflexivity.
Qed.

Lemma last_no_ws (b : jsstring) :
  b <> [] -> forallb (fun u => negb (is_ws u)) b = true ->
  is_ws (last b 32) = false.
Proof.
  intros N F. destruct (exists_last N) as (b' & u & ->).
  rewrite last_last. rewrite forallb_app in F.
  apply andb_true_iff in F as [_ F]. cbn [forallb] in F.
  apply andb_true_iff in F as [F _]. apply negb_true_iff, F.
Qed.

Lemma last_ws_nonempty (s : jsstring) : is_ws (last s 32) = false -> s <> [].
Proof. intros H E. subst s. cbn in H. discriminate. Qed.

(** A string that ends in something else than white space has an upper
    case that does. *)
Lemma last_toUpperCase (s : jsstring) :
  is_ws (last s 32) = false -> is_ws (last (toUpperCase s) 32) = false.
Proof.
  assert (E0 : toUpperCase [] = []) by reflexivity.
  assert (G : forall (b : jsstring) (a : N) (s' : jsstring),
             is_ws (last (toUpperCase (a :: s')) 32) = false ->
             is_ws (last (b ++ toUpperCase (a :: s')) 32) = false).
  { intros b a s' H. rewrite last_app_r; [exact H|].
    apply last_ws_nonempty, H. }
  induction s as [|h l s E IH|u s E IH] using pairs_ind.
  - intros H. exact H.
  - intros H. rewrite (toUpperCase_pair _ _ _ E). destruct s as [|a s].
    + rewrite E0, app_nil_r.
      apply last_no_ws; apply upper_units_no_ws, code_point_not_ws, E.
    + apply G, IH. exact H.
  - intros H. rewrite (toUpperCase_single _ _ E). destruct s as [|a s].
    + rewrite E0, app_nil_r. cbn [last] in H.
      apply last_no_ws; apply upper_units_no_ws, H.
    + apply G, IH. exact H.
Qed.

Lemma trimEnd_fixed (s : jsstring) :
  is_ws (last s 32) = false -> trimEnd s = s.
Proof.
  intros H. destruct (exists_last (last_ws_nonempty s H)) as (s' & u & ->).
  rewrite last_last in H. unfold trimEnd.
  rewrite rev_unit. cbn [trimStart]. rewrite H.
  rewrite <- rev_unit. apply rev_involutive.
Qed.

Lemma trimEnd_snoc_ws (s : jsstring) (c : N) :
  is_ws c = true -> trimEnd (s ++ [c]) = trimEnd s.
Proof.
  intros W. unfold trimEnd. rewrite rev_unit. cbn [trimStart].
  rewrite W. reflexivity.
Qed.

Lemma trimEnd_toUpperCase (s : jsstring) :
  trimEnd (toUpperCase s) = toUpperCase (trimEnd s).
Proof.
  induction s as [|c s IH] using rev_ind; [reflexivity|].
  destruct (is_ws c) eqn:W.
  - rewrite toUpperCase_snoc, (upper_units_ws c W), !trimEnd_snoc_ws, IH;
      try reflexivity; try exact W.
    apply not_surrogate_low, is_ws_plain, W.
  - assert (L : is_ws (last (s ++ [c]) 32) = false)
      by (rewrite last_last; exact W).
    rewrite (trimEnd_fixed _ L). apply trimEnd_fixed, last_toUpperCase, L.
Qed.

(** Trimming and upper-casing can be done in either order. *)
Lemma trim_toUpperCase (s : jsstring) :
  trim (toUpperCase s) = toUpperCase (trim s).
Proof.
  unfold trim. rewrite trimStart_toUpperCase. apply trimEnd_toUpperCase.
Qed.

(** Upper-casing the trimmed upper case of a string changes nothing: what
    [detectCourier] does to an argument that [GET] and [POST] have already
    upper-cased. *)
Lemma toUpperCase_trim_toUpperCase (s : jsstring) :
  toUpperCase (trim (toUpperCase s)) = trim (toUpperCase s).
Proof. rewrite trim_toUpperCase. apply toUpperCase_idem. Qed.

Lemma toUpperCase_trim_length (s : jsstring) :
  (length (toUpperCase (trim s)) <= length (toUpperCase s))%nat.
Proof. rewrite <- trim_toUpperCase. apply trim_length. Qed.

(** What [POST] passes on is a fixed point of the normalization. *)
Lemma normalize_idem (s : jsstring) :
  toUpperCase (trim (toUpperCase (trim s))) = toUpperCase (trim s).
Proof. rewrite trim_toUpperCase, trim_idem. apply toUpperCase_idem. Qed.

(** ** Digits and capitals *)

Lemma word_units_plain :
  forallb (fun u => implb (word_unit u) (stable u && negb (is_ws u)))
          (points_from 91 0) = true.
Proof. vm_compute. reflexivity. Qed.

Lemma word_unit_plain (u : N) :
  word_unit u = true -> stable u = true /\ is_ws u = false.
Proof.
  intros H.
  assert (Hu : u < 91).
  { unfold word_unit in H.
    apply orb_true_iff in H as [H|H]; apply andb_true_iff in H as [_ H];
      apply N.leb_le in H; lia. }
  pose proof word_units_plain as G. rewrite forallb_forall in G.
  specialize (G u (points_from_In 91 0 u ltac:(lia))).
  rewrite H in G. cbn [implb] in G. apply andb_true_iff in G as [G1 G2].
  split; [exact G1|]. apply negb_true_iff, G2.
Qed.

Lemma toUpperCase_word (s : jsstring) :
  forallb word_unit s = true -> toUpperCase s = s.
Proof.
  induction s as [|u s IH]; [reflexivity|]. cbn [forallb].
  intros H. apply andb_true_iff in H as [Hu Hs].
  destruct (word_unit_plain u Hu) as [A _]. apply str_eqb_eq in A.
  assert (B : u < 91).
  { unfold word_unit in Hu.
    apply orb_true_iff in Hu as [Hu|Hu]; apply andb_true_iff in Hu as [_ Hu];
      apply N.leb_le in Hu; lia. }
  rewrite toUpperCase_single, A, (IH Hs).
  - cbn [of_code_points flat_map]. rewrite units_of_unit by lia. reflexivity.
  - unfold is_high. decide_cmp. reflexivity.
Qed.

(** Trimming and upper-casing leave a string of digits and capitals as it
    is. *)
Lemma normalize_word (s : jsstring) :
  forallb word_unit s = true -> toUpperCase (trim s) = s.
Proof.
  intros H. rewrite trim_no_ws; [apply toUpperCase_word, H|].
  rewrite forallb_forall in *. intros u Hu.
  rewrite (proj2 (word_unit_plain u (H u Hu))). reflexivity.
Qed.

(* ================================================================== *)
(** * Facts about the patterns and the detector *)
(* ================================================================== *)

Lemma test_cut (a : atom) (r : regex) (s : jsstring) :
  test (a :: r) s = true <->
  exists n, (a_min a <= n <= a_max a)%nat /\ (n <= length s)%nat
            /\ forallb (in_cls (a_cls a)) (firstn n s) = true
            /\ test r (skipn n s) = true.
Proof.
  cbn [test]. rewrite existsb_exists. split.
  - intros (n & Hn & H). apply in_seq in Hn.
    apply andb_true_iff in H as [H H3]. apply andb_true_iff in H as [H1 H2].
    apply Nat.leb_le in H1. exists n. repeat split; try assumption; lia.
  - intros (n & Hn & H1 & H2 & H3). exists n. split; [apply in_seq; lia|].
    apply Nat.leb_le in H1. rewrite H1, H2, H3. reflexivity.
Qed.

(** A matched string is as long as the counts of the pattern allow. *)
Lemma test_length (r : regex) (s : jsstring) :
  test r s = true -> (min_length r <= length s <= max_length r)%nat.
Proof.
  revert s. induction r as [|a r IH]; intros s H.
  - destruct s; [cbv; lia|discriminate].
  - apply test_cut in H as (n & Hn & Hl & _ & Ht).
    apply IH in Ht. rewrite length_skipn in Ht.
    unfold min_length, max_length in *. simpl. lia.
Qed.

(** Every unit of a matched string is in the class of some atom. *)
Lemma test_units (P : N -> bool) (r : regex) (s : jsstring) :
  (forall a u, In a r -> in_cls (a_cls a) u = true -> P u = true) ->
  test r s = true -> forallb P s = true.
Proof.
  revert s. induction r as [|a r IH]; intros s HP H.
  - destruct s; [reflexivity|discriminate].
  - apply test_cut in H as (n & _ & _ & Hc & Ht).
    rewrite <- (firstn_skipn n s), forallb_app. apply andb_true_iff. split.
    + rewrite forallb_forall in *. intros u Hu.
      apply (HP a u); [left; reflexivity|apply Hc, Hu].
    + apply IH; [|exact Ht]. intros b u Hb. apply HP. right. exact Hb.
Qed.

(** A pattern whose first atom takes at least one unit fixes the class of
    the first unit. *)
Lemma test_head (a : atom) (r : regex) (s : jsstring) :
  (1 <= a_min a)%nat -> test (a :: r) s = true ->
  exists c s', s = c :: s' /\ in_cls (a_cls a) c = true.
Proof.
  intros Ha H. apply test_cut in H as (n & Hn & Hl & Hc & _).
  destruct s as [|c s']; [simpl in Hl; lia|].
  exists c, s'. split; [reflexivity|].
  destruct n as [|n]; [lia|]. simpl in Hc.
  apply andb_true_iff in Hc as [Hc _]. exact Hc.
Qed.

Lemma cls_disjoint_sound (k1 k2 : cls) (u : N) :
  cls_disjoint k1 k2 = true ->
  in_cls k1 u = true -> in_cls k2 u = true -> False.
Proof.
  destruct k1 as [c| |], k2 as [d| |]; simpl; intros H H1 H2;
    try discriminate;
    repeat match goal with
    | E : (_ =? _) = true |- _ => apply N.eqb_eq in E; subst
    | E : _ && _ = true |- _ => apply andb_true_iff in E as [? ?]
    | E : negb _ = true |- _ => apply negb_true_iff in E
    | E : (_ <=? _) = true |- _ => apply N.leb_le in E
    end;
    try lia;
    try (rewrite N.eqb_refl in *; discriminate);
    try (apply andb_false_iff in H as [H|H]; apply N.leb_gt in H; lia).
Qed.

Lemma apart_sound (r1 r2 : regex) (s : jsstring) :
  apart r1 r2 = true -> test r1 s = true -> test r2 s = true -> False.
Proof.
  intros H H1 H2. unfold apart in H.
  pose proof (test_length _ _ H1) as L1.
  pose proof (test_length _ _ H2) as L2.
  apply orb_true_iff in H as [H|H];
    [apply orb_true_iff in H as [H|H]; apply Nat.ltb_lt in H; lia|].
  destruct r1 as [|a1 r1]; [discriminate|].
  destruct r2 as [|a2 r2]; [discriminate|].
  apply andb_true_iff in H as [H Hd]. apply andb_true_iff in H as [Ha1 Ha2].
  apply Nat.leb_le in Ha1, Ha2.
  destruct (test_head _ _ _ Ha1 H1) as (c & s' & E & Hc).
  destruct (test_head _ _ _ Ha2 H2) as (c' & s'' & E' & Hc').
  rewrite E in E'. injection E' as <- _.
  exact (cls_disjoint_sound _ _ _ Hd Hc Hc').
Qed.

(** ** The detector *)

Lemma detect_patterns_find (code : jsstring) (ps : list regex) (tn : jsstring)
    (rest : list (jsstring * regex)) :
  option_map fst
    (find (fun cr => test (snd cr) tn) (map (pair code) ps ++ rest))
  = match detect_patterns code ps tn with
    | Some c => Some c
    | None => option_map fst (find (fun cr => test (snd cr) tn) rest)
    end.
Proof.
  induction ps as [|p ps IH]; simpl; [reflexivity|].
  destruct (test p tn); [reflexivity|exact IH].
Qed.

(** The two loops return the carrier of the first rule that matches. *)
Lemma detect_entries_find (entries : list (jsstring * Courier))
    (tn : jsstring) :
  detect_entries entries tn
  = option_map fst (find (fun cr => test (snd cr) tn) (rules_of entries)).
Proof.
  induction entries as [|[code c] rest IH]; simpl; [reflexivity|].
  unfold rules_of in *. rewrite detect_patterns_find, IH. reflexivity.
Qed.

Lemma detect_patterns_matches (code : jsstring) (c : Courier)
    (tn : jsstring) :
  detect_patterns code (patterns c) tn
  = if matches c tn then Some code else None.
Proof.
  unfold matches. induction (patterns c) as [|p ps IH]; simpl; [reflexivity|].
  destruct (test p tn); [reflexivity|exact IH].
Qed.

(** The outcome, carrier by carrier: the first one with a matching rule. *)
Lemma detect_entries_split (entries : list (jsstring * Courier))
    (tn code : jsstring) :
  detect_entries entries tn = Some code <->
  exists pre c post,
    entries = pre ++ (code, c) :: post
    /\ matches c tn = true
    /\ forall e, In e pre -> matches (snd e) tn = false.
Proof.
  induction entries as [|[code' c'] rest IH]; simpl.
  - split; [discriminate|]. intros (pre & c & post & E & _).
    destruct pre; discriminate.
  - rewrite detect_patterns_matches.
    destruct (matches c' tn) eqn:M.
    + split.
      * intros [= <-]. exists [], c', rest. repeat split; [exact M|].
        intros e [].
      * intros (pre & c & post & E & Hc & Hpre).
        destruct pre as [|e pre]; simpl in E.
        -- injection E as -> _ _. reflexivity.
        -- injection E as <- _. specialize (Hpre _ (or_introl eq_refl)).
           simpl in Hpre. congruence.
    + rewrite IH. split.
      * intros (pre & c & post & E & Hc & Hpre).
        exists ((code', c') :: pre), c, post. simpl. rewrite E.
        repeat split; [exact Hc|].
        intros e [<-|He]; [exact M|apply Hpre, He].
      * intros (pre & c & post & E & Hc & Hpre).
        destruct pre as [|e pre]; simpl in E.
        -- injection E as _ -> _. congruence.
        -- injection E as _ ->. exists pre, c, post.
           repeat split; [exact Hc|]. intros e' He'. apply Hpre. right.
           exact He'.
Qed.

Lemma detect_entries_none (entries : list (jsstring * Courier))
    (tn : jsstring) :
  (forall e, In e entries -> matches (snd e) tn = false) ->
  detect_entries entries tn = None.
Proof.
  induction entries as [|[code c] rest IH]; simpl; intros H; [reflexivity|].
  rewrite detect_patterns_matches.
  pose proof (H (code, c) (or_introl eq_refl)) as M. simpl in M. rewrite M.
  apply IH. intros e He. apply H. right. exact He.
Qed.

(** ** The registry *)

Lemma cls_word_sound (k : cls) (u : N) :
  cls_word k = true -> in_cls k u = true -> word_unit u = true.
Proof.
  unfold word_unit. destruct k as [c| |]; simpl; intros Hk Hu.
  - apply N.eqb_eq in Hu. subst u. exact Hk.
  - rewrite Hu. reflexivity.
  - rewrite Hu. apply orb_true_r.
Qed.

(** The patterns of the registry accept digits and capitals only. *)
Lemma registry_words :
  forallb (fun e => forallb (forallb (fun a => cls_word (a_cls a)))
                            (patterns (snd e))) COURIERS = true.
Proof. vm_compute. reflexivity. Qed.

(** No pattern of the registry accepts fewer than ten units. *)
Lemma registry_min_length :
  forallb (fun e => forallb (fun r => 10 <=? min_length r)%nat
                            (patterns (snd e))) COURIERS = true.
Proof. vm_compute. reflexivity. Qed.

Lemma matches_word (e : jsstring * Courier) (s : jsstring) :
  In e COURIERS -> matches (snd e) s = true -> forallb word_unit s = true.
Proof.
  intros He H. unfold matches in H. apply existsb_exists in H as (r & Hr & H).
  pose proof registry_words as W. rewrite forallb_forall in W.
  specialize (W e He). rewrite forallb_forall in W. specialize (W r Hr).
  rewrite forallb_forall in W.
  apply (test_units word_unit r s); [|exact H].
  intros a u Ha. apply cls_word_sound, W, Ha.
Qed.

Lemma matches_min_length (e : jsstring * Courier) (s : jsstring) :
  In e COURIERS -> matches (snd e) s = true -> (10 <= length s)%nat.
Proof.
  intros He H. unfold matches in H. apply existsb_exists in H as (r & Hr & H).
  pose proof registry_min_length as W. rewrite forallb_forall in W.
  specialize (W e He). rewrite forallb_forall in W. specialize (W r Hr).
  apply Nat.leb_le in W. apply test_length in H. lia.
Qed.

(** A string shorter than ten units is nobody's. *)
Lemma detect_entries_short (tn : jsstring) :
  (length tn < 10)%nat -> detect_entries COURIERS tn = None.
Proof.
  intros H. apply detect_entries_none. intros e He.
  destruct (matches (snd e) tn) eqn:M; [|reflexivity].
  apply (matches_min_length e tn He) in M. lia.
Qed.

Lemma couriers_apart_sound (c1 c2 : Courier) (s : jsstring) :
  couriers_apart c1 c2 = true ->
  matches c1 s = true -> matches c2 s = true -> False.
Proof.
  unfold couriers_apart, matches. intros H H1 H2.
  apply existsb_exists in H1 as (r1 & Hr1 & T1).
  apply existsb_exists in H2 as (r2 & Hr2 & T2).
  rewrite forallb_forall in H. specialize (H r1 Hr1).
  rewrite forallb_forall in H. specialize (H r2 Hr2).
  exact (apart_sound r1 r2 s H T1 T2).
Qed.

(** Of two carriers of the registry that a string both belongs to, the
    one declared first is the one the loops return. *)
Lemma detect_entries_earlier (s : jsstring) (i j : nat)
    (ci cj : jsstring * Courier) :
  (i < j)%nat ->
  nth_error COURIERS i = Some ci -> nth_error COURIERS j = Some cj ->
  matches (snd ci) s = true -> matches (snd cj) s = true ->
  detect_entries COURIERS s = Some (fst ci).
Proof.
  intros Hij Hi Hj Mi Mj.
  assert (Hj6 : (j < 6)%nat).
  { apply (proj1 (nth_error_Some COURIERS j)). congruence. }
  destruct i as [|[|[|[|[|i]]]]]; try lia;
    destruct j as [|[|[|[|[|[|j]]]]]]; try lia;
    cbn in Hi, Hj; injection Hi as <-; injection Hj as <-;
    cbn [fst snd] in *;
    unfold COURIERS; cbn [detect_entries];
    rewrite !detect_patterns_matches;
    repeat match goal with
    | |- context [if matches ?c s then _ else _] =>
      lazymatch goal with
      | H : matches c s = true |- _ => rewrite H
      | _ =>
        destruct (matches c s) eqn:?;
        [ exfalso;
          match goal with
          | Hk : matches ?a s = true, Hl : matches ?b s = true |- _ =>
            exact (couriers_apart_sound a b s
                     ltac:(vm_compute; reflexivity) Hk Hl)
          end
        | ]
      end
    end;
    reflexivity.
Qed.

Lemma test_digits_10 (s : jsstring) (hi : nat) :
  length s = 10%nat -> (10 <= hi)%nat -> forallb is_digit s = true ->
  test [digits 10 hi] s = true.
Proof.
  intros L Hhi D. apply test_cut. exists 10%nat. cbn [digits a_min a_max a_cls].
  assert (F : firstn 10 s = s) by (rewrite <- L; apply firstn_all).
  assert (S : skipn 10 s = []) by (rewrite <- L; apply skipn_all).
  rewrite F, S. repeat split; try lia. exact D.
Qed.

(* ================================================================== *)
(** * Reasoning about computations *)
(* ================================================================== *)

Lemma Settled_ret {A : Type} (P : A -> Prop) (Q : thrown -> Prop) (a : A) :
  P a -> Settled P Q (Ret a).
Proof. intros H. left. exists a. split; [reflexivity|exact H]. Qed.

Lemma Settled_throw {A : Type} (P : A -> Prop) (Q : thrown -> Prop)
    (e : thrown) :
  Q e -> Settled P Q (Throw e).
Proof. intros H. right. exists e. split; [reflexivity|exact H]. Qed.

Section Computations.

Context {A B : Type}.

Lemma Settled_await (o : thrown + A) : Settled anything anything (await o).
Proof.
  destruct o; [apply Settled_throw|apply Settled_ret]; exact I.
Qed.

Lemma Settled_bind (P : A -> Prop) (P' : B -> Prop) (Q : thrown -> Prop)
    (m : Prog A) (f : A -> Prog B) :
  Settled P Q m -> (forall a, P a -> Settled P' Q (f a)) ->
  Settled P' Q (bind m f).
Proof.
  intros [(a & -> & Ha)|(e & -> & He)] Hf; simpl.
  - apply Hf, Ha.
  - apply Settled_throw, He.
Qed.

Lemma Settled_try_catch (P : A -> Prop) (Q Q' : thrown -> Prop)
    (m : Prog A) (h : thrown -> Prog A) :
  Settled P Q m -> (forall e, Q e -> Settled P Q' (h e)) ->
  Settled P Q' (try_catch m h).
Proof.
  intros [(a & -> & Ha)|(e & -> & He)] Hh; simpl.
  - apply Settled_ret, Ha.
  - apply Hh, He.
Qed.

Lemma Settled_returns (P : A -> Prop) (p : Prog A) :
  Settled P nothing p -> exists a, p = Ret a /\ P a.
Proof. intros [H|(e & _ & [])]. exact H. Qed.

Lemma Settled_Outcomes (P : A -> Prop) (Q : thrown -> Prop) (p : Prog A) :
  Settled P Q p -> Outcomes P Q p.
Proof.
  intros [(a & -> & Ha)|(e & -> & He)]; [apply O_Ret|apply O_Throw];
    assumption.
Qed.

Lemma Outcomes_weaken (P P' : A -> Prop) (Q Q' : thrown -> Prop)
    (p : Prog A) :
  (forall a, P a -> P' a) -> (forall e, Q e -> Q' e) ->
  Outcomes P Q p -> Outcomes P' Q' p.
Proof.
  intros HP HQ H. induction H as [a Ha|e He|rq k _ IH].
  - apply O_Ret, HP, Ha.
  - apply O_Throw, HQ, He.
  - apply O_Fetch, IH.
Qed.

Lemma Outcomes_bind (P : A -> Prop) (P' : B -> Prop) (Q : thrown -> Prop)
    (m : Prog A) (f : A -> Prog B) :
  Outcomes P Q m -> (forall a, P a -> Outcomes P' Q (f a)) ->
  Outcomes P' Q (bind m f).
Proof.
  intros H Hf. induction H as [a Ha|e He|rq k _ IH]; simpl.
  - apply Hf, Ha.
  - apply O_Throw, He.
  - apply O_Fetch, IH.
Qed.

Lemma Outcomes_try_catch (P : A -> Prop) (Q Q' : thrown -> Prop)
    (m : Prog A) (h : thrown -> Prog A) :
  Outcomes P Q m -> (forall e, Q e -> Outcomes P Q' (h e)) ->
  Outcomes P Q' (try_catch m h).
Proof.
  intros H Hh. induction H as [a Ha|e He|rq k _ IH]; simpl.
  - apply O_Ret, Ha.
  - apply Hh, He.
  - apply O_Fetch, IH.
Qed.

(** Every run ends, in a value in [P] or a thrown value in [Q]. *)
Lemma Outcomes_interp (P : A -> Prop) (Q : thrown -> Prop) (p : Prog A)
    (W : Type) (net : Request -> W -> (thrown + Response) * W) (w : W) :
  Outcomes P Q p ->
  match fst (interp net p w) with
  | inr a => P a
  | inl e => Q e
  end.
Proof.
  intros H. revert w. induction H as [a Ha|e He|rq k _ IH]; intros w; simpl.
  - exact Ha.
  - exact He.
  - destruct (net rq w) as [o w']. apply IH.
Qed.

Lemma Outcomes_returns (P : A -> Prop) (p : Prog A)
    (W : Type) (net : Request -> W -> (thrown + Response) * W) (w : W) :
  Outcomes P nothing p ->
  exists a, fst (interp net p w) = inr a /\ P a.
Proof.
  intros H. pose proof (Outcomes_interp P nothing p W net w H) as R.
  destruct (fst (interp net p w)) as [e|a]; [destruct R|].
  exists a. split; [reflexivity|exact R].
Qed.

Lemma interp_bind (m : Prog A) (f : A -> Prog B)
    (W : Type) (net : Request -> W -> (thrown + Response) * W) (w : W) :
  interp net (bind m f) w
  = match interp net m w with
    | (inr a, w') => interp net (f a) w'
    | (inl e, w') => (inl e, w')
    end.
Proof.
  revert w. induction m as [a|e|rq k IH]; intros w; simpl; try reflexivity.
  destruct (net rq w) as [o w']. apply IH.
Qed.

End Computations.

(* ================================================================== *)
(** * The fetchers *)
(* ================================================================== *)

Lemma well_formed_intro (r : TrackingResult) :
  latestEvent r = get (events r) (lit "0") -> well_formed r.
Proof.
  intros H. split; [exact H|]. split.
  - intros e rest E. rewrite H, E. reflexivity.
  - destruct (statusCategory r); simpl; tauto.
Qed.

Lemma get_first (items : list json) :
  get (JArr items) (lit "0") = nth_error items 0.
Proof. destruct items; reflexivity. Qed.

Lemma num_of_nat_positive (n : nat) :
  num_is_positive (num_of_nat (S n)) = true.
Proof.
  unfold num_is_positive, num_of_nat, Qle_bool, inject_Z. cbn [Qnum Qden].
  apply negb_true_iff, Z.leb_gt. lia.
Qed.

Section Fetchers.

Variable rt : Runtime.

Lemma Settled_member (expression : string) (v : jsval) (k : jsstring) :
  Settled anything anything (member rt expression v k).
Proof.
  destruct v as [[]|]; simpl;
    first [apply Settled_ret|apply Settled_throw]; exact I.
Qed.

Lemma Settled_gt_zero (v : jsval) : Settled anything anything (gt_zero rt v).
Proof.
  destruct v as [[]|]; simpl;
    first [apply Settled_ret; exact I|apply Settled_await].
Qed.

Lemma Settled_call_translateStatus (v : json) :
  Settled anything anything (call_translateStatus rt v).
Proof.
  destruct v; simpl; first [apply Settled_ret|apply Settled_throw]; exact I.
Qed.

Lemma Settled_call_split (v : jsval) :
  Settled anything anything (call_split rt v).
Proof.
  destruct v as [[]|]; simpl;
    first [apply Settled_ret|apply Settled_throw]; exact I.
Qed.

Lemma Settled_boxnow_event (e : json) :
  Settled anything anything (boxnow_event rt e).
Proof.
  unfold boxnow_event.
  eapply Settled_bind; [apply Settled_member|intros createTime _].
  eapply Settled_bind; [apply Settled_call_split|intros pieces _].
  apply Settled_ret. exact I.
Qed.

Lemma Settled_map_events (items : list json) :
  Settled anything anything (map_events rt items).
Proof.
  induction items as [|e rest IH]; cbn [map_events].
  - apply Settled_ret. exact I.
  - eapply Settled_bind; [apply Settled_boxnow_event|intros x _].
    eapply Settled_bind; [apply IH|intros xs _].
    apply Settled_ret. exact I.
Qed.

Lemma Settled_call_map (v : json) :
  Settled anything anything (call_map rt v).
Proof.
  destruct v; simpl; try (apply Settled_throw; exact I).
  apply Settled_map_events.
Qed.

Ltac fetched_success :=
  split; [reflexivity|];
  split; [apply well_formed_intro; cbn [latestEvent events];
          try reflexivity; try (symmetry; apply get_first)
         |left; split; reflexivity].

Ltac fetched_failure e :=
  split; [reflexivity|];
  split; [apply well_formed_intro; reflexivity
         |right; exists e; repeat split].

(** Once the network has answered, [trackELTA] returns a result: a
    success or the result of a failure, never an exception. *)
Lemma trackELTA_fetched (trackingNumber : jsstring) (o : thrown + Response) :
  Settled (fetched trackingNumber) nothing
    (answer (trackELTA rt trackingNumber) o).
Proof.
  unfold trackELTA, fetch. cbn [answer try_catch bind].
  apply Settled_try_catch with (Q := anything).
  - eapply Settled_bind; [apply Settled_await|intros response _].
    eapply Settled_bind; [apply Settled_await|intros txt _].
    eapply Settled_bind; [apply Settled_await|intros data _].
    eapply Settled_bind; [apply Settled_member|intros data_status _].
    destruct (is_one data_status); [|apply Settled_ret; fetched_success].
    destruct (is_one _); [|apply Settled_ret; fetched_success].
    eapply Settled_bind; [apply Settled_member|intros result _].
    eapply Settled_bind;
      [apply Settled_call_translateStatus|intros translatedStatus _].
    apply Settled_ret. fetched_success.
  - intros e _. apply Settled_ret. fetched_failure e.
Qed.

Lemma trackBoxNow_fetched (trackingNumber : jsstring) (o : thrown + Response) :
  Settled (fetched trackingNumber) nothing
    (answer (trackBoxNow rt trackingNumber) o).
Proof.
  unfold trackBoxNow, fetch. cbn [answer try_catch bind].
  apply Settled_try_catch with (Q := anything).
  - eapply Settled_bind; [apply Settled_await|intros response _].
    eapply Settled_bind; [apply Settled_await|intros data _].
    eapply Settled_bind; [apply Settled_member|intros data_data _].
    eapply Settled_bind; [apply Settled_gt_zero|intros nonempty _].
    destruct nonempty; [|apply Settled_ret; fetched_success].
    eapply Settled_bind; [apply Settled_member|intros parcel_events _].
    eapply Settled_bind; [apply Settled_call_map|intros events _].
    eapply Settled_bind; [apply Settled_member|intros parcel_state _].
    eapply Settled_bind;
      [apply Settled_call_translateStatus|intros translatedStatus _].
    apply Settled_ret. fetched_success.
  - intros e _. apply Settled_ret. fetched_failure e.
Qed.

Lemma trackELTA_outcomes (trackingNumber : jsstring) :
  Outcomes (fetched trackingNumber) nothing (trackELTA rt trackingNumber).
Proof.
  unfold trackELTA, fetch. cbn [try_catch bind]. apply O_Fetch. intros o.
  apply Settled_Outcomes. exact (trackELTA_fetched trackingNumber o).
Qed.

Lemma trackBoxNow_outcomes (trackingNumber : jsstring) :
  Outcomes (fetched trackingNumber) nothing (trackBoxNow rt trackingNumber).
Proof.
  unfold trackBoxNow, fetch. cbn [try_catch bind]. apply O_Fetch. intros o.
  apply Settled_Outcomes. exact (trackBoxNow_fetched trackingNumber o).
Qed.

(** ** The dispatcher and the handlers *)

Lemma trackShipment_outcomes (trackingNumber : jsstring) :
  Outcomes (result_for trackingNumber) nothing
    (trackShipment rt trackingNumber).
Proof.
  assert (F : forall p, Outcomes (fetched trackingNumber) nothing p ->
                        Outcomes (result_for trackingNumber) nothing p).
  { intros p. apply Outcomes_weaken; [|tauto].
    intros r (T & Wf & _). split; assumption. }
  unfold trackShipment. destruct (detectCourier trackingNumber) as [code|].
  - destruct (str_eqb code (lit "elta")); [apply F, trackELTA_outcomes|].
    destruct (str_eqb code (lit "box_now")); [apply F, trackBoxNow_outcomes|].
    apply O_Ret. split; [reflexivity|apply well_formed_intro; reflexivity].
  - apply O_Ret. split; [reflexivity|apply well_formed_intro; reflexivity].
Qed.

Lemma trackOne_outcomes (s : jsstring) :
  Outcomes (result_for (toUpperCase (trim s))) nothing (trackOne rt s).
Proof.
  unfold trackOne. destruct (_ <? _)%nat.
  - apply O_Ret. split; [reflexivity|apply well_formed_intro; reflexivity].
  - apply trackShipment_outcomes.
Qed.

Lemma trackAll_outcomes (items : list json) (results : list TrackingResult) :
  Forall well_formed results ->
  Outcomes (Forall well_formed) anything (trackAll rt items results).
Proof.
  revert results. induction items as [|item rest IH]; intros results H.
  - apply O_Ret, H.
  - cbn [trackAll]. destruct item; try (apply O_Throw; exact I).
    apply Outcomes_bind with (P := result_for (toUpperCase (trim s))).
    + apply Outcomes_weaken with (P := result_for (toUpperCase (trim s)))
                                 (Q := nothing);
        [tauto|intros e []|apply trackOne_outcomes].
    + intros r [_ Wf]. apply IH, Forall_app. split; [exact H|].
      constructor; [exact Wf|constructor].
Qed.

Lemma POST_outcomes (request_json : thrown + json) :
  Outcomes payload_ok nothing (POST rt request_json).
Proof.
  unfold POST. apply Outcomes_try_catch with (Q := anything).
  - apply Outcomes_bind with (P := anything);
      [apply Settled_Outcomes, Settled_await|intros body _].
    apply Outcomes_bind with (P := anything);
      [apply Settled_Outcomes, Settled_member|intros trackingNumbers _].
    destruct (_ || _); [apply O_Ret; exact I|].
    apply Outcomes_bind with (P := Forall well_formed);
      [apply trackAll_outcomes; constructor|intros results H].
    apply O_Ret. exact H.
  - intros e _. apply O_Ret. exact I.
Qed.

Lemma GET_outcomes (number : option jsstring) :
  Outcomes payload_ok nothing (GET rt number).
Proof.
  unfold GET. destruct number as [[|c s]|]; try (apply O_Ret; exact I).
  apply Outcomes_bind with (P := result_for (toUpperCase (c :: s)));
    [apply trackShipment_outcomes|intros r [_ Wf]].
  apply O_Ret. exact Wf.
Qed.

End Fetchers.

(* ================================================================== *)
(** * The detector: first match wins *)
(* ================================================================== *)

(** C2.  [detectCourier] returns the carrier of the first rule, in the
    order of the registry and of each carrier's patterns, that matches
    the whole of the trimmed, upper-cased number.  Hence a string that
    rules of two carriers match goes to the one declared first; so does
    every string of ten digits, which both [acs] and [geniki] accept. *)
Theorem detectCourier_first_rule (s : jsstring) :
  detectCourier s
  = option_map fst
      (find (fun cr => test (snd cr) (toUpperCase (trim s)))
            (rules_of COURIERS))
  /\ (forall i j ci cj,
        (i < j)%nat ->
        nth_error COURIERS i = Some ci -> nth_error COURIERS j = Some cj ->
        matches (snd ci) s = true -> matches (snd cj) s = true ->
        detectCourier s = Some (fst ci))
  /\ (length s = 10%nat -> forallb is_digit s = true ->
      matches acs s = true /\ matches geniki s = true
      /\ detectCourier s = Some (lit "acs")).
Proof.
  assert (Two : forall i j ci cj,
             (i < j)%nat ->
             nth_error COURIERS i = Some ci ->
             nth_error COURIERS j = Some cj ->
             matches (snd ci) s = true -> matches (snd cj) s = true ->
             detectCourier s = Some (fst ci)).
  { intros i j ci cj Hij Hi Hj Mi Mj. unfold detectCourier.
    rewrite (normalize_word s).
    - exact (detect_entries_earlier s i j ci cj Hij Hi Hj Mi Mj).
    - exact (matches_word ci s (nth_error_In _ _ Hi) Mi). }
  split; [apply detect_entries_find|]. split; [exact Two|].
  intros L D.
  assert (Ma : matches acs s = true).
  { unfold matches, acs, patterns. cbn [existsb].
    rewrite (test_digits_10 s 10 L (le_n _) D). reflexivity. }
  assert (Mg : matches geniki s = true).
  { unfold matches, geniki, patterns. cbn [existsb].
    rewrite (test_digits_10 s 12 L ltac:(lia) D). apply orb_true_r. }
  repeat split; [exact Ma|exact Mg|].
  exact (Two 1%nat 5%nat (lit "acs", acs) (lit "geniki", geniki)
           ltac:(lia) eq_refl eq_refl Ma Mg).
Qed.

Lemma detectCourier_first_rule_witness :
  detectCourier (lit "1234567890") = Some (lit "acs")
  /\ matches acs (lit "1234567890") = true
  /\ matches geniki (lit "1234567890") = true.
Proof.
  pose proof (detectCourier_first_rule (lit "1234567890")) as (_ & Two & Ten).
  split.
  - apply (Two 1%nat 5%nat (lit "acs", acs) (lit "geniki", geniki));
      [lia|reflexivity|reflexivity|vm_compute; reflexivity
      |vm_compute; reflexivity].
  - destruct Ten as (Ma & Mg & _);
      [vm_compute; reflexivity|vm_compute; reflexivity|].
    split; assumption.
Defined.

(* ================================================================== *)
(** * The status normalizer *)
(* ================================================================== *)

Lemma startsWith_prefix (s p : jsstring) :
  startsWith s p = true <-> exists rest, s = p ++ rest.
Proof.
  revert s. induction p as [|c p IH]; intros s.
  - split; [intros _; exists s; reflexivity|].
    intros _. destruct s; reflexivity.
  - destruct s as [|d s]; cbn [startsWith].
    + split; [discriminate|]. intros [rest E]. discriminate E.
    + rewrite andb_true_iff, N.eqb_eq, IH. split.
      * intros [-> [rest ->]]. exists rest. reflexivity.
      * intros [rest E]. injection E as -> ->.
        split; [reflexivity|]. exists rest. reflexivity.
Qed.

(** [includes] finds the strings that occur, and only those. *)
Lemma includes_occurs (s sub : jsstring) :
  includes s sub = true <-> occurs_in sub s.
Proof.
  unfold occurs_in. induction s as [|d s IH]; cbn [includes].
  - rewrite orb_false_r, startsWith_prefix. split.
    + intros [rest E]. exists [], rest. exact E.
    + intros (b & a & E). destruct b; [|discriminate E].
      exists a. exact E.
  - rewrite orb_true_iff, startsWith_prefix, IH. split.
    + intros [[rest E]|(b & a & E)].
      * exists [], rest. exact E.
      * exists (d :: b), a. rewrite E. reflexivity.
    + intros (b & a & E). destruct b as [|x b].
      * left. exists a. exact E.
      * right. injection E as -> E. exists b, a. exact E.
Qed.

(** The test of an entry, on lower-cased texts, is containment: the
    equality that the code tests first is a case of it. *)
Lemma entry_matches_occurs (statusLower greek : jsstring) :
  entry_matches statusLower greek = true
  <-> occurs_in (toLowerCase greek) statusLower.
Proof.
  unfold entry_matches. rewrite orb_true_iff, str_eqb_eq, includes_occurs.
  split; [|intros H; right; exact H].
  intros [<-|H]; [|exact H]. exists [], []. rewrite app_nil_r. reflexivity.
Qed.

Lemma entry_matches_absent (statusLower greek : jsstring) :
  entry_matches statusLower greek = false
  <-> ~ occurs_in (toLowerCase greek) statusLower.
Proof.
  rewrite <- entry_matches_occurs.
  destruct (entry_matches statusLower greek); split; congruence.
Qed.

(** The loop over the table: no phrase occurs and the status comes back,
    or the first entry whose phrase occurs gives the result. *)
Lemma translate_entries_cases (entries : list (jsstring * jsstring))
    (status statusLower : jsstring) :
  (none_occurs entries statusLower
   /\ translate_entries entries status statusLower = status)
  \/ (exists pre greek english post,
         entries = pre ++ (greek, english) :: post
         /\ occurs_in (toLowerCase greek) statusLower
         /\ none_occurs pre statusLower
         /\ translate_entries entries status statusLower = english).
Proof.
  induction entries as [|[g e] rest IH]; cbn [translate_entries].
  - left. split; [intros ? ? []|reflexivity].
  - destruct (entry_matches statusLower g) eqn:M.
    + right. exists [], g, e, rest. split; [reflexivity|].
      split; [apply entry_matches_occurs, M|].
      split; [intros ? ? []|reflexivity].
    + apply entry_matches_absent in M.
      destruct IH as [[N E]|(pre & greek & english & post & E & O & N & R)].
      * left. split; [|exact E].
        intros g' e' [I|I]; [injection I as <- <-; exact M|exact (N g' e' I)].
      * right. exists ((g, e) :: pre), greek, english, post.
        split; [rewrite E; reflexivity|]. split; [exact O|].
        split; [|exact R].
        intros g' e' [I|I]; [injection I as <- <-; exact M|exact (N g' e' I)].
Qed.

Lemma translate_entries_first (pre post : list (jsstring * jsstring))
    (greek english status statusLower : jsstring) :
  occurs_in (toLowerCase greek) statusLower ->
  none_occurs pre statusLower ->
  translate_entries (pre ++ (greek, english) :: post) status statusLower
  = english.
Proof.
  intros M. induction pre as [|[g e] pre IH]; cbn [app translate_entries];
    intros H.
  - apply entry_matches_occurs in M. rewrite M. reflexivity.
  - pose proof (H g e (or_introl eq_refl)) as N.
    apply entry_matches_absent in N. rewrite N.
    apply IH. intros g' e' I. apply (H g' e'). right. exact I.
Qed.

(** C7.  [translateStatus] is defined on every string.  It compares
    lower-cased texts, so the lookup does not depend on the case of the
    status or of the phrase; an entry is taken when its phrase, lower-cased,
    is the lower-cased status or occurs in it; of the entries that can be
    taken the first of the table, in declaration order, gives the result;
    and when no phrase occurs the result is the argument. *)
Theorem translateStatus_lookup (status : jsstring) :
  (forall pre greek english post,
      STATUS_TRANSLATIONS = pre ++ (greek, english) :: post ->
      toLowerCase greek = toLowerCase status
      \/ occurs_in (toLowerCase greek) (toLowerCase status) ->
      none_occurs pre (toLowerCase status) ->
      translateStatus status = english)
  /\ (none_occurs STATUS_TRANSLATIONS (toLowerCase status) ->
      translateStatus status = status)
  /\ ((none_occurs STATUS_TRANSLATIONS (toLowerCase status)
       /\ translateStatus status = status)
      \/ (exists pre greek english post,
             STATUS_TRANSLATIONS = pre ++ (greek, english) :: post
             /\ occurs_in (toLowerCase greek) (toLowerCase status)
             /\ none_occurs pre (toLowerCase status)
             /\ translateStatus status = english)).
Proof.
  split; [|split].
  - intros pre greek english post E M N. unfold translateStatus.
    rewrite E. apply translate_entries_first; [|exact N].
    destruct M as [M|M]; [|exact M].
    rewrite <- M. exists [], []. rewrite app_nil_r. reflexivity.
  - intros N. unfold translateStatus.
    destruct (translate_entries_cases STATUS_TRANSLATIONS status
                (toLowerCase status))
      as [[_ E]|(pre & greek & english & post & E & O & _ & _)];
      [exact E|].
    exfalso. apply (N greek english); [|exact O].
    rewrite E. apply in_or_app. right. left. reflexivity.
  - apply translate_entries_cases.
Qed.

(** None of the entries listed in [I] occurs in the status of [O]. *)
Ltac absent :=
  let g := fresh in let e := fresh in
  let I := fresh in let O := fresh in
  intros g e I O; apply includes_occurs in O; vm_compute in I;
  repeat (destruct I as [I|I];
          [injection I as <- <-; vm_compute in O; discriminate O|]);
  destruct I.

Lemma translateStatus_lookup_witness :
  translateStatus (lit "Η ΑΠΟΣΤΟΛΉ ΒΡΊΣΚΕΤΑΙ ΣΕ ΣΤΆΔΙΟ ΜΕΤΑΦΟΡΆΣ ΠΡΟΣ ΑΘΗΝΑ")
  = lit "In Transit"
  /\ translateStatus (lit "IN-DEPOT") = lit "In Depot"
  /\ translateStatus (lit "on hold") = lit "on hold".
Proof.
  split; [|split].
  - apply (proj1 (translateStatus_lookup _)
             (firstn 2 STATUS_TRANSLATIONS)
             (lit "Αποστολή βρίσκεται σε στάδιο μεταφοράς") (lit "In Transit")
             (skipn 3 STATUS_TRANSLATIONS)).
    + reflexivity.
    + right. exists (lit "η "), (lit " προς αθηνα"). vm_compute. reflexivity.
    + absent.
  - apply (proj1 (translateStatus_lookup _)
             (firstn 6 STATUS_TRANSLATIONS) (lit "in-depot") (lit "In Depot")
             (skipn 7 STATUS_TRANSLATIONS)).
    + reflexivity.
    + left. vm_compute. reflexivity.
    + absent.
  - apply (proj1 (proj2 (translateStatus_lookup (lit "on hold")))). absent.
Defined.

(** The second phrase of the table begins with the first. *)
Lemma delivered_to_extends :
  toLowerCase (lit "Αποστολή παραδόθηκε σε")
  = toLowerCase (lit "Αποστολή παραδόθηκε") ++ lit " σε".
Proof. vm_compute. reflexivity. Qed.

Lemma entry_matches_iff (statusLower greek : jsstring) :
  entry_matches statusLower greek = true <->
  toLowerCase greek = statusLower
  \/ includes statusLower (toLowerCase greek) = true.
Proof.
  unfold entry_matches. rewrite orb_true_iff, str_eqb_eq. reflexivity.
Qed.

(** Whatever passes the test of the second entry passes that of the
    first. *)
Lemma delivered_to_shadowed (statusLower : jsstring) :
  entry_matches statusLower (lit "Αποστολή παραδόθηκε σε") = true ->
  entry_matches statusLower (lit "Αποστολή παραδόθηκε") = true.
Proof.
  intros H. apply entry_matches_iff. right.
  apply entry_matches_iff in H. rewrite delivered_to_extends in H.
  destruct H as [H|H].
  - subst statusLower.
    apply (includes_app _ _ (lit " σε")), includes_self.
  - exact (includes_app _ _ _ H).
Qed.

(** The one text that would come back as ['Delivered to'] holds
    ['delivered']. *)
Lemma delivered_to_has_delivered :
  entry_matches (toLowerCase (lit "Delivered to")) (lit "delivered") = true.
Proof. vm_compute. reflexivity. Qed.

(** The next entry of the table: it gives another text than
    ['Delivered to'], or it does not match. *)
Ltac next_entry M :=
  match goal with
  | |- (if entry_matches ?a ?b then _ else _) <> _ =>
    destruct (entry_matches a b) eqn:M;
    [let E := fresh in intros E; vm_compute in E; discriminate E|]
  end.

(** C9.  [translateStatus] never returns ['Delivered to']: a status that
    passes the test of the second entry passes the test of the first,
    which is declared before it and gives ['Delivered']; and the one
    argument that would come back unchanged as ['Delivered to'] contains
    ['delivered'] and is translated as well. *)
Theorem translateStatus_never_delivered_to (status : jsstring) :
  (forall statusLower,
      entry_matches statusLower (lit "Αποστολή παραδόθηκε σε") = true ->
      entry_matches statusLower (lit "Αποστολή παραδόθηκε") = true)
  /\ translateStatus status <> lit "Delivered to".
Proof.
  pose proof delivered_to_shadowed as Sub.
  split; [exact Sub|].
  unfold translateStatus, STATUS_TRANSLATIONS. cbn [translate_entries].
  destruct (entry_matches _ (lit "Αποστολή παραδόθηκε")) eqn:M1;
    [intros E; vm_compute in E; discriminate|].
  destruct (entry_matches _ (lit "Αποστολή παραδόθηκε σε")) eqn:M2;
    [apply Sub in M2; congruence|].
  next_entry M3. next_entry M4. next_entry M5. next_entry M6.
  next_entry M7. next_entry M8.
  intros E. subst status.
  rewrite delivered_to_has_delivered in M6. discriminate M6.
Qed.

Lemma translateStatus_never_delivered_to_witness :
  translateStatus (lit "Αποστολή παραδόθηκε σε ΘΥΡΙΔΑ") = lit "Delivered"
  /\ translateStatus (lit "Delivered to") <> lit "Delivered to".
Proof.
  split; [vm_compute; reflexivity|].
  exact (proj2 (translateStatus_never_delivered_to (lit "Delivered to"))).
Defined.

(* ================================================================== *)
(** * The orchestrator *)
(* ================================================================== *)

(** An upper-cased string of fewer than ten units is nobody's, although
    [detectCourier] trims and upper-cases it once more. *)
Lemma detectCourier_short (s : jsstring) :
  (length (toUpperCase s) < 10)%nat -> detectCourier (toUpperCase s) = None.
Proof.
  intros H. unfold detectCourier. rewrite toUpperCase_trim_toUpperCase.
  apply detect_entries_short.
  pose proof (trim_length (toUpperCase s)). lia.
Qed.

(** The step of the loop for a short number. *)
Lemma trackOne_short (rt : Runtime) (s : jsstring) :
  (length (toUpperCase (trim s)) < 8)%nat ->
  trackOne rt s
  = Ret {| success := false;
           trackingNumber := toUpperCase (trim s);
           courier := lit "unknown";
           courierName := lit "Unknown";
           courierColor := lit "#6b7280";
           status := lit "Error";
           statusCategory := error;
           events := JArr [];
           latestEvent := None;
           errorMessage := Some (lit "Invalid tracking number format") |}.
Proof.
  intros H. unfold trackOne. apply Nat.ltb_lt in H. rewrite H. reflexivity.
Qed.

(** C4.  A number whose trimmed, upper-cased form has fewer than eight
    units gets the "Invalid tracking number format" result at once: the
    step of the loop is a plain return, built without the detector, and
    no run of it sends a request. *)
Theorem short_number_is_invalid (rt : Runtime) (s : jsstring) :
  (length (toUpperCase (trim s)) < 8)%nat ->
  let invalid :=
    {| success := false;
       trackingNumber := toUpperCase (trim s);
       courier := lit "unknown";
       courierName := lit "Unknown";
       courierColor := lit "#6b7280";
       status := lit "Error";
       statusCategory := error;
       events := JArr [];
       latestEvent := None;
       errorMessage := Some (lit "Invalid tracking number format") |} in
  trackOne rt s = Ret invalid
  /\ (forall rest results,
        trackAll rt (JStr s :: rest) results
        = trackAll rt rest (results ++ [invalid]))
  /\ (forall (W : Type) (net : Request -> W -> (thrown + Response) * W)
             (w : W),
        interp net (trackOne rt s) w = (inr invalid, w)
        /\ requests net (trackOne rt s) w = []).
Proof.
  intros H invalid.
  assert (E : trackOne rt s = Ret invalid) by exact (trackOne_short rt s H).
  split; [exact E|]. split.
  - intros rest results. cbn [trackAll]. rewrite E. reflexivity.
  - intros W net w. rewrite E. split; reflexivity.
Qed.

Lemma short_number_is_invalid_witness :
  exists r,
    trackOne demo_runtime (lit " ab ") = Ret r
    /\ trackingNumber r = lit "AB"
    /\ errorMessage r = Some (lit "Invalid tracking number format").
Proof.
  eexists. split.
  - apply (short_number_is_invalid demo_runtime (lit " ab ")).
    vm_compute. lia.
  - split; vm_compute; reflexivity.
Defined.

(** C10.  [GET] neither trims nor checks the length: a number that is
    given and whose upper-cased form has fewer than eight units is passed
    on as it is, no carrier is detected, and the answer is the
    detection-failure result, where [POST] answers "Invalid tracking
    number format" for the same number. *)
Theorem GET_short_number (rt : Runtime) (s : jsstring) :
  s <> [] -> (length (toUpperCase s) < 8)%nat ->
  GET rt (Some s)
  = Ret (Json (ResultBody
      {| success := false;
         trackingNumber := toUpperCase s;
         courier := lit "unknown";
         courierName := lit "Unknown Courier";
         courierColor := lit "#6b7280";
         status := lit "Error";
         statusCategory := error;
         events := JArr [];
         latestEvent := None;
         errorMessage :=
           Some (lit "Could not detect courier from tracking number format")
      |}) 200)
  /\ exists r,
       trackOne rt s = Ret r
       /\ errorMessage r = Some (lit "Invalid tracking number format").
Proof.
  intros Hs H. split.
  - destruct s as [|c s']; [congruence|].
    unfold GET, trackShipment.
    rewrite detectCourier_short by lia. reflexivity.
  - eexists. split.
    + apply trackOne_short. pose proof (toUpperCase_trim_length s). lia.
    + reflexivity.
Qed.

Lemma GET_short_number_witness :
  exists r,
    GET demo_runtime (Some (lit " ab ")) = Ret (Json (ResultBody r) 200)
    /\ trackingNumber r = lit " AB "
    /\ errorMessage r
       = Some (lit "Could not detect courier from tracking number format").
Proof.
  eexists. split.
  - apply (GET_short_number demo_runtime (lit " ab "));
      [discriminate|vm_compute; lia].
  - split; vm_compute; reflexivity.
Defined.

Lemma interp_try_catch {A : Type} (m : Prog A) (h : thrown -> Prog A)
    (W : Type) (net : Request -> W -> (thrown + Response) * W) (w : W) :
  interp net (try_catch m h) w
  = match interp net m w with
    | (inr a, w') => (inr a, w')
    | (inl e, w') => interp net (h e) w'
    end.
Proof.
  revert w. induction m as [a|e|rq k IH]; intros w; simpl; try reflexivity.
  destruct (net rq w) as [o w']. apply IH.
Qed.

(** The loop on a batch of strings: every run ends, and what it adds to
    [results] is, number by number and in order, a result of the step for
    that number. *)
Lemma trackAll_run (rt : Runtime) (W : Type)
    (net : Request -> W -> (thrown + Response) * W)
    (nums : list jsstring) (results : list TrackingResult) (w : W) :
  exists more w',
    interp net (trackAll rt (map JStr nums) results) w
    = (inr (results ++ more), w')
    /\ Forall2 (fun n r =>
                  trackingNumber r = toUpperCase (trim n)
                  /\ exists w1 w2,
                       interp net (trackOne rt n) w1 = (inr r, w2))
               nums more.
Proof.
  revert results w. induction nums as [|n nums IH]; intros results w.
  - exists [], w. rewrite app_nil_r. split; [reflexivity|constructor].
  - cbn [map trackAll]. rewrite interp_bind.
    pose proof (Outcomes_interp _ _ _ W net w (trackOne_outcomes rt n)) as R.
    destruct (interp net (trackOne rt n) w) as [[e|r] w1] eqn:E;
      simpl in R; [destruct R|].
    destruct (IH (results ++ [r]) w1) as (more & w' & Ei & F).
    exists (r :: more), w'. rewrite Ei, <- app_assoc. split; [reflexivity|].
    constructor; [|exact F]. split; [apply R|].
    exists w, w1. exact E.
Qed.

Lemma Forall2_nth_error {A B : Type} (P : A -> B -> Prop)
    (l : list A) (l' : list B) (i : nat) (a : A) :
  Forall2 P l l' -> nth_error l i = Some a ->
  exists b, nth_error l' i = Some b /\ P a b.
Proof.
  intros F. revert i. induction F as [|x y l l' Hxy F IH]; intros i H.
  - destruct i; discriminate.
  - destruct i as [|i]; simpl in *.
    + injection H as ->. exists y. split; [reflexivity|exact Hxy].
    + apply IH, H.
Qed.

(** C3.  On a batch of strings the loop returns one result per number,
    in the order of the batch: the list is as long as the batch and its
    i-th element is the result of the step for the i-th number, with that
    number, trimmed and upper-cased, as its [trackingNumber].  Against a
    network whose answer depends on the request only, the result at a
    position depends on the number at that position only, whatever
    happens to the other numbers.  [POST] answers a non-empty batch with
    that list. *)
Theorem trackAll_one_result_each (rt : Runtime) (nums : list jsstring) :
  (forall (W : Type) (net : Request -> W -> (thrown + Response) * W) (w : W),
      exists results w',
        interp net (trackAll rt (map JStr nums) []) w = (inr results, w')
        /\ length results = length nums
        /\ Forall2 (fun n r =>
                      trackingNumber r = toUpperCase (trim n)
                      /\ exists w1 w2,
                           interp net (trackOne rt n) w1 = (inr r, w2))
                   nums results)
  /\ (forall (reply : Request -> thrown + Response)
             (nums' : list jsstring) (results results' : list TrackingResult)
             (i : nat) (n : jsstring),
        let net := fun rq (w : unit) => (reply rq, w) in
        fst (interp net (trackAll rt (map JStr nums) []) tt) = inr results ->
        fst (interp net (trackAll rt (map JStr nums') []) tt) = inr results' ->
        nth_error nums i = Some n -> nth_error nums' i = Some n ->
        exists r,
          nth_error results i = Some r /\ nth_error results' i = Some r
          /\ fst (interp net (trackOne rt n) tt) = inr r)
  /\ (forall (W : Type) (net : Request -> W -> (thrown + Response) * W) (w : W)
             (body : json),
        nums <> [] ->
        get body (lit "trackingNumbers") = Some (JArr (map JStr nums)) ->
        exists results w',
          interp net (POST rt (inr body)) w
          = (inr (Json (ResultsBody results) 200), w')
          /\ interp net (trackAll rt (map JStr nums) []) w = (inr results, w')).
Proof.
  split; [|split].
  - intros W net w.
    destruct (trackAll_run rt W net nums [] w) as (more & w' & E & F).
    exists more, w'. split; [exact E|]. split; [|exact F].
    symmetry. exact (Forall2_length F).
  - intros reply nums' results results' i n net E E' Hn Hn'.
    destruct (trackAll_run rt unit net nums [] tt) as (more & w1 & R & F).
    destruct (trackAll_run rt unit net nums' [] tt) as (more' & w1' & R' & F').
    rewrite R in E. rewrite R' in E'. simpl in E, E'.
    injection E as <-. injection E' as <-.
    destruct (Forall2_nth_error _ _ _ i n F Hn) as (r & Hr & _ & u & v & Er).
    destruct (Forall2_nth_error _ _ _ i n F' Hn')
      as (r' & Hr' & _ & u' & v' & Er').
    destruct u, u', v, v'. rewrite Er in Er'. injection Er' as <-.
    exists r. rewrite Er. repeat split; assumption.
  - intros W net w body Hne Hb.
    destruct (trackAll_run rt W net nums [] w) as (more & w' & E & _).
    exists more, w'. split; [|exact E].
    unfold POST. rewrite interp_try_catch. cbn [await bind].
    assert (M : member rt "body.trackingNumbers" (Some body)
                  (lit "trackingNumbers")
                = Ret (Some (JArr (map JStr nums)))).
    { unfold member. rewrite Hb. destruct body; try reflexivity.
      discriminate Hb. }
    rewrite M. cbn [bind not_ isArray array_items truthy negb orb].
    rewrite length_map.
    destruct nums as [|n nums']; [congruence|]. cbn [length Nat.eqb].
    rewrite interp_bind, E. reflexivity.
Qed.

Lemma trackAll_one_result_each_witness :
  exists r,
    fst (interp unreachable (trackOne demo_runtime (lit "1234567890")) tt)
    = inr r
    /\ status r = lit "Not Implemented".
Proof.
  pose (batch := [lit " ab "; lit "1234567890"]).
  pose (batch' := [lit "SE101046219GR"; lit "1234567890"; lit "x"]).
  destruct (trackAll_one_result_each demo_runtime batch) as (One & Iso & _).
  destruct (One unit unreachable tt) as (res & u & E & _).
  destruct (trackAll_one_result_each demo_runtime batch') as (One' & _).
  destruct (One' unit unreachable tt) as (res' & u' & E' & _).
  destruct (Iso (fun _ => inl (ErrorObject (lit "fetch failed")))
                batch' res res' 1%nat (lit "1234567890"))
    as (r & _ & _ & Er).
  - change (fst (interp unreachable
                   (trackAll demo_runtime (map JStr batch) []) tt) = inr res).
    rewrite E. reflexivity.
  - change (fst (interp unreachable
                   (trackAll demo_runtime (map JStr batch') []) tt) = inr res').
    rewrite E'. reflexivity.
  - reflexivity.
  - reflexivity.
  - exists r. split; [exact Er|].
    change (fst (interp unreachable
                   (trackOne demo_runtime (lit "1234567890")) tt) = inr r)
      in Er.
    vm_compute in Er. injection Er as <-. vm_compute. reflexivity.
Defined.

(* ================================================================== *)
(** * Results *)
(* ================================================================== *)

(** C8.  Every result that an operation produces satisfies the
    invariant: its [latestEvent] is [events[0]], so it is there and is
    the first event whenever [events] is a non-empty array, and its
    category is one of the five.  This holds for both fetchers, for the
    dispatcher, for the step of the batch loop, and for every result in
    an answer of [POST] or [GET], on every run. *)
Theorem results_well_formed (rt : Runtime) (W : Type)
    (net : Request -> W -> (thrown + Response) * W) (w : W) :
  (forall tn, exists r,
      fst (interp net (trackELTA rt tn) w) = inr r /\ well_formed r)
  /\ (forall tn, exists r,
        fst (interp net (trackBoxNow rt tn) w) = inr r /\ well_formed r)
  /\ (forall tn, exists r,
        fst (interp net (trackShipment rt tn) w) = inr r /\ well_formed r)
  /\ (forall s, exists r,
        fst (interp net (trackOne rt s) w) = inr r /\ well_formed r)
  /\ (forall request_json, exists response,
        fst (interp net (POST rt request_json) w) = inr response
        /\ match payload response with
           | ResultsBody results => Forall well_formed results
           | ResultBody result => well_formed result
           | ErrorBody _ => True
           end)
  /\ (forall number, exists response,
        fst (interp net (GET rt number) w) = inr response
        /\ match payload response with
           | ResultsBody results => Forall well_formed results
           | ResultBody result => well_formed result
           | ErrorBody _ => True
           end).
Proof.
  repeat split.
  - intros tn.
    destruct (Outcomes_returns _ _ W net w (trackELTA_outcomes rt tn))
      as (r & E & _ & Wf & _).
    exists r. split; assumption.
  - intros tn.
    destruct (Outcomes_returns _ _ W net w (trackBoxNow_outcomes rt tn))
      as (r & E & _ & Wf & _).
    exists r. split; assumption.
  - intros tn.
    destruct (Outcomes_returns _ _ W net w (trackShipment_outcomes rt tn))
      as (r & E & _ & Wf).
    exists r. split; assumption.
  - intros s.
    destruct (Outcomes_returns _ _ W net w (trackOne_outcomes rt s))
      as (r & E & _ & Wf).
    exists r. split; assumption.
  - intros request_json.
    exact (Outcomes_returns _ _ W net w (POST_outcomes rt request_json)).
  - intros number.
    exact (Outcomes_returns _ _ W net w (GET_outcomes rt number)).
Qed.

(* ================================================================== *)
(** * The fetchers: failures, absences and the Box Now category *)
(* ================================================================== *)

Lemma trackELTA_throws (rt : Runtime) (tn : jsstring)
    (o : thrown + Response) (e : thrown) :
  elta_throws rt o e ->
  exists r, answer (trackELTA rt tn) o = Ret r /\ is_failure r e.
Proof.
  unfold trackELTA, fetch. cbn [answer try_catch bind].
  intros [->|[(response & -> & T)|(response & txt & m & -> & T & P & ->)]];
    cbn [await bind try_catch].
  - eexists. split; [reflexivity|repeat split].
  - rewrite T. cbn [await bind try_catch].
    eexists. split; [reflexivity|repeat split].
  - rewrite T. cbn [await bind try_catch]. cbv zeta.
    match goal with
    | |- context [JSON_parse rt ?x] =>
      replace (JSON_parse rt x) with (@inl jsstring json m)
        by (symmetry; exact P)
    end.
    cbn [await bind try_catch].
    eexists. split; [reflexivity|repeat split].
Qed.

Lemma trackBoxNow_throws (rt : Runtime) (tn : jsstring)
    (o : thrown + Response) (e : thrown) :
  boxnow_throws o e ->
  exists r, answer (trackBoxNow rt tn) o = Ret r /\ is_failure r e.
Proof.
  unfold trackBoxNow, fetch. cbn [answer try_catch bind].
  intros [->|(response & -> & T)]; cbn [await bind try_catch].
  - eexists. split; [reflexivity|repeat split].
  - rewrite T. cbn [await bind try_catch].
    eexists. split; [reflexivity|repeat split].
Qed.

Lemma message_of_nonempty (e : thrown) :
  e <> ErrorObject [] -> message_of e <> [].
Proof.
  destruct e as [message|]; simpl; intros H E.
  - apply H. rewrite E. reflexivity.
  - vm_compute in E. discriminate.
Qed.

(** C5, amended.  Each fetcher sends one request and, whatever the
    network answers, returns a result and raises nothing.  When [fetch]
    rejects or the response cannot be read or parsed, the result has
    [success = false], category ["error"], no events, and as
    [errorMessage] the message of the [Error] that was thrown, or
    ['Unknown error'] when the thrown value is not an [Error]; that
    message is not empty unless the [Error] came with an empty one. *)
Theorem fetchers_never_raise (rt : Runtime) (tn : jsstring)
    (o : thrown + Response) :
  (exists rq k, trackELTA rt tn = Fetch rq k)
  /\ (exists rq k, trackBoxNow rt tn = Fetch rq k)
  /\ (exists r, answer (trackELTA rt tn) o = Ret r)
  /\ (exists r, answer (trackBoxNow rt tn) o = Ret r)
  /\ (forall e, elta_throws rt o e ->
        exists r, answer (trackELTA rt tn) o = Ret r
                  /\ success r = false /\ statusCategory r = error
                  /\ events r = JArr []
                  /\ errorMessage r = Some (message_of e))
  /\ (forall e, boxnow_throws o e ->
        exists r, answer (trackBoxNow rt tn) o = Ret r
                  /\ success r = false /\ statusCategory r = error
                  /\ events r = JArr []
                  /\ errorMessage r = Some (message_of e))
  /\ (forall e, e <> ErrorObject [] -> message_of e <> []).
Proof.
  split; [eexists; eexists; reflexivity|].
  split; [eexists; eexists; reflexivity|].
  split.
  { destruct (Settled_returns _ _ (trackELTA_fetched rt tn o)) as (r & E & _).
    exists r. exact E. }
  split.
  { destruct (Settled_returns _ _ (trackBoxNow_fetched rt tn o))
      as (r & E & _).
    exists r. exact E. }
  split; [|split].
  - intros e H.
    destruct (trackELTA_throws rt tn o e H) as (r & E & S & C & Ev & _ & M).
    exists r. repeat split; assumption.
  - intros e H.
    destruct (trackBoxNow_throws rt tn o e H) as (r & E & S & C & Ev & _ & M).
    exists r. repeat split; assumption.
  - exact message_of_nonempty.
Qed.

Lemma fetchers_never_raise_witness :
  exists r,
    answer (trackELTA demo_runtime (lit "SE101046219GR"))
           (inl (ErrorObject (lit "fetch failed"))) = Ret r
    /\ errorMessage r = Some (lit "fetch failed")
    /\ lit "fetch failed" <> [].
Proof.
  destruct (fetchers_never_raise demo_runtime (lit "SE101046219GR")
              (inl (ErrorObject (lit "fetch failed"))))
    as (_ & _ & _ & _ & Elta & _ & Msg).
  destruct (Elta (ErrorObject (lit "fetch failed")) (or_introl eq_refl))
    as (r & E & _ & _ & _ & M).
  exists r. split; [exact E|]. split; [exact M|].
  apply (Msg (ErrorObject (lit "fetch failed"))).
  intros H. injection H as H. vm_compute in H. discriminate.
Defined.

(** C5 does not hold as stated: when [fetch] rejects with an [Error]
    whose message is empty, the [errorMessage] of the result is that
    empty message. *)
Lemma empty_error_message :
  ~ (forall e : thrown,
        exists r m,
          answer (trackELTA demo_runtime (lit "SE101046219GR")) (inl e) = Ret r
          /\ success r = false /\ statusCategory r = error
          /\ events r = JArr []
          /\ errorMessage r = Some m /\ m <> []).
Proof.
  intros H. destruct (H (ErrorObject [])) as (r & m & E & _ & _ & _ & M & N).
  unfold trackELTA, fetch in E. cbn [answer try_catch bind await] in E.
  injection E as <-. cbn [errorMessage message_of] in M.
  injection M as <-. apply N. reflexivity.
Qed.

Lemma member_some (rt : Runtime) (expression : string) (x : json)
    (k : jsstring) :
  x <> JNull -> member rt expression (Some x) k = Ret (get x k).
Proof. destruct x; [congruence|reflexivity..]. Qed.

Lemma get_length (items : list json) :
  get (JArr items) (lit "length") = Some (JNum (num_of_nat (length items))).
Proof. unfold get. rewrite str_eqb_refl. reflexivity. Qed.

(** C6.  When the carrier answers and reports no record, the fetcher
    returns [success = true] with status ['Not Found'], category
    ["unknown"] and no events.  For ELTA: the answer parses to a value
    whose [status] is not 1 or that has no entry with status 1 for the
    number.  For Box Now: the [data] of the answer is missing or empty. *)
Theorem not_found_is_success (rt : Runtime) (tn : jsstring)
    (response : Response) :
  (forall txt data,
      text response = inr txt ->
      JSON_parse rt (if startsWith txt [65279] then skipn 1 txt else txt)
      = inr data ->
      data <> JNull ->
      is_one (get data (lit "status"))
      && is_one (opt_get (opt_get (get data (lit "result")) tn) (lit "status"))
      = false ->
      exists r, answer (trackELTA rt tn) (inr response) = Ret r
                /\ confirmed_absence r)
  /\ (forall data,
        json_ response = inr data ->
        data <> JNull ->
        or_else (get data (lit "data")) (JArr []) = JArr [] ->
        exists r, answer (trackBoxNow rt tn) (inr response) = Ret r
                  /\ confirmed_absence r).
Proof.
  split.
  - intros txt data T P Hd Hs.
    unfold trackELTA, fetch. cbn [answer try_catch bind await].
    rewrite T. cbn [await bind try_catch]. cbv zeta.
    match goal with
    | |- context [JSON_parse rt ?x] =>
      replace (JSON_parse rt x) with (@inr jsstring json data)
        by (symmetry; exact P)
    end.
    cbn [await bind try_catch]. rewrite (member_some rt _ data _ Hd).
    cbn [bind try_catch].
    destruct (is_one (get data (lit "status"))); cbn [andb] in Hs.
    + rewrite Hs. cbn [try_catch].
      eexists. split; [reflexivity|repeat split].
    + cbn [try_catch]. eexists. split; [reflexivity|repeat split].
  - intros data J Hd He.
    unfold trackBoxNow, fetch. cbn [answer try_catch bind await].
    rewrite J. cbn [await bind try_catch].
    rewrite (member_some rt _ data _ Hd). cbn [bind try_catch].
    rewrite He, get_length. cbn [gt_zero length bind try_catch].
    replace (num_is_positive (num_of_nat 0)) with false by reflexivity.
    cbn [try_catch]. eexists. split; [reflexivity|repeat split].
Qed.

Lemma not_found_is_success_witness :
  (exists r,
      answer (trackELTA demo_runtime (lit "SE101046219GR"))
             (inr {| text := inr (lit "{}"); json_ := inl NotAnError |})
      = Ret r /\ confirmed_absence r)
  /\ (exists r,
        answer (trackBoxNow demo_runtime (lit "BN12345678"))
               (inr {| text := inl NotAnError;
                       json_ := inr (JObj [(lit "data", JArr [])]) |})
        = Ret r /\ confirmed_absence r).
Proof.
  split.
  - apply (proj1 (not_found_is_success demo_runtime (lit "SE101046219GR")
                    {| text := inr (lit "{}"); json_ := inl NotAnError |})
             (lit "{}") (JObj [])).
    + reflexivity.
    + vm_compute. reflexivity.
    + discriminate.
    + vm_compute. reflexivity.
  - apply (proj2 (not_found_is_success demo_runtime (lit "BN12345678")
                    {| text := inl NotAnError;
                       json_ := inr (JObj [(lit "data", JArr [])]) |})
             (JObj [(lit "data", JArr [])])).
    + reflexivity.
    + discriminate.
    + vm_compute. reflexivity.
Defined.

(** C1 does not hold as stated: a parcel whose state is ['in-depot'] gets
    the status ['In Depot'] and the category ["in_transit"], where the
    normalizer classifies ['In Depot'] as ["unknown"]. *)
Lemma boxnow_in_depot_in_transit :
  ~ (forall r,
        answer (trackBoxNow demo_runtime (lit "BN12345678")) (inr in_depot)
        = Ret r ->
        success r = true ->
        statusCategory r = getStatusCategory (status r)).
Proof.
  intros H.
  assert (E : exists r,
             answer (trackBoxNow demo_runtime (lit "BN12345678"))
                    (inr in_depot) = Ret r
             /\ success r = true /\ status r = lit "In Depot"
             /\ statusCategory r = in_transit
             /\ getStatusCategory (status r) = unknown).
  { let t := eval vm_compute in
        (answer (trackBoxNow demo_runtime (lit "BN12345678")) (inr in_depot))
    in match t with Ret ?r => exists r end.
    repeat split; vm_compute; reflexivity. }
  destruct E as (r & E & S & _ & C & G).
  specialize (H r E S). rewrite C, G in H. discriminate.
Qed.

Lemma member_null_or_get (rt : Runtime) (x : json) :
  (forall expression k,
      member rt expression (Some x) k = Throw (TypeError rt expression))
  \/ (forall expression k, member rt expression (Some x) k = Ret (get x k)).
Proof. destruct x; [left|right..]; reflexivity. Qed.

(** C1, amended.  When the answer of Box Now holds at least one
    parcel the fetcher returns a result, and a successful one has the
    translation of the first parcel's [state] as its status and, as its
    category, ["delivered"] when that state is exactly ['delivered'] and
    ["in_transit"] otherwise: never ["unknown"], and not what the
    normalizer would classify the status as. *)
Theorem trackBoxNow_category (rt : Runtime) (tn : jsstring)
    (response : Response) (data parcel : json) (rest : list json) :
  json_ response = inr data ->
  get data (lit "data") = Some (JArr (parcel :: rest)) ->
  exists r,
    answer (trackBoxNow rt tn) (inr response) = Ret r
    /\ (success r = true ->
        exists state,
          or_else (get parcel (lit "state")) (JStr []) = JStr state
          /\ status r = translateStatus state
          /\ statusCategory r
             = (if str_eqb state (lit "delivered") then delivered
                else in_transit)
          /\ statusCategory r <> unknown).
Proof.
  intros J D.
  assert (Hd : data <> JNull) by (intros ->; discriminate D).
  unfold trackBoxNow, fetch. cbn [answer try_catch bind await].
  rewrite J. cbn [await bind try_catch].
  rewrite (member_some rt _ data _ Hd), D.
  cbn [bind or_else truthy]. rewrite get_length, get_first.
  cbn [length gt_zero bind nth_error]. rewrite num_of_nat_positive.
  destruct (member_null_or_get rt parcel) as [M|M]; rewrite !M.
  { cbn [bind try_catch]. eexists. split; [reflexivity|]. discriminate. }
  cbn [bind].
  destruct (Settled_call_map rt
              (or_else (get parcel (lit "events")) (JArr [])))
    as [(evs & -> & _)|(e & -> & _)]; cbn [bind try_catch];
    [|eexists; split; [reflexivity|discriminate]].
  destruct (or_else (get parcel (lit "state")) (JStr [])) as [| | |state| |];
    cbn [call_translateStatus bind try_catch];
    try (eexists; split; [reflexivity|discriminate]).
  eexists. split; [reflexivity|]. intros _. exists state.
  cbn [status statusCategory is_string].
  repeat split. destruct (str_eqb state (lit "delivered")); discriminate.
Qed.

Lemma trackBoxNow_category_witness :
  exists r,
    answer (trackBoxNow demo_runtime (lit "BN12345678")) (inr in_depot)
    = Ret r
    /\ success r = true
    /\ statusCategory r = in_transit.
Proof.
  destruct (trackBoxNow_category demo_runtime (lit "BN12345678") in_depot
              (JObj [(lit "data",
                      JArr [JObj [(lit "state", JStr (lit "in-depot"))]])])
              (JObj [(lit "state", JStr (lit "in-depot"))]) [])
    as (r & E & H).
  - reflexivity.
  - vm_compute. reflexivity.
  - exists r. split; [exact E|].
    vm_compute in E. injection E as <-. split; reflexivity.
Defined.


(* ================================================================== *)
(** * Normalization: trimming and upper-casing *)
(* ================================================================== *)

(** X1.  The detector sees through the normalization of its callers:
    trimming the number first, upper-casing it first, or both as [POST]
    does, leaves the detected carrier as it is. *)
Theorem detectCourier_normalized (s : jsstring) :
  detectCourier (toUpperCase (trim s)) = detectCourier s
  /\ detectCourier (toUpperCase s) = detectCourier s
  /\ detectCourier (trim s) = detectCourier s.
Proof.
  unfold detectCourier. repeat split.
  - rewrite normalize_idem. reflexivity.
  - rewrite trim_toUpperCase, toUpperCase_idem. reflexivity.
  - rewrite trim_idem. reflexivity.
Qed.

(* ================================================================== *)
(** * What the detector accepts *)
(* ================================================================== *)

(** No pattern of the registry accepts more than thirteen units. *)
Lemma registry_max_length :
  forallb (fun e => forallb (fun r => max_length r <=? 13)%nat
                            (patterns (snd e))) COURIERS = true.
Proof. vm_compute. reflexivity. Qed.

Lemma matches_max_length (e : jsstring * Courier) (s : jsstring) :
  In e COURIERS -> matches (snd e) s = true -> (length s <= 13)%nat.
Proof.
  intros He H. unfold matches in H. apply existsb_exists in H as (r & Hr & H).
  pose proof registry_max_length as W. rewrite forallb_forall in W.
  specialize (W e He). rewrite forallb_forall in W. specialize (W r Hr).
  apply Nat.leb_le in W. apply test_length in H. lia.
Qed.

(** X2.  A number is detected only if, trimmed and upper-cased, it is
    made of ten to thirteen digits and capital letters; the carrier that
    is returned is an entry of the registry with a pattern that matches. *)
Theorem detected_numbers (s code : jsstring) :
  detectCourier s = Some code ->
  exists c,
    In (code, c) COURIERS
    /\ matches c (toUpperCase (trim s)) = true
    /\ (10 <= length (toUpperCase (trim s)) <= 13)%nat
    /\ forallb word_unit (toUpperCase (trim s)) = true.
Proof.
  unfold detectCourier. intros H.
  apply detect_entries_split in H as (pre & c & post & E & M & _).
  assert (I : In (code, c) COURIERS).
  { rewrite E. apply in_or_app. right. left. reflexivity. }
  exists c. split; [exact I|]. split; [exact M|]. split; [split|].
  - exact (matches_min_length (code, c) _ I M).
  - exact (matches_max_length (code, c) _ I M).
  - exact (matches_word (code, c) _ I M).
Qed.

Lemma detected_numbers_witness :
  exists c,
    In (lit "box_now", c) COURIERS
    /\ matches c (lit "BN12345678") = true.
Proof.
  destruct (detected_numbers (lit " bn12345678 ") (lit "box_now"))
    as (c & I & M & _).
  - vm_compute. reflexivity.
  - exists c. split; [exact I|].
    replace (lit "BN12345678") with (toUpperCase (trim (lit " bn12345678 ")))
      by (vm_compute; reflexivity).
    exact M.
Defined.

(** X3.  [POST] lets a number of eight or nine units through its length
    check, but no carrier has a pattern that short: the step returns the
    detection-failure result without a request. *)
Theorem eight_or_nine_units_undetected (rt : Runtime) (s : jsstring) :
  (8 <= length (toUpperCase (trim s)) < 10)%nat ->
  trackOne rt s
  = Ret {| success := false;
           trackingNumber := toUpperCase (trim s);
           courier := lit "unknown";
           courierName := lit "Unknown Courier";
           courierColor := lit "#6b7280";
           status := lit "Error";
           statusCategory := error;
           events := JArr [];
           latestEvent := None;
           errorMessage :=
             Some (lit "Could not detect courier from tracking number format")
        |}.
Proof.
  intros [H8 H10]. unfold trackOne.
  apply Nat.ltb_ge in H8. rewrite H8.
  unfold trackShipment, detectCourier. rewrite normalize_idem.
  rewrite (detect_entries_short _ H10). reflexivity.
Qed.

Lemma eight_or_nine_units_undetected_witness :
  exists r,
    trackOne demo_runtime (lit "bn1234567") = Ret r
    /\ trackingNumber r = lit "BN1234567"
    /\ courierName r = lit "Unknown Courier".
Proof.
  eexists. split.
  - apply (eight_or_nine_units_undetected demo_runtime (lit "bn1234567")).
    vm_compute. lia.
  - split; vm_compute; reflexivity.
Defined.

(** An atom that takes at least one unit finds one of its class in the
    string. *)
Lemma test_needs_unit (r : regex) (s : jsstring) (a : atom) :
  test r s = true -> In a r -> (1 <= a_min a)%nat ->
  exists u, In u s /\ in_cls (a_cls a) u = true.
Proof.
  revert s. induction r as [|b r IH]; intros s H Ha Hm; [destruct Ha|].
  apply test_cut in H as (n & Hn & Hl & Hc & Ht).
  destruct Ha as [->|Ha].
  - destruct s as [|c s']; [simpl in Hl; lia|].
    destruct n as [|n]; [lia|]. simpl in Hc.
    apply andb_true_iff in Hc as [Hc _].
    exists c. split; [left; reflexivity|exact Hc].
  - destruct (IH _ Ht Ha Hm) as (u & Hu & Hcl).
    exists u. split; [|exact Hcl].
    rewrite <- (firstn_skipn n s). apply in_or_app. right. exact Hu.
Qed.

Lemma on_digits_sound (s : jsstring) (r : regex) (b : bool) :
  forallb is_digit s = true -> on_digits r (length s) = Some b ->
  test r s = b.
Proof.
  intros D H.
  assert (G : existsb needs_non_digit r = true -> test r s = false).
  { intros E. apply existsb_exists in E as (a & Ha & E).
    apply andb_true_iff in E as [Em Ed]. apply Nat.leb_le in Em.
    destruct (test r s) eqn:T; [|reflexivity]. exfalso.
    destruct (test_needs_unit r s a T Ha Em) as (u & Hu & Hc).
    rewrite forallb_forall in D.
    exact (cls_disjoint_sound _ _ u Ed Hc (D u Hu)). }
  unfold on_digits in H.
  destruct r as [|[[c| |] lo hi] [|a2 r]]; cbv iota beta in H;
    try (destruct (existsb needs_non_digit _) eqn:E; cbv iota in H;
         [|discriminate]; injection H as <-; apply G; reflexivity).
  injection H as <-.
  destruct ((lo <=? length s)%nat && (length s <=? hi)%nat) eqn:R.
  - apply andb_true_iff in R as [R1 R2]. apply Nat.leb_le in R1, R2.
    apply test_cut. exists (length s). cbn [a_min a_max a_cls].
    rewrite firstn_all, skipn_all. repeat split; try lia. exact D.
  - destruct (test [Atom Digit lo hi] s) eqn:T; [|reflexivity].
    apply test_cut in T as (n & Hn & Hl & _ & Ht). cbn [a_min a_max] in Hn.
    destruct (skipn n s) eqn:K; [|discriminate Ht].
    assert (L : length (skipn n s) = 0%nat) by (rewrite K; reflexivity).
    rewrite length_skipn in L.
    apply andb_false_iff in R as [R|R]; apply Nat.leb_gt in R; lia.
Qed.

(** The detector on a string of digits, by its length. *)
Lemma detect_entries_digits (s : jsstring) :
  forallb is_digit s = true ->
  detect_entries COURIERS s
  = if (length s =? 10)%nat then Some (lit "acs")
    else if (length s =? 11)%nat then Some (lit "geniki")
    else if (length s =? 12)%nat then Some (lit "speedex")
    else None.
Proof.
  intros D. unfold COURIERS.
  cbn [detect_entries detect_patterns patterns
       elta acs speedex box_now courier_center geniki].
  repeat match goal with
  | |- context [test ?r s] =>
    rewrite (on_digits_sound s r _ D eq_refl)
  end.
  destruct (Nat.eqb_spec (length s) 10) as [->|N10]; [reflexivity|].
  destruct (Nat.eqb_spec (length s) 11) as [->|N11]; [reflexivity|].
  destruct (Nat.eqb_spec (length s) 12) as [->|N12]; [reflexivity|].
  repeat match goal with
  | |- context [(?a <=? ?b)%nat] =>
    destruct (Nat.leb_spec a b); cbn [andb]; try lia
  end;
  reflexivity.
Qed.

(** X4.  A number made of digits only goes to [acs] when it has ten of
    them, to [geniki] when it has eleven, to [speedex] when it has
    twelve, and is not detected otherwise: the numeric rule of [geniki],
    ten to twelve digits, is reached with eleven digits only. *)
Theorem detectCourier_digits (s : jsstring) :
  forallb is_digit s = true ->
  detectCourier s
  = if (length s =? 10)%nat then Some (lit "acs")
    else if (length s =? 11)%nat then Some (lit "geniki")
    else if (length s =? 12)%nat then Some (lit "speedex")
    else None.
Proof.
  intros D. unfold detectCourier. rewrite (normalize_word s).
  - exact (detect_entries_digits s D).
  - rewrite forallb_forall in *. intros u Hu. unfold word_unit.
    specialize (D u Hu). unfold is_digit in D. rewrite D. reflexivity.
Qed.

Lemma detectCourier_digits_witness :
  detectCourier (lit "12345678901") = Some (lit "geniki")
  /\ detectCourier (lit "123456789") = None.
Proof.
  split.
  - rewrite (detectCourier_digits (lit "12345678901"));
      vm_compute; reflexivity.
  - rewrite (detectCourier_digits (lit "123456789"));
      vm_compute; reflexivity.
Defined.

(* ================================================================== *)
(** * The dispatcher: carriers without a fetcher, and the requests *)
(* ================================================================== *)

(** X5.  For a number of a carrier other than ELTA and Box Now the
    dispatcher returns at once the "Not Implemented" result, with the
    name and the colour the registry gives for that carrier: the
    fall-backs of the source for a carrier missing from the registry are
    never taken. *)
Theorem not_implemented (rt : Runtime) (tn code : jsstring) :
  detectCourier tn = Some code ->
  code <> lit "elta" -> code <> lit "box_now" ->
  exists c,
    In (code, c) COURIERS
    /\ trackShipment rt tn
       = Ret {| success := false;
                trackingNumber := tn;
                courier := code;
                courierName := name c;
                courierColor := color c;
                status := lit "Not Implemented";
                statusCategory := error;
                events := JArr [];
                latestEvent := None;
                errorMessage :=
                  Some (lit "Tracking for " ++ code
                        ++ lit " is not yet implemented") |}.
Proof.
  intros H He Hb. unfold trackShipment. rewrite H.
  destruct (str_eqb code (lit "elta")) eqn:E1;
    [apply str_eqb_eq in E1; congruence|].
  destruct (str_eqb code (lit "box_now")) eqn:E2;
    [apply str_eqb_eq in E2; congruence|].
  unfold detectCourier in H.
  apply detect_entries_split in H as (pre & c & post & E & _ & _).
  assert (I : In (code, c) COURIERS).
  { rewrite E. apply in_or_app. right. left. reflexivity. }
  exists c. split; [exact I|]. clear E E1 E2 pre post.
  unfold COURIERS in I. cbn [In] in I.
  repeat (destruct I as [I|I];
          [injection I as <- <-; try congruence;
           f_equal; f_equal; vm_compute; reflexivity|]).
  destruct I.
Qed.

Lemma not_implemented_witness :
  exists r,
    trackShipment demo_runtime (lit "CC12345678") = Ret r
    /\ courierName r = lit "Courier Center"
    /\ courierColor r = lit "#8b5cf6".
Proof.
  destruct (not_implemented demo_runtime (lit "CC12345678")
              (lit "courier_center")) as (c & I & E).
  - vm_compute. reflexivity.
  - intros H. vm_compute in H. discriminate.
  - intros H. vm_compute in H. discriminate.
  - eexists. split; [exact E|].
    unfold COURIERS in I. cbn [In] in I.
    repeat (destruct I as [I|I];
            [vm_compute in I; first [discriminate I|injection I as <-];
             split; vm_compute; reflexivity|]).
    destruct I.
Defined.

Lemma requests_settled {A : Type} (P : A -> Prop) (Q : thrown -> Prop)
    (p : Prog A) (W : Type)
    (net : Request -> W -> (thrown + Response) * W) (w : W) :
  Settled P Q p -> requests net p w = [].
Proof. intros [(a & -> & _)|(e & -> & _)]; reflexivity. Qed.

Lemma requests_bind {A B : Type} (m : Prog A) (f : A -> Prog B) (W : Type)
    (net : Request -> W -> (thrown + Response) * W) (w : W) :
  requests net (bind m f) w
  = requests net m w
    ++ match interp net m w with
       | (inr a, w') => requests net (f a) w'
       | (inl _, _) => []
       end.
Proof.
  revert w. induction m as [a|e|rq k IH]; intros w; simpl; try reflexivity.
  destruct (net rq w) as [o w']. rewrite IH. reflexivity.
Qed.

Lemma trackELTA_requests (rt : Runtime) (W : Type)
    (net : Request -> W -> (thrown + Response) * W) (w : W) (tn : jsstring) :
  exists rq,
    requests net (trackELTA rt tn) w = [rq]
    /\ method rq = lit "POST" /\ url rq = apiUrl elta
    /\ body rq = lit "number=" ++ tn ++ lit "&s=0".
Proof.
  pose proof (trackELTA_fetched rt tn) as S.
  unfold trackELTA, fetch in *. cbn [answer try_catch bind requests] in *.
  destruct (net _ w) as [o w'].
  rewrite (requests_settled _ _ _ W net w' (S o)).
  eexists. split; [reflexivity|]. repeat split.
Qed.

Lemma trackBoxNow_requests (rt : Runtime) (W : Type)
    (net : Request -> W -> (thrown + Response) * W) (w : W) (tn : jsstring) :
  exists rq,
    requests net (trackBoxNow rt tn) w = [rq]
    /\ method rq = lit "POST" /\ url rq = apiUrl box_now
    /\ body rq = JSON_stringify rt (JObj [(lit "parcelId", JStr tn)]).
Proof.
  pose proof (trackBoxNow_fetched rt tn) as S.
  unfold trackBoxNow, fetch in *. cbn [answer try_catch bind requests] in *.
  destruct (net _ w) as [o w'].
  rewrite (requests_settled _ _ _ W net w' (S o)).
  eexists. split; [reflexivity|]. repeat split.
Qed.

(** The requests of the dispatcher. *)
Lemma trackShipment_requests (rt : Runtime) (W : Type)
    (net : Request -> W -> (thrown + Response) * W) (w : W) (tn : jsstring) :
  length (requests net (trackShipment rt tn) w)
  = (if has_fetcher tn then 1 else 0)%nat
  /\ (forall rq,
        In rq (requests net (trackShipment rt tn) w) ->
        method rq = lit "POST"
        /\ ((detectCourier tn = Some (lit "elta")
             /\ url rq = apiUrl elta
             /\ body rq = lit "number=" ++ tn ++ lit "&s=0")
            \/ (detectCourier tn = Some (lit "box_now")
                /\ url rq = apiUrl box_now
                /\ body rq
                   = JSON_stringify rt (JObj [(lit "parcelId", JStr tn)])))).
Proof.
  unfold has_fetcher, trackShipment.
  destruct (detectCourier tn) as [code|]; [|split; [reflexivity|intros rq []]].
  destruct (str_eqb code (lit "elta")) eqn:E1.
  - apply str_eqb_eq in E1. subst code.
    destruct (trackELTA_requests rt W net w tn) as (rq & -> & M & U & B).
    split; [reflexivity|]. intros rq' [<-|[]].
    split; [exact M|]. left. repeat split; assumption.
  - destruct (str_eqb code (lit "box_now")) eqn:E2.
    + apply str_eqb_eq in E2. subst code.
      destruct (trackBoxNow_requests rt W net w tn) as (rq & -> & M & U & B).
      split; [reflexivity|]. intros rq' [<-|[]].
      split; [exact M|]. right. repeat split; assumption.
    + split; [reflexivity|intros rq []].
Qed.

(** X6.  The dispatcher sends at most one request for a number, and no
    second one whatever the answer: a [POST] to the endpoint of the
    detected carrier, carrying the number as it was passed in; it sends
    none for a number that is not detected or whose carrier has no
    fetcher. *)
Theorem one_request_per_number (rt : Runtime) (W : Type)
    (net : Request -> W -> (thrown + Response) * W) (w : W) (tn : jsstring) :
  length (requests net (trackShipment rt tn) w)
  = (if has_fetcher tn then 1 else 0)%nat
  /\ (forall rq,
        In rq (requests net (trackShipment rt tn) w) ->
        method rq = lit "POST"
        /\ ((detectCourier tn = Some (lit "elta")
             /\ url rq = apiUrl elta
             /\ body rq = lit "number=" ++ tn ++ lit "&s=0")
            \/ (detectCourier tn = Some (lit "box_now")
                /\ url rq = apiUrl box_now
                /\ body rq
                   = JSON_stringify rt (JObj [(lit "parcelId", JStr tn)])))).
Proof. exact (trackShipment_requests rt W net w tn). Qed.

Lemma trackOne_requests (rt : Runtime) (W : Type)
    (net : Request -> W -> (thrown + Response) * W) (w : W) (s : jsstring) :
  length (requests net (trackOne rt s) w)
  = (if has_fetcher s then 1 else 0)%nat.
Proof.
  assert (D : detectCourier (toUpperCase (trim s)) = detectCourier s).
  { unfold detectCourier. rewrite normalize_idem. reflexivity. }
  unfold trackOne.
  destruct (length (toUpperCase (trim s)) <? 8)%nat eqn:L.
  - apply Nat.ltb_lt in L. unfold has_fetcher, detectCourier.
    rewrite detect_entries_short by lia. reflexivity.
  - destruct (trackShipment_requests rt W net w (toUpperCase (trim s))) as [R _].
    rewrite R. unfold has_fetcher. rewrite D. reflexivity.
Qed.

(** X7.  On a batch of strings the loop sends exactly one request for
    each number that belongs to ELTA or to Box Now, and none for the
    others: never more requests than numbers, and no retry. *)
Theorem batch_requests (rt : Runtime) (W : Type)
    (net : Request -> W -> (thrown + Response) * W) (w : W)
    (nums : list jsstring) :
  length (requests net (trackAll rt (map JStr nums) []) w)
  = length (filter has_fetcher nums)
  /\ (length (requests net (trackAll rt (map JStr nums) []) w)
      <= length nums)%nat.
Proof.
  assert (G : forall results w,
             length (requests net (trackAll rt (map JStr nums) results) w)
             = length (filter has_fetcher nums)).
  { induction nums as [|n nums IH]; intros results w0; [reflexivity|].
    cbn [map trackAll filter]. rewrite requests_bind, length_app.
    rewrite trackOne_requests.
    pose proof (Outcomes_interp _ _ _ W net w0 (trackOne_outcomes rt n)) as R.
    destruct (interp net (trackOne rt n) w0) as [[e|r] w1];
      simpl in R; [destruct R|].
    rewrite IH. destruct (has_fetcher n); reflexivity. }
  split; [apply G|]. rewrite G. apply filter_length_le.
Qed.

(* ================================================================== *)
(** * Successes and failures *)
(* ================================================================== *)

Lemma getStatusCategory_not_error (status : jsstring) :
  getStatusCategory status <> error.
Proof.
  unfold getStatusCategory.
  repeat match goal with
  | |- (if ?b then _ else _) <> _ => destruct b
  end; discriminate.
Qed.

Lemma courier_field_nonempty (field : Courier -> jsstring)
    (code fallback : jsstring) :
  fallback <> [] -> courier_field field code fallback <> [].
Proof.
  intros H. unfold courier_field.
  destruct (find_courier code COURIERS) as [c|]; [|exact H].
  destruct (field c) eqn:E; [exact H|discriminate].
Qed.

Lemma detected_code_nonempty (tn code : jsstring) :
  detectCourier tn = Some code -> code <> [].
Proof.
  unfold detectCourier. intros H.
  apply detect_entries_split in H as (pre & c & post & E & _ & _).
  assert (I : In (code, c) COURIERS).
  { rewrite E. apply in_or_app. right. left. reflexivity. }
  unfold COURIERS in I. cbn [In] in I.
  repeat (destruct I as [I|I];
          [injection I as <- _; vm_compute; discriminate|]).
  destruct I.
Qed.

Section Coherence.

Variable rt : Runtime.

Ltac names_given :=
  repeat split; try (vm_compute; discriminate).

Ltac coherent_success :=
  split;
  [left; repeat split; cbn [statusCategory];
   first [discriminate
         |apply getStatusCategory_not_error
         |match goal with
          | |- (if ?b then _ else _) <> _ => destruct b; discriminate
          end]
  |names_given].

Ltac coherent_failure :=
  split;
  [right; split; [reflexivity|]; split; [reflexivity|];
   split; [reflexivity|]; split; [reflexivity|]; eexists; reflexivity
  |names_given].

Lemma trackELTA_coherent (tn : jsstring) (o : thrown + Response) :
  Settled coherent nothing (answer (trackELTA rt tn) o).
Proof.
  unfold trackELTA, fetch. cbn [answer try_catch bind].
  apply Settled_try_catch with (Q := anything).
  - eapply Settled_bind; [apply Settled_await|intros response _].
    eapply Settled_bind; [apply Settled_await|intros txt _].
    eapply Settled_bind; [apply Settled_await|intros data _].
    eapply Settled_bind; [apply Settled_member|intros data_status _].
    destruct (is_one data_status); [|apply Settled_ret; coherent_success].
    destruct (is_one _); [|apply Settled_ret; coherent_success].
    eapply Settled_bind; [apply Settled_member|intros result _].
    eapply Settled_bind;
      [apply Settled_call_translateStatus|intros translatedStatus _].
    apply Settled_ret. coherent_success.
  - intros e _. apply Settled_ret. coherent_failure.
Qed.

Lemma trackBoxNow_coherent (tn : jsstring) (o : thrown + Response) :
  Settled coherent nothing (answer (trackBoxNow rt tn) o).
Proof.
  unfold trackBoxNow, fetch. cbn [answer try_catch bind].
  apply Settled_try_catch with (Q := anything).
  - eapply Settled_bind; [apply Settled_await|intros response _].
    eapply Settled_bind; [apply Settled_await|intros data _].
    eapply Settled_bind; [apply Settled_member|intros data_data _].
    eapply Settled_bind; [apply Settled_gt_zero|intros nonempty _].
    destruct nonempty; [|apply Settled_ret; coherent_success].
    eapply Settled_bind; [apply Settled_member|intros parcel_events _].
    eapply Settled_bind; [apply Settled_call_map|intros events _].
    eapply Settled_bind; [apply Settled_member|intros parcel_state _].
    eapply Settled_bind;
      [apply Settled_call_translateStatus|intros translatedStatus _].
    apply Settled_ret. coherent_success.
  - intros e _. apply Settled_ret. coherent_failure.
Qed.

Lemma trackShipment_coherent (tn : jsstring) :
  Outcomes coherent nothing (trackShipment rt tn).
Proof.
  unfold trackShipment. destruct (detectCourier tn) as [code|] eqn:D.
  - destruct (str_eqb code (lit "elta")).
    { unfold trackELTA, fetch. cbn [try_catch bind]. apply O_Fetch. intros o.
      apply Settled_Outcomes. exact (trackELTA_coherent tn o). }
    destruct (str_eqb code (lit "box_now")).
    { unfold trackBoxNow, fetch. cbn [try_catch bind]. apply O_Fetch. intros o.
      apply Settled_Outcomes. exact (trackBoxNow_coherent tn o). }
    apply O_Ret.
    split; [right; split; [reflexivity|]; split; [reflexivity|];
            split; [reflexivity|]; split; [reflexivity|];
            eexists; reflexivity|].
    cbn [courier courierName courierColor]. split; [|split].
    + exact (detected_code_nonempty tn code D).
    + apply courier_field_nonempty. exact (detected_code_nonempty tn code D).
    + apply courier_field_nonempty. vm_compute. discriminate.
  - apply O_Ret. coherent_failure.
Qed.

Lemma trackOne_coherent (s : jsstring) :
  Outcomes coherent nothing (trackOne rt s).
Proof.
  unfold trackOne. destruct (_ <? _)%nat.
  - apply O_Ret. coherent_failure.
  - apply trackShipment_coherent.
Qed.

Lemma trackAll_coherent (items : list json) (results : list TrackingResult) :
  Forall coherent results ->
  Outcomes (Forall coherent) anything (trackAll rt items results).
Proof.
  revert results. induction items as [|item rest IH]; intros results H.
  - apply O_Ret, H.
  - cbn [trackAll]. destruct item; try (apply O_Throw; exact I).
    apply Outcomes_bind with (P := coherent).
    + apply Outcomes_weaken with (P := coherent) (Q := nothing);
        [tauto|intros e []|apply trackOne_coherent].
    + intros r C. apply IH, Forall_app. split; [exact H|].
      constructor; [exact C|constructor].
Qed.

Lemma POST_coherent (request_json : thrown + json) :
  Outcomes payload_coherent nothing (POST rt request_json).
Proof.
  unfold POST. apply Outcomes_try_catch with (Q := anything).
  - apply Outcomes_bind with (P := anything);
      [apply Settled_Outcomes, Settled_await|intros body _].
    apply Outcomes_bind with (P := anything);
      [apply Settled_Outcomes, Settled_member|intros trackingNumbers _].
    destruct (_ || _); [apply O_Ret; exact I|].
    apply Outcomes_bind with (P := Forall coherent);
      [apply trackAll_coherent; constructor|intros results H].
    apply O_Ret. exact H.
  - intros e _. apply O_Ret. exact I.
Qed.

Lemma GET_coherent (number : option jsstring) :
  Outcomes payload_coherent nothing (GET rt number).
Proof.
  unfold GET. destruct number as [[|c s]|]; try (apply O_Ret; exact I).
  apply Outcomes_bind with (P := coherent);
    [apply trackShipment_coherent|intros r C].
  apply O_Ret. exact C.
Qed.

End Coherence.

(** X8.  Every result in an answer of [POST] or [GET], on every run,
    is either a success, without [errorMessage] and in a category other
    than ["error"], or a failure, with an [errorMessage], in the category
    ["error"] and without events or latest event; and its [courier],
    [courierName] and [courierColor] are never empty. *)
Theorem results_coherent (rt : Runtime) (W : Type)
    (net : Request -> W -> (thrown + Response) * W) (w : W) :
  (forall request_json, exists response,
      fst (interp net (POST rt request_json) w) = inr response
      /\ match payload response with
         | ResultsBody results => Forall coherent results
         | ResultBody result => coherent result
         | ErrorBody _ => True
         end)
  /\ (forall number, exists response,
        fst (interp net (GET rt number) w) = inr response
        /\ match payload response with
           | ResultsBody results => Forall coherent results
           | ResultBody result => coherent result
           | ErrorBody _ => True
           end).
Proof.
  split.
  - intros request_json.
    exact (Outcomes_returns _ _ W net w (POST_coherent rt request_json)).
  - intros number.
    exact (Outcomes_returns _ _ W net w (GET_coherent rt number)).
Qed.

(* ================================================================== *)
(** * ELTA: a shipment that is found *)
(* ================================================================== *)

(** The steps of [trackELTA] up to the entry of the number. *)
Lemma trackELTA_entry (rt : Runtime) (tn : jsstring) (response : Response)
    (txt : jsstring) (data entry : json) :
  text response = inr txt ->
  JSON_parse rt (if startsWith txt [65279] then skipn 1 txt else txt)
  = inr data ->
  is_one (get data (lit "status")) = true ->
  opt_get (get data (lit "result")) tn = Some entry ->
  is_one (opt_get (Some entry) (lit "status")) = true ->
  answer (trackELTA rt tn) (inr response)
  = try_catch
      (translatedStatus <-
         call_translateStatus rt
           (or_else
              (opt_get
                 (get (or_else (get entry (lit "result")) (JArr [])) (lit "0"))
                 (lit "status"))
              (JStr [])) ;;
       Ret {| success := true;
              trackingNumber := tn;
              courier := lit "elta";
              courierName := name elta;
              courierColor := color elta;
              status := translatedStatus;
              statusCategory := getStatusCategory translatedStatus;
              events := or_else (get entry (lit "result")) (JArr []);
              latestEvent :=
                get (or_else (get entry (lit "result")) (JArr [])) (lit "0");
              errorMessage := None |})
      (fun err =>
         Ret {| success := false;
                trackingNumber := tn;
                courier := lit "elta";
                courierName := name elta;
                courierColor := color elta;
                status := lit "Error";
                statusCategory := error;
                events := JArr [];
                latestEvent := None;
                errorMessage := Some (message_of err) |}).
Proof.
  intros T P S1 En S2.
  assert (Hd : data <> JNull).
  { intros ->. vm_compute in S1. discriminate. }
  assert (He : entry <> JNull).
  { intros ->. vm_compute in S2. discriminate. }
  unfold trackELTA, fetch. cbn [answer try_catch bind await].
  rewrite T. cbn [await bind try_catch]. cbv zeta.
  match goal with
  | |- context [JSON_parse rt ?x] =>
    replace (JSON_parse rt x) with (@inr jsstring json data)
      by (symmetry; exact P)
  end.
  cbn [await bind try_catch]. rewrite (member_some rt _ data _ Hd).
  cbn [bind]. rewrite S1, En, S2.
  rewrite (member_some rt _ entry _ He). cbn [bind]. reflexivity.
Qed.

Lemma translateStatus_empty :
  translateStatus [] = [] /\ getStatusCategory [] = unknown.
Proof. split; vm_compute; reflexivity. Qed.

(** X9.  When ELTA has an entry for the number whose history is
    missing or empty, the result is a success with an empty status, the
    category ["unknown"], no events and no latest event. *)
Theorem trackELTA_empty_history (rt : Runtime) (tn : jsstring)
    (response : Response) (txt : jsstring) (data entry : json) :
  text response = inr txt ->
  JSON_parse rt (if startsWith txt [65279] then skipn 1 txt else txt)
  = inr data ->
  is_one (get data (lit "status")) = true ->
  opt_get (get data (lit "result")) tn = Some entry ->
  is_one (opt_get (Some entry) (lit "status")) = true ->
  or_else (get entry (lit "result")) (JArr []) = JArr [] ->
  answer (trackELTA rt tn) (inr response)
  = Ret {| success := true;
           trackingNumber := tn;
           courier := lit "elta";
           courierName := name elta;
           courierColor := color elta;
           status := [];
           statusCategory := unknown;
           events := JArr [];
           latestEvent := None;
           errorMessage := None |}.
Proof.
  intros T P S1 En S2 Ev.
  rewrite (trackELTA_entry rt tn response txt data entry T P S1 En S2).
  rewrite Ev.
  replace (get (JArr []) (lit "0")) with (@None json)
    by (vm_compute; reflexivity).
  cbn [opt_get or_else call_translateStatus bind try_catch].
  destruct translateStatus_empty as [-> ->]. reflexivity.
Qed.

(** X10.  When ELTA has an entry for the number with a history, the
    events of the result are the carrier's array as it came, untranslated
    and in its order, and the latest event is its first element.  The
    status of the result is the translation of the status of that first
    element when it is a string, and of the empty string when it is
    missing or falsy ([null], [0], [false], ['']); the category is the
    normalizer's for that translation.  When that status is truthy and
    not a string (a number other than [0], [true], an array, an object),
    the result is a failure although the shipment was found. *)
Theorem trackELTA_history (rt : Runtime) (tn : jsstring)
    (response : Response) (txt : jsstring) (data entry first : json)
    (rest : list json) :
  text response = inr txt ->
  JSON_parse rt (if startsWith txt [65279] then skipn 1 txt else txt)
  = inr data ->
  is_one (get data (lit "status")) = true ->
  opt_get (get data (lit "result")) tn = Some entry ->
  is_one (opt_get (Some entry) (lit "status")) = true ->
  get entry (lit "result") = Some (JArr (first :: rest)) ->
  (forall s,
      or_else (opt_get (Some first) (lit "status")) (JStr []) = JStr s ->
      answer (trackELTA rt tn) (inr response)
      = Ret {| success := true;
               trackingNumber := tn;
               courier := lit "elta";
               courierName := name elta;
               courierColor := color elta;
               status := translateStatus s;
               statusCategory := getStatusCategory (translateStatus s);
               events := JArr (first :: rest);
               latestEvent := Some first;
               errorMessage := None |})
  /\ ((forall s, or_else (opt_get (Some first) (lit "status")) (JStr [])
                 <> JStr s) ->
      exists r,
        answer (trackELTA rt tn) (inr response) = Ret r
        /\ success r = false /\ statusCategory r = error
        /\ events r = JArr []
        /\ errorMessage r
           = Some (type_error_message rt (lit "status.toLowerCase"))).
Proof.
  intros T P S1 En S2 Ev.
  rewrite (trackELTA_entry rt tn response txt data entry T P S1 En S2).
  rewrite Ev. cbn [or_else truthy]. rewrite get_first. cbn [nth_error].
  split.
  - intros s Hs. rewrite Hs. reflexivity.
  - intros Hs.
    destruct (or_else (opt_get (Some first) (lit "status")) (JStr []))
      as [| | |s| |];
      try solve [cbn [call_translateStatus bind try_catch];
                 eexists; split; [reflexivity|repeat split; reflexivity]].
    exfalso. exact (Hs s eq_refl).
Qed.

(** X11.  A byte-order mark in front of the body of ELTA's answer makes
    no difference: it is taken off before the body is parsed. *)
Theorem trackELTA_byte_order_mark (rt : Runtime) (tn txt : jsstring)
    (j : thrown + json) :
  startsWith txt [65279] = false ->
  answer (trackELTA rt tn) (inr {| text := inr (65279 :: txt); json_ := j |})
  = answer (trackELTA rt tn) (inr {| text := inr txt; json_ := j |}).
Proof.
  intros H. unfold trackELTA, fetch.
  cbn [answer try_catch bind await text]. cbv zeta.
  replace (startsWith (65279 :: txt) [65279]) with true
    by (destruct txt; reflexivity).
  rewrite H. reflexivity.
Qed.

(* ================================================================== *)
(** * Box Now: the events *)
(* ================================================================== *)

Lemma split_pieces_first (sep : N) (s : jsstring) :
  forallb (fun u => negb (u =? sep)) (fst (split_pieces sep s)) = true.
Proof.
  induction s as [|c s IH]; simpl; [reflexivity|].
  destruct (split_pieces sep s) as [w ws]. simpl in IH.
  destruct (c =? sep) eqn:E; simpl; [reflexivity|].
  rewrite E. exact IH.
Qed.

Lemma split_pieces_rest (sep : N) (s : jsstring) :
  Forall (fun piece => forallb (fun u => negb (u =? sep)) piece = true)
         (snd (split_pieces sep s)).
Proof.
  induction s as [|c s IH]; simpl; [constructor|].
  pose proof (split_pieces_first sep s) as F.
  destruct (split_pieces sep s) as [w ws]. simpl in IH, F.
  destruct (c =? sep) eqn:E; simpl; [|exact IH].
  constructor; assumption.
Qed.

Lemma split_pieces_no_sep (sep : N) (s : jsstring) :
  forallb (fun u => negb (u =? sep)) s = true -> split_pieces sep s = (s, []).
Proof.
  induction s as [|c s IH]; simpl; [reflexivity|]. intros H.
  apply andb_true_iff in H as [Hc Hs]. apply negb_true_iff in Hc.
  rewrite (IH Hs), Hc. reflexivity.
Qed.

Lemma split_pieces_app (sep : N) (d t : jsstring) :
  forallb (fun u => negb (u =? sep)) d = true ->
  split_pieces sep (d ++ sep :: t)
  = (d, fst (split_pieces sep t) :: snd (split_pieces sep t)).
Proof.
  induction d as [|c d IH]; simpl; intros H.
  - destruct (split_pieces sep t) as [w ws]. rewrite N.eqb_refl. reflexivity.
  - apply andb_true_iff in H as [Hc Hd]. apply negb_true_iff in Hc.
    rewrite (IH Hd), Hc. reflexivity.
Qed.

Lemma firstn_forallb {A : Type} (P : A -> bool) (n : nat) (l : list A) :
  forallb P l = true -> forallb P (firstn n l) = true.
Proof.
  revert n. induction l as [|x l IH]; intros [|n] H; simpl; try reflexivity.
  simpl in H. apply andb_true_iff in H as [Hx Hl].
  rewrite Hx. exact (IH n Hl).
Qed.

(** The callback on an event it can read, and on one it cannot. *)
Lemma boxnow_event_cases (rt : Runtime) (e : json) :
  if event_ok e then
    exists date time place status_,
      boxnow_event rt e = Ret (JObj [ (lit "date", JStr date);
                                      (lit "time", JStr time);
                                      (lit "place", place);
                                      (lit "status", status_) ])
      /\ forallb (fun u => negb (u =? 84)) date = true
      /\ forallb (fun u => negb (u =? 84)) time = true
      /\ (length time <= 8)%nat
      /\ place = or_else (get e (lit "locationDisplayName")) (JStr [])
      /\ status_ = or_else (get e (lit "type")) (JStr [])
  else exists message, boxnow_event rt e = Throw (ErrorObject message).
Proof.
  unfold boxnow_event, event_ok.
  destruct (member_null_or_get rt e) as [M|M]; rewrite M.
  - assert (E : e = JNull).
    { destruct e; try reflexivity;
        specialize (M "e.createTime"%string []); discriminate M. }
    subst e. cbn [bind]. eexists. reflexivity.
  - assert (E : e <> JNull).
    { intros ->. specialize (M "e.createTime"%string []). discriminate M. }
    cbn [bind].
    replace (match e with JNull => false | _ =>
               match get e (lit "createTime") with
               | None | Some JNull | Some (JStr _) => true
               | Some _ => false
               end end)
      with (match get e (lit "createTime") with
            | None | Some JNull | Some (JStr _) => true
            | Some _ => false
            end)
      by (destruct e; [congruence|reflexivity..]).
    destruct (get e (lit "createTime")) as [[| | |s| |]|];
      cbn [call_split bind];
      try (eexists; reflexivity);
      try (exists [], [], (or_else (get e (lit "locationDisplayName"))
                                   (JStr [])),
                  (or_else (get e (lit "type")) (JStr []));
           repeat split; simpl; lia).
    unfold split.
    pose proof (split_pieces_first 84 s) as F.
    pose proof (split_pieces_rest 84 s) as R.
    destruct (split_pieces 84 s) as [w ws]. simpl in F, R.
    eexists w, _, _, _. split; [reflexivity|].
    split; [exact F|]. destruct ws as [|t ws'].
    + repeat split. simpl. lia.
    + inversion R as [|? ? Ht _]. subst.
      split; [apply firstn_forallb, Ht|].
      split; [unfold slice0; rewrite length_firstn; lia|].
      split; reflexivity.
Qed.

(** X12.  Every event that the Box Now fetcher builds has the four
    fields [date], [time], [place], [status], in that order: [date] and
    [time] are strings without a ['T'], [time] has at most eight units,
    and [place] and [status] are the carrier's [locationDisplayName] and
    [type], or the empty string when those are missing or falsy. *)
Theorem boxnow_event_shape (rt : Runtime) (e x : json) :
  boxnow_event rt e = Ret x ->
  exists date time,
    is_event x date time
      (or_else (get e (lit "locationDisplayName")) (JStr []))
      (or_else (get e (lit "type")) (JStr []))
    /\ forallb (fun u => negb (u =? 84)) date = true
    /\ forallb (fun u => negb (u =? 84)) time = true
    /\ (length time <= 8)%nat.
Proof.
  intros H. pose proof (boxnow_event_cases rt e) as C.
  destruct (event_ok e).
  - destruct C as (date & time & place & st & E & Hd & Ht & Hl & -> & ->).
    rewrite E in H. injection H as <-.
    exists date, time. repeat split; assumption.
  - destruct C as (m & E). rewrite E in H. discriminate H.
Qed.

(** X13.  From a [createTime] of the form date, ['T'], time, where
    neither part holds a ['T'], the callback takes the date as it is and
    the first eight units of the time. *)
Theorem boxnow_event_timestamp (rt : Runtime) (e : json)
    (date time : jsstring) :
  e <> JNull ->
  get e (lit "createTime") = Some (JStr (date ++ 84 :: time)) ->
  forallb (fun u => negb (u =? 84)) date = true ->
  forallb (fun u => negb (u =? 84)) time = true ->
  exists x,
    boxnow_event rt e = Ret x
    /\ is_event x date (firstn 8 time)
         (or_else (get e (lit "locationDisplayName")) (JStr []))
         (or_else (get e (lit "type")) (JStr [])).
Proof.
  intros He Hc Hd Ht. unfold boxnow_event.
  rewrite (member_some rt _ e _ He), Hc. cbn [bind call_split].
  unfold split. rewrite (split_pieces_app 84 date time Hd).
  rewrite (split_pieces_no_sep 84 time Ht). cbn [fst snd bind].
  eexists. split; reflexivity.
Qed.

(** The callback over an array: all events in order, or the first
    failure. *)
Lemma map_events_cases (rt : Runtime) (items : list json) :
  if forallb event_ok items then
    exists xs,
      map_events rt items = Ret xs
      /\ Forall2 (fun e x => boxnow_event rt e = Ret x) items xs
  else exists message, map_events rt items = Throw (ErrorObject message).
Proof.
  induction items as [|e items IH]; cbn [forallb map_events].
  - exists []. split; [reflexivity|constructor].
  - pose proof (boxnow_event_cases rt e) as C.
    destruct (event_ok e); cbn [andb].
    + destruct C as (d & t & p & st & E & _). rewrite E. cbn [bind].
      destruct (forallb event_ok items).
      * destruct IH as (xs & -> & F). cbn [bind].
        eexists. split; [reflexivity|]. constructor; assumption.
      * destruct IH as (m & ->). cbn [bind]. eexists. reflexivity.
    + destruct C as (m & ->). cbn [bind]. eexists. reflexivity.
Qed.

(** X14.  For a parcel of Box Now with a state and an array of events:
    when every event can be read (it is not [null] and its [createTime]
    is missing, [null] or a string), the result is a success whose
    events are the carrier's events mapped one by one, in the same order
    and number, with the first as latest event; when one event cannot be
    read (a [null] in the array, or a [createTime] that is a number, a
    boolean, an array or an object, [0] and [false] included), the whole
    result is a failure without events. *)
Theorem trackBoxNow_events (rt : Runtime) (tn : jsstring)
    (response : Response) (data parcel : json) (rest items : list json)
    (state : jsstring) :
  json_ response = inr data ->
  get data (lit "data") = Some (JArr (parcel :: rest)) ->
  parcel <> JNull ->
  or_else (get parcel (lit "events")) (JArr []) = JArr items ->
  or_else (get parcel (lit "state")) (JStr []) = JStr state ->
  (forallb event_ok items = true ->
   exists r xs,
     answer (trackBoxNow rt tn) (inr response) = Ret r
     /\ success r = true /\ status r = translateStatus state
     /\ events r = JArr xs /\ latestEvent r = nth_error xs 0
     /\ length xs = length items
     /\ Forall2 (fun e x => boxnow_event rt e = Ret x) items xs)
  /\ (forallb event_ok items = false ->
      exists r,
        answer (trackBoxNow rt tn) (inr response) = Ret r
        /\ success r = false /\ statusCategory r = error
        /\ events r = JArr []).
Proof.
  intros J D Hp Ev St.
  assert (Hd : data <> JNull) by (intros ->; discriminate D).
  assert (E : answer (trackBoxNow rt tn) (inr response)
              = try_catch
                  (events <- map_events rt items ;;
                   Ret {| success := true;
                          trackingNumber := tn;
                          courier := lit "box_now";
                          courierName := name box_now;
                          courierColor := color box_now;
                          status := translateStatus state;
                          statusCategory :=
                            if str_eqb state (lit "delivered") then delivered
                            else in_transit;
                          events := JArr events;
                          latestEvent := nth_error events 0;
                          errorMessage := None |})
                  (fun err =>
                     Ret {| success := false;
                            trackingNumber := tn;
                            courier := lit "box_now";
                            courierName := name box_now;
                            courierColor := color box_now;
                            status := lit "Error";
                            statusCategory := error;
                            events := JArr [];
                            latestEvent := None;
                            errorMessage := Some (message_of err) |})).
  { unfold trackBoxNow, fetch. cbn [answer try_catch bind await].
    rewrite J. cbn [await bind try_catch].
    rewrite (member_some rt _ data _ Hd), D.
    cbn [bind or_else truthy]. rewrite get_length, get_first.
    cbn [length gt_zero bind nth_error]. rewrite num_of_nat_positive.
    rewrite !(member_some rt _ parcel _ Hp). cbn [bind].
    rewrite Ev, St. cbn [call_map call_translateStatus is_string].
    destruct (map_events rt items); reflexivity. }
  rewrite E. pose proof (map_events_cases rt items) as C. split; intros F;
    rewrite F in C.
  - destruct C as (xs & -> & F2). cbn [bind try_catch].
    eexists. exists xs. split; [reflexivity|].
    repeat split; try assumption. symmetry. exact (Forall2_length F2).
  - destruct C as (m & ->). cbn [bind try_catch].
    eexists. split; [reflexivity|]. repeat split.
Qed.

(* ================================================================== *)
(** * POST and GET: what they refuse and what they pass on *)
(* ================================================================== *)

(** X15.  [POST] answers with the status 500 when the body of the
    request cannot be read or is [null], and with the status 400 when the
    body has no [trackingNumbers], or one that is not an array, or an
    empty one; in each case at once, without a result and without a
    request to a carrier. *)
Theorem POST_refusals (rt : Runtime) :
  (forall e,
      POST rt (inl e)
      = Ret (Json (ErrorBody (lit "Failed to process tracking request")) 500))
  /\ POST rt (inr JNull)
     = Ret (Json (ErrorBody (lit "Failed to process tracking request")) 500)
  /\ (forall body,
        body <> JNull ->
        (forall item items,
            get body (lit "trackingNumbers") <> Some (JArr (item :: items))) ->
        POST rt (inr body)
        = Ret (Json (ErrorBody
                       (lit "Please provide at least one tracking number"))
                    400)).
Proof.
  split; [reflexivity|]. split; [reflexivity|].
  intros body Hb H. unfold POST. cbn [await bind].
  rewrite (member_some rt _ body _ Hb). cbn [bind].
  destruct (get body (lit "trackingNumbers")) as [[| | | |items|]|];
    cbn [not_ isArray array_items truthy negb orb length Nat.eqb try_catch];
    try rewrite orb_true_r; try reflexivity.
  destruct items as [|item items]; [reflexivity|].
  exfalso. exact (H item items eq_refl).
Qed.

Lemma trackAll_non_string (rt : Runtime) (items : list json)
    (results : list TrackingResult) :
  existsb (fun x => match x with JStr _ => false | _ => true end) items
  = true ->
  Outcomes nothing anything (trackAll rt items results).
Proof.
  revert results. induction items as [|item rest IH]; intros results H;
    [discriminate H|].
  cbn [trackAll]. cbn [existsb] in H.
  destruct item; try (apply O_Throw; exact I).
  cbn [orb] in H.
  apply Outcomes_bind with (P := anything).
  - apply Outcomes_weaken
      with (P := result_for (toUpperCase (trim s))) (Q := nothing);
      [intros; exact I|intros e []|apply trackOne_outcomes].
  - intros r _. apply IH, H.
Qed.

(** X16.  One element of the batch that is not a string makes [POST]
    answer with the status 500 and no results at all, on every run, even
    when numbers before it have been fetched. *)
Theorem POST_non_string_element (rt : Runtime) (body : json)
    (items : list json) (W : Type)
    (net : Request -> W -> (thrown + Response) * W) (w : W) :
  get body (lit "trackingNumbers") = Some (JArr items) ->
  existsb (fun x => match x with JStr _ => false | _ => true end) items
  = true ->
  fst (interp net (POST rt (inr body)) w)
  = inr (Json (ErrorBody (lit "Failed to process tracking request")) 500).
Proof.
  intros Hb Hx.
  assert (Hn : body <> JNull) by (intros ->; discriminate Hb).
  assert (O : Outcomes
                (fun response =>
                   response
                   = Json (ErrorBody (lit "Failed to process tracking request"))
                          500)
                nothing (POST rt (inr body))).
  { unfold POST. apply Outcomes_try_catch with (Q := anything).
    - cbn [await bind]. rewrite (member_some rt _ body _ Hn), Hb.
      cbn [bind not_ isArray array_items truthy negb orb].
      destruct items as [|item items]; [discriminate Hx|].
      cbn [length Nat.eqb].
      apply Outcomes_bind with (P := nothing).
      + apply trackAll_non_string, Hx.
      + intros results [].
    - intros e _. apply O_Ret. reflexivity. }
  destruct (Outcomes_returns _ _ W net w O) as (r & -> & ->). reflexivity.
Qed.

Lemma trackOne_long (rt : Runtime) (s : jsstring) :
  (8 <= length (toUpperCase (trim s)))%nat ->
  trackOne rt s = trackShipment rt (toUpperCase (trim s)).
Proof.
  intros H. unfold trackOne. apply Nat.ltb_ge in H. rewrite H. reflexivity.
Qed.

(** A handler that is not needed sends nothing. *)
Lemma requests_try_catch {A : Type} (m : Prog A) (h : thrown -> Prog A)
    (W : Type) (net : Request -> W -> (thrown + Response) * W) (w : W) :
  (exists a w', interp net m w = (inr a, w')) ->
  requests net (try_catch m h) w = requests net m w.
Proof.
  revert w. induction m as [a|e|rq k IH]; intros w (a' & w' & E);
    simpl in *; [reflexivity|discriminate E|].
  destruct (net rq w) as [o w1]. f_equal. apply IH. eauto.
Qed.

(** X17.  For a number without white space around it and of at least
    eight units once upper-cased, the two handlers agree: on every run
    [GET] answers with the result that [POST] answers for the batch of
    that one number, after the same requests. *)
Theorem GET_agrees_with_POST (rt : Runtime) (s : jsstring) (W : Type)
    (net : Request -> W -> (thrown + Response) * W) (w : W) :
  s <> [] -> trim s = s -> (8 <= length (toUpperCase s))%nat ->
  exists r w',
    interp net (GET rt (Some s)) w = (inr (Json (ResultBody r) 200), w')
    /\ interp net
         (POST rt (inr (JObj [(lit "trackingNumbers", JArr [JStr s])]))) w
       = (inr (Json (ResultsBody [r]) 200), w')
    /\ requests net (GET rt (Some s)) w
       = requests net
           (POST rt (inr (JObj [(lit "trackingNumbers", JArr [JStr s])]))) w.
Proof.
  intros Hs Ht Hl.
  assert (E1 : trackOne rt s = trackShipment rt (toUpperCase s)).
  { rewrite trackOne_long; rewrite Ht; [reflexivity|exact Hl]. }
  assert (G : GET rt (Some s)
              = (result <- trackShipment rt (toUpperCase s) ;;
                 Ret (Json (ResultBody result) 200))).
  { destruct s; [congruence|reflexivity]. }
  assert (P : POST rt (inr (JObj [(lit "trackingNumbers", JArr [JStr s])]))
              = try_catch
                  (results <-
                     (result <- trackShipment rt (toUpperCase s) ;;
                      Ret [result]) ;;
                   Ret (Json (ResultsBody results) 200))
                  (fun err =>
                     Ret (Json (ErrorBody
                                  (lit "Failed to process tracking request"))
                               500))).
  { unfold POST. cbn [await bind member get lookup].
    rewrite str_eqb_refl. cbn [bind not_ isArray array_items truthy negb orb
                               length Nat.eqb trackAll].
    rewrite E1. reflexivity. }
  pose proof (Outcomes_interp _ _ _ W net w
                (trackShipment_outcomes rt (toUpperCase s))) as R.
  rewrite G, P. rewrite interp_try_catch, !interp_bind.
  destruct (interp net (trackShipment rt (toUpperCase s)) w)
    as [[e|r] w1] eqn:I; simpl in R; [destruct R|].
  exists r, w1. split; [reflexivity|]. split; [reflexivity|].
  rewrite requests_try_catch.
  - rewrite !requests_bind, !interp_bind, I. cbn [requests interp].
    rewrite !app_nil_r. reflexivity.
  - rewrite !interp_bind, I. cbn [interp]. eexists. eexists. reflexivity.
Qed.

(** X18.  What the carrier is asked about.  [GET] forwards the number
    upper-cased but untrimmed, white space included, and reports it so;
    the step of [POST] forwards and reports it trimmed as well. *)
Theorem forwarded_number (rt : Runtime) (s : jsstring) (W : Type)
    (net : Request -> W -> (thrown + Response) * W) (w : W) :
  (s <> [] ->
   (forall rq, In rq (requests net (GET rt (Some s)) w) ->
               carries rt (toUpperCase s) rq)
   /\ exists r,
        fst (interp net (GET rt (Some s)) w) = inr (Json (ResultBody r) 200)
        /\ trackingNumber r = toUpperCase s)
  /\ (forall rq, In rq (requests net (trackOne rt s) w) ->
                 carries rt (toUpperCase (trim s)) rq)
  /\ exists r,
       fst (interp net (trackOne rt s) w) = inr r
       /\ trackingNumber r = toUpperCase (trim s).
Proof.
  assert (C : forall tn w0 rq,
             In rq (requests net (trackShipment rt tn) w0) ->
             carries rt tn rq).
  { intros tn w0 rq H.
    destruct (trackShipment_requests rt W net w0 tn) as [_ R].
    destruct (R rq H) as [_ [(_ & _ & B)|(_ & _ & B)]];
      [left|right]; exact B. }
  split; [|split].
  - intros Hs.
    assert (G : GET rt (Some s)
                = (result <- trackShipment rt (toUpperCase s) ;;
                   Ret (Json (ResultBody result) 200))).
    { destruct s; [congruence|reflexivity]. }
    rewrite G. split.
    + intros rq H. rewrite requests_bind in H.
      apply in_app_or in H as [H|H]; [exact (C _ _ _ H)|].
      destruct (interp net (trackShipment rt (toUpperCase s)) w)
        as [[e|r] w1]; destruct H.
    + pose proof (Outcomes_interp _ _ _ W net w
                    (trackShipment_outcomes rt (toUpperCase s))) as R.
      rewrite interp_bind.
      destruct (interp net (trackShipment rt (toUpperCase s)) w)
        as [[e|r] w1]; simpl in R; [destruct R|].
      exists r. split; [reflexivity|apply R].
  - intros rq H. unfold trackOne in H.
    destruct (_ <? _)%nat; [destruct H|exact (C _ _ _ H)].
  - destruct (Outcomes_returns _ _ W net w (trackOne_outcomes rt s))
      as (r & E & T & _).
    exists r. split; assumption.
Qed.

(* ================================================================== *)
(** * The normalizer once more *)
(* ================================================================== *)

(** What [translateStatus] gives: its argument, or one of five texts. *)
Lemma translateStatus_range (status : jsstring) :
  translateStatus status = status
  \/ In (translateStatus status)
        [lit "Delivered"; lit "In Transit"; lit "Shipment Created";
         lit "In Depot"; lit "At Destination"].
Proof.
  unfold translateStatus, STATUS_TRANSLATIONS. cbn [translate_entries].
  destruct (entry_matches _ (lit "Αποστολή παραδόθηκε")) eqn:M1;
    [right; simpl; tauto|].
  destruct (entry_matches _ (lit "Αποστολή παραδόθηκε σε")) eqn:M2;
    [apply delivered_to_shadowed in M2; congruence|].
  repeat match goal with
  | |- context [if entry_matches ?a ?b then _ else _] =>
    destruct (entry_matches a b); [right; simpl; tauto|]
  end.
  left. reflexivity.
Qed.

Lemma translateStatus_fixed_texts :
  Forall (fun text => translateStatus text = text)
         [lit "Delivered"; lit "In Transit"; lit "Shipment Created";
          lit "In Depot"; lit "At Destination"].
Proof. repeat constructor; vm_compute; reflexivity. Qed.

(** X19.  Translating a status that is already translated changes
    nothing: [translateStatus] gives its argument back or one of five
    English texts, and it leaves each of those as it is. *)
Theorem translateStatus_idempotent (status : jsstring) :
  translateStatus (translateStatus status) = translateStatus status
  /\ (translateStatus status = status
      \/ In (translateStatus status)
            [lit "Delivered"; lit "In Transit"; lit "Shipment Created";
             lit "In Depot"; lit "At Destination"]).
Proof.
  split; [|apply translateStatus_range].
  destruct (translateStatus_range status) as [E|I].
  - rewrite E. exact E.
  - pose proof translateStatus_fixed_texts as F.
    rewrite Forall_forall in F. exact (F _ I).
Qed.

(* ================================================================== *)
(** * The page and the batch it sends *)
(* ================================================================== *)

Lemma normalized_submittable (piece : jsstring) :
  (8 <= length (toUpperCase (trim piece)))%nat ->
  submittable (toUpperCase (trim piece)).
Proof. intros H. split; [exact H|apply normalize_idem]. Qed.

(** What [addTrackingNumber] appends. *)
Lemma addTrackingNumber_added (st : PageState) :
  exists added,
    trackingNumbers (addTrackingNumber st) = trackingNumbers st ++ added
    /\ results (addTrackingNumber st) = results st
    /\ Forall (fun n => submittable n /\ ~ In n (trackingNumbers st)) added
    /\ (added = [] -> addTrackingNumber st = st)
    /\ (added <> [] -> inputValue (addTrackingNumber st) = []).
Proof.
  unfold addTrackingNumber.
  set (numbers := filter _ _).
  assert (F : Forall (fun n => submittable n /\ ~ In n (trackingNumbers st))
                     numbers).
  { apply Forall_forall. intros n Hn. unfold numbers in Hn.
    apply filter_In in Hn as [Hm Hf].
    apply andb_true_iff in Hf as [Hl Hi]. apply Nat.leb_le in Hl.
    apply in_map_iff in Hm as (piece & <- & _). split.
    - apply normalized_submittable, Hl.
    - intros I. apply negb_true_iff in Hi.
      assert (X : existsb (str_eqb (toUpperCase (trim piece)))
                          (trackingNumbers st) = true).
      { apply existsb_exists. exists (toUpperCase (trim piece)).
        split; [exact I|apply str_eqb_refl]. }
      congruence. }
  exists numbers. destruct numbers as [|n numbers'] eqn:E;
    cbn [length Nat.ltb Nat.leb].
  - rewrite app_nil_r.
    split; [reflexivity|]. split; [reflexivity|]. split; [exact F|].
    split; [reflexivity|]. intros X. exfalso. apply X. reflexivity.
  - cbn [trackingNumbers results inputValue].
    split; [reflexivity|]. split; [reflexivity|]. split; [exact F|].
    split; [discriminate|reflexivity].
Qed.

(** X20.  [addTrackingNumber] only appends: the numbers already listed
    stay, in their order, and so do the results; each number it appends
    is trimmed, upper-cased, at least eight units long and was not
    listed before; when it appends nothing the state is unchanged, and
    otherwise the input is cleared. *)
Theorem addTrackingNumber_appends (st : PageState) :
  exists added,
    trackingNumbers (addTrackingNumber st) = trackingNumbers st ++ added
    /\ results (addTrackingNumber st) = results st
    /\ Forall (fun n => (8 <= length n)%nat /\ toUpperCase (trim n) = n
                        /\ ~ In n (trackingNumbers st)) added
    /\ (added = [] -> addTrackingNumber st = st)
    /\ (added <> [] -> inputValue (addTrackingNumber st) = []).
Proof.
  destruct (addTrackingNumber_added st) as (added & E & R & F & N & C).
  exists added. repeat split; try assumption.
  eapply Forall_impl; [|exact F]. intros n [[L T] I]. repeat split; assumption.
Qed.

(** Every number the page lists can be submitted. *)
Lemma reachable_submittable (st : PageState) :
  reachable st -> Forall submittable (trackingNumbers st).
Proof.
  intros H. induction H as [|st v _ IH|st _ IH|st number _ IH|st rs _ IH];
    cbn [trackingNumbers initial removeTrackingNumber]; try assumption.
  - constructor.
  - destruct (addTrackingNumber_added st) as (added & -> & _ & F & _).
    apply Forall_app. split; [exact IH|].
    eapply Forall_impl; [|exact F]. intros n [S _]. exact S.
  - apply Forall_forall. intros n Hn. apply filter_In in Hn as [Hn _].
    rewrite Forall_forall in IH. exact (IH n Hn).
Qed.

(** X21.  The page and the route agree on what a valid number is: in
    every state the page can reach, each listed number passes the length
    check of [POST] and goes to the dispatcher exactly as it is listed;
    so on every run the batch gets, position by position, a result whose
    [trackingNumber] is the listed number. *)
Theorem page_numbers_pass_validation (rt : Runtime) (st : PageState) :
  reachable st ->
  Forall (fun n => trackOne rt n = trackShipment rt n) (trackingNumbers st)
  /\ forall (W : Type) (net : Request -> W -> (thrown + Response) * W) (w : W),
       exists rs w',
         interp net (trackAll rt (map JStr (trackingNumbers st)) []) w
         = (inr rs, w')
         /\ Forall2 (fun n r => trackingNumber r = n) (trackingNumbers st) rs.
Proof.
  intros H. pose proof (reachable_submittable st H) as S. split.
  - eapply Forall_impl; [|exact S]. intros n [L T].
    rewrite trackOne_long; rewrite T; [reflexivity|exact L].
  - intros W net w.
    destruct (trackAll_run rt W net (trackingNumbers st) [] w)
      as (rs & w' & E & F).
    exists rs, w'. split; [exact E|].
    clear E. induction F as [|n r ns rs' [T _] _ IH]; [constructor|].
    inversion S as [|? ? [_ Tn] S']. subst.
    constructor; [congruence|exact (IH S')].
Qed.

Lemma split_on_pieces_no_sep (is_sep : N -> bool) (s : jsstring) :
  forallb (fun u => negb (is_sep u)) s = true ->
  split_on_pieces is_sep s = (s, []).
Proof.
  induction s as [|c s IH]; simpl; [reflexivity|]. intros H.
  apply andb_true_iff in H as [Hc Hs]. apply negb_true_iff in Hc.
  rewrite (IH Hs), Hc. reflexivity.
Qed.

Lemma split_on_twice (is_sep : N -> bool) (n : jsstring) (sep : N) :
  is_sep sep = true ->
  forallb (fun u => negb (is_sep u)) n = true ->
  split_on is_sep (n ++ sep :: n) = [n; n].
Proof.
  intros Hsep Hn. unfold split_on.
  assert (E : split_on_pieces is_sep (n ++ sep :: n) = (n, [n])).
  { pose proof (split_on_pieces_no_sep is_sep n Hn) as T.
    revert Hn. generalize n at 1 2 4 as d.
    induction d as [|c d IH]; simpl; intros Hd.
    - rewrite T, Hsep. reflexivity.
    - apply andb_true_iff in Hd as [Hc Hd]. apply negb_true_iff in Hc.
      rewrite (IH Hd), Hc. reflexivity. }
  rewrite E. reflexivity.
Qed.

(** X22.  The page does not keep its list free of duplicates: a new
    number typed twice in one input, separated by a comma, is appended
    twice, because the filter only looks at the numbers listed before;
    removing the number takes both copies away. *)
Theorem addTrackingNumber_duplicates (st : PageState) (n : jsstring) :
  submittable n ->
  forallb (fun u => negb (comma_or_newline u)) n = true ->
  ~ In n (trackingNumbers st) ->
  let typed := {| trackingNumbers := trackingNumbers st;
                  inputValue := n ++ 44 :: n;
                  results := results st |} in
  trackingNumbers (addTrackingNumber typed) = trackingNumbers st ++ [n; n]
  /\ trackingNumbers (removeTrackingNumber n (addTrackingNumber typed))
     = trackingNumbers st.
Proof.
  intros [L T] Hn Hi typed.
  assert (X : existsb (str_eqb n) (trackingNumbers st) = false).
  { destruct (existsb (str_eqb n) (trackingNumbers st)) eqn:E; [|reflexivity].
    apply existsb_exists in E as (m & Hm & E). apply str_eqb_eq in E.
    subst m. contradiction. }
  assert (A : trackingNumbers (addTrackingNumber typed)
              = trackingNumbers st ++ [n; n]).
  { unfold addTrackingNumber, typed. cbn [inputValue trackingNumbers].
    rewrite (split_on_twice comma_or_newline n 44 eq_refl Hn).
    cbn [map filter]. rewrite T, X. apply Nat.leb_le in L. rewrite L.
    cbn [andb negb length Nat.ltb Nat.leb trackingNumbers]. reflexivity. }
  split; [exact A|].
  cbn [removeTrackingNumber trackingNumbers]. rewrite A, filter_app.
  cbn [filter]. rewrite str_eqb_refl. cbn [negb]. rewrite app_nil_r.
  apply forallb_filter_id. apply forallb_forall. intros m Hm.
  apply negb_true_iff. destruct (str_eqb m n) eqn:E; [|reflexivity].
  apply str_eqb_eq in E. subst m. contradiction.
Qed.

(* ================================================================== *)
(** * The statements above on concrete numbers and answers *)
(* ================================================================== *)

Lemma one_request_per_number_witness :
  exists rq,
    requests unreachable (trackShipment demo_runtime (lit "SE101046219GR")) tt
    = [rq]
    /\ method rq = lit "POST"
    /\ body rq = lit "number=SE101046219GR&s=0".
Proof.
  destruct (one_request_per_number demo_runtime unit unreachable tt
              (lit "SE101046219GR")) as [_ R].
  let t := eval vm_compute in
      (requests unreachable
         (trackShipment demo_runtime (lit "SE101046219GR")) tt)
  in match t with [?rq] => exists rq end.
  split; [vm_compute; reflexivity|].
  match goal with
  | |- method ?rq = _ /\ _ =>
    destruct (R rq) as [M [(_ & _ & B)|(D & _)]]
  end.
  - vm_compute. left. reflexivity.
  - split; [exact M|]. rewrite B. vm_compute. reflexivity.
  - vm_compute in D. discriminate D.
Defined.

Lemma trackELTA_empty_history_witness :
  exists r,
    answer (trackELTA (runtime_parsing (elta_answer (JArr [])))
                      (lit "SE101046219GR"))
           (inr empty_response) = Ret r
    /\ success r = true /\ status r = [] /\ statusCategory r = unknown.
Proof.
  eexists. split.
  - apply (trackELTA_empty_history
             (runtime_parsing (elta_answer (JArr [])))
             (lit "SE101046219GR") empty_response []
             (elta_answer (JArr [])) (elta_entry (JArr [])));
      vm_compute; reflexivity.
  - repeat split.
Defined.

Lemma trackELTA_history_witness :
  (exists r,
      answer (trackELTA (runtime_parsing (elta_answer (JArr [elta_delivered])))
                        (lit "SE101046219GR"))
             (inr empty_response) = Ret r
      /\ status r = lit "Delivered" /\ statusCategory r = delivered
      /\ events r = JArr [elta_delivered])
  /\ (exists r,
        answer (trackELTA
                  (runtime_parsing
                     (elta_answer (JArr [elta_event (JNum (Finite (inject_Z 0)))])))
                  (lit "SE101046219GR"))
               (inr empty_response) = Ret r
        /\ success r = true /\ status r = [] /\ statusCategory r = unknown)
  /\ (exists r,
        answer (trackELTA
                  (runtime_parsing
                     (elta_answer (JArr [elta_event (JNum (Finite (inject_Z 7)))])))
                  (lit "SE101046219GR"))
               (inr empty_response) = Ret r
        /\ success r = false /\ statusCategory r = error).
Proof.
  split; [|split].
  - eexists. split.
    + apply (proj1 (trackELTA_history
                      (runtime_parsing (elta_answer (JArr [elta_delivered])))
                      (lit "SE101046219GR") empty_response []
                      (elta_answer (JArr [elta_delivered]))
                      (elta_entry (JArr [elta_delivered]))
                      elta_delivered []
                      ltac:(vm_compute; reflexivity)
                      ltac:(vm_compute; reflexivity)
                      ltac:(vm_compute; reflexivity)
                      ltac:(vm_compute; reflexivity)
                      ltac:(vm_compute; reflexivity)
                      ltac:(vm_compute; reflexivity))
               (lit "Αποστολή παραδόθηκε")).
      vm_compute. reflexivity.
    + repeat split; vm_compute; reflexivity.
  - eexists. split.
    + apply (proj1 (trackELTA_history
                      (runtime_parsing
                         (elta_answer (JArr [elta_event (JNum (Finite (inject_Z 0)))])))
                      (lit "SE101046219GR") empty_response []
                      (elta_answer (JArr [elta_event (JNum (Finite (inject_Z 0)))]))
                      (elta_entry (JArr [elta_event (JNum (Finite (inject_Z 0)))]))
                      (elta_event (JNum (Finite (inject_Z 0)))) []
                      ltac:(vm_compute; reflexivity)
                      ltac:(vm_compute; reflexivity)
                      ltac:(vm_compute; reflexivity)
                      ltac:(vm_compute; reflexivity)
                      ltac:(vm_compute; reflexivity)
                      ltac:(vm_compute; reflexivity))
               []).
      vm_compute. reflexivity.
    + repeat split; vm_compute; reflexivity.
  - destruct (proj2 (trackELTA_history
                       (runtime_parsing
                          (elta_answer (JArr [elta_event (JNum (Finite (inject_Z 7)))])))
                       (lit "SE101046219GR") empty_response []
                       (elta_answer (JArr [elta_event (JNum (Finite (inject_Z 7)))]))
                       (elta_entry (JArr [elta_event (JNum (Finite (inject_Z 7)))]))
                       (elta_event (JNum (Finite (inject_Z 7)))) []
                       ltac:(vm_compute; reflexivity)
                       ltac:(vm_compute; reflexivity)
                       ltac:(vm_compute; reflexivity)
                       ltac:(vm_compute; reflexivity)
                       ltac:(vm_compute; reflexivity)
                       ltac:(vm_compute; reflexivity)))
      as (r & E & S & C & _).
    + intros t H. vm_compute in H. discriminate H.
    + exists r. split; [exact E|]. split; [exact S|exact C].
Defined.

Lemma trackELTA_byte_order_mark_witness :
  answer (trackELTA demo_runtime (lit "SE101046219GR"))
         (inr {| text := inr (65279 :: lit "{}"); json_ := inl NotAnError |})
  = answer (trackELTA demo_runtime (lit "SE101046219GR"))
           (inr {| text := inr (lit "{}"); json_ := inl NotAnError |}).
Proof.
  apply (trackELTA_byte_order_mark demo_runtime (lit "SE101046219GR")
           (lit "{}")).
  vm_compute. reflexivity.
Defined.

Lemma boxnow_event_timestamp_witness :
  exists x,
    boxnow_event demo_runtime boxnow_delivered = Ret x
    /\ is_event x (lit "2024-01-02") (lit "10:20:30")
         (JStr (lit "Athens")) (JStr (lit "delivered")).
Proof.
  destruct (boxnow_event_timestamp demo_runtime boxnow_delivered
              (lit "2024-01-02") (lit "10:20:30.123Z")) as (x & E & H).
  - discriminate.
  - vm_compute. reflexivity.
  - vm_compute. reflexivity.
  - vm_compute. reflexivity.
  - exists x. split; [exact E|].
    unfold is_event in *. rewrite H. vm_compute. reflexivity.
Defined.

Lemma boxnow_event_shape_witness :
  exists x date time,
    boxnow_event demo_runtime boxnow_delivered = Ret x
    /\ is_event x date time (JStr (lit "Athens")) (JStr (lit "delivered"))
    /\ (length time <= 8)%nat.
Proof.
  let t := eval vm_compute in (boxnow_event demo_runtime boxnow_delivered)
  in match t with
     | Ret ?x =>
       destruct (boxnow_event_shape demo_runtime boxnow_delivered x)
         as (date & time & I & _ & _ & L);
       [vm_compute; reflexivity | exists x, date, time]
     end.
  split; [vm_compute; reflexivity|]. split; [exact I|exact L].
Defined.

Lemma trackBoxNow_events_witness :
  (exists r,
      answer (trackBoxNow demo_runtime (lit "BN12345678"))
             (inr (boxnow_response [boxnow_delivered; boxnow_delivered]))
      = Ret r
      /\ success r = true /\ status r = lit "Delivered")
  /\ (exists r,
        answer (trackBoxNow demo_runtime (lit "BN12345678"))
               (inr (boxnow_response [boxnow_delivered; JNull]))
        = Ret r
        /\ success r = false /\ events r = JArr [])
  /\ (exists r,
        answer (trackBoxNow demo_runtime (lit "BN12345678"))
               (inr (boxnow_response [boxnow_created (JNum (Finite (inject_Z 0)))]))
        = Ret r
        /\ success r = false /\ events r = JArr []).
Proof.
  split; [|split].
  - destruct (proj1 (trackBoxNow_events demo_runtime (lit "BN12345678")
                       (boxnow_response [boxnow_delivered; boxnow_delivered])
                       (JObj [(lit "data",
                               JArr [boxnow_parcel
                                       [boxnow_delivered; boxnow_delivered]])])
                       (boxnow_parcel [boxnow_delivered; boxnow_delivered])
                       [] [boxnow_delivered; boxnow_delivered]
                       (lit "delivered")
                       eq_refl
                       ltac:(vm_compute; reflexivity)
                       ltac:(discriminate)
                       ltac:(vm_compute; reflexivity)
                       ltac:(vm_compute; reflexivity))
                ltac:(vm_compute; reflexivity))
      as (r & xs & E & S & T & _).
    exists r. split; [exact E|]. split; [exact S|].
    rewrite T. vm_compute. reflexivity.
  - destruct (proj2 (trackBoxNow_events demo_runtime (lit "BN12345678")
                       (boxnow_response [boxnow_delivered; JNull])
                       (JObj [(lit "data",
                               JArr [boxnow_parcel
                                       [boxnow_delivered; JNull]])])
                       (boxnow_parcel [boxnow_delivered; JNull])
                       [] [boxnow_delivered; JNull]
                       (lit "delivered")
                       eq_refl
                       ltac:(vm_compute; reflexivity)
                       ltac:(discriminate)
                       ltac:(vm_compute; reflexivity)
                       ltac:(vm_compute; reflexivity))
                ltac:(vm_compute; reflexivity))
      as (r & E & S & _ & Ev).
    exists r. repeat split; assumption.
  - destruct (proj2 (trackBoxNow_events demo_runtime (lit "BN12345678")
                       (boxnow_response [boxnow_created (JNum (Finite (inject_Z 0)))])
                       (JObj [(lit "data",
                               JArr [boxnow_parcel
                                       [boxnow_created (JNum (Finite (inject_Z 0)))]])])
                       (boxnow_parcel [boxnow_created (JNum (Finite (inject_Z 0)))])
                       [] [boxnow_created (JNum (Finite (inject_Z 0)))]
                       (lit "delivered")
                       eq_refl
                       ltac:(vm_compute; reflexivity)
                       ltac:(discriminate)
                       ltac:(vm_compute; reflexivity)
                       ltac:(vm_compute; reflexivity))
                ltac:(vm_compute; reflexivity))
      as (r & E & S & _ & Ev).
    exists r. repeat split; assumption.
Defined.

Lemma POST_refusals_witness :
  POST demo_runtime (inr (JObj [(lit "trackingNumbers", JStr (lit "AB"))]))
  = Ret (Json (ErrorBody (lit "Please provide at least one tracking number"))
              400).
Proof.
  apply (proj2 (proj2 (POST_refusals demo_runtime))).
  - discriminate.
  - intros item items H. vm_compute in H. discriminate H.
Defined.

Lemma POST_non_string_element_witness :
  fst (interp unreachable
         (POST demo_runtime
            (inr (JObj [(lit "trackingNumbers",
                         JArr [JStr (lit "SE101046219GR"); JNull])])))
         tt)
  = inr (Json (ErrorBody (lit "Failed to process tracking request")) 500)
  /\ length (requests unreachable
               (POST demo_runtime
                  (inr (JObj [(lit "trackingNumbers",
                               JArr [JStr (lit "SE101046219GR"); JNull])])))
               tt) = 1%nat.
Proof.
  split.
  - apply (POST_non_string_element demo_runtime
             (JObj [(lit "trackingNumbers",
                     JArr [JStr (lit "SE101046219GR"); JNull])])
             [JStr (lit "SE101046219GR"); JNull]).
    + vm_compute. reflexivity.
    + reflexivity.
  - vm_compute. reflexivity.
Defined.

Lemma GET_agrees_with_POST_witness :
  exists r,
    fst (interp unreachable (GET demo_runtime (Some (lit "se101046219gr"))) tt)
    = inr (Json (ResultBody r) 200)
    /\ fst (interp unreachable
              (POST demo_runtime
                 (inr (JObj [(lit "trackingNumbers",
                              JArr [JStr (lit "se101046219gr")])])))
              tt)
       = inr (Json (ResultsBody [r]) 200).
Proof.
  destruct (GET_agrees_with_POST demo_runtime (lit "se101046219gr")
              unit unreachable tt) as (r & w' & G & P & _).
  - discriminate.
  - vm_compute. reflexivity.
  - vm_compute. lia.
  - exists r. rewrite G, P. split; reflexivity.
Defined.

Lemma forwarded_number_witness :
  exists rq,
    requests unreachable (GET demo_runtime (Some (lit " se101046219gr "))) tt
    = [rq]
    /\ carries demo_runtime (lit " SE101046219GR ") rq.
Proof.
  destruct (forwarded_number demo_runtime (lit " se101046219gr ")
              unit unreachable tt) as [G _].
  destruct G as [C _]; [discriminate|].
  let t := eval vm_compute in
      (requests unreachable
         (GET demo_runtime (Some (lit " se101046219gr "))) tt)
  in match t with [?rq] => exists rq end.
  split; [vm_compute; reflexivity|].
  match goal with
  | |- carries _ _ ?rq =>
    replace (lit " SE101046219GR ")
      with (toUpperCase (lit " se101046219gr "))
      by (vm_compute; reflexivity);
    apply (C rq)
  end.
  vm_compute. left. reflexivity.
Defined.

Lemma addTrackingNumber_appends_witness :
  exists added,
    trackingNumbers
      (addTrackingNumber
         {| trackingNumbers := [lit "BN12345678"];
            inputValue := lit "se101046219gr, bn12345678 ,short";
            results := [] |})
    = [lit "BN12345678"] ++ added
    /\ Forall (fun n => (8 <= length n)%nat /\ toUpperCase (trim n) = n
                        /\ ~ In n [lit "BN12345678"]) added.
Proof.
  destruct (addTrackingNumber_appends
              {| trackingNumbers := [lit "BN12345678"];
                 inputValue := lit "se101046219gr, bn12345678 ,short";
                 results := [] |}) as (added & E & _ & F & _).
  exists added. split; [exact E|exact F].
Defined.

Lemma page_numbers_pass_validation_witness :
  trackOne demo_runtime (lit "SE101046219GR")
  = trackShipment demo_runtime (lit "SE101046219GR").
Proof.
  pose (st := addTrackingNumber
                {| trackingNumbers := [];
                   inputValue := lit " se101046219gr ";
                   results := [] |}).
  assert (R : reachable st).
  { apply reach_add.
    exact (reach_input initial (lit " se101046219gr ") reach_initial). }
  destruct (page_numbers_pass_validation demo_runtime st R) as [F _].
  assert (I : In (lit "SE101046219GR") (trackingNumbers st)).
  { vm_compute. left. reflexivity. }
  rewrite Forall_forall in F. exact (F _ I).
Defined.

Lemma addTrackingNumber_duplicates_witness :
  trackingNumbers
    (addTrackingNumber
       {| trackingNumbers := [];
          inputValue := lit "BN12345678,BN12345678";
          results := [] |})
  = [lit "BN12345678"; lit "BN12345678"].
Proof.
  destruct (addTrackingNumber_duplicates initial (lit "BN12345678"))
    as [A _].
  - split; [vm_compute; lia|vm_compute; reflexivity].
  - vm_compute. reflexivity.
  - intros [].
  - exact A.
Defined.
